(** * Data-Interface: the reconciliation engine, embedded in Rocq

    Shallow embedding of
    - [backend/system/fetch_wallet_data.py]: the time windower, the record
      normalizer, the wallet role resolver and the position aggregator;
    - [backend/system/fetch_fee_data.py]: the hexadecimal decoder, the fee
      computation and the memoizing driver loop;
    - [fetch_trade_data.py]: its copy of the time windower (same text as the
      one of [fetch_wallet_data.py]).

    Python values are an inductive type, Python floats are IEEE-754 binary64
    numbers ([SpecFloat], 53 bits of precision), Python exceptions are the
    [Raise] case of a result type, dictionaries are association lists in
    insertion order.  Strings are byte strings: case conversion and white
    space are the ASCII ones. *)

From Stdlib Require Import ZArith List String Ascii Bool Lia DecimalString.
From Stdlib Require Import Floats.SpecFloat.
Import ListNotations.

Open Scope Z_scope.

(** ** Floats *)

Definition float := spec_float.
Definition prec : Z := 53.
Definition emax : Z := 1024.

Definition fzero : float := S754_zero false.
Definition fone : float := S754_finite false 4503599627370496 (-52).
Definition float_add : float -> float -> float := SFadd prec emax.
Definition float_sub : float -> float -> float := SFsub prec emax.
Definition float_mul : float -> float -> float := SFmul prec emax.
Definition float_div : float -> float -> float := SFdiv prec emax.
Definition float_neg : float -> float := SFopp.
Definition float_eqb : float -> float -> bool := SFeqb.

(** [bool(x)] of a float: everything but the two zeros, NaN included. *)
Definition float_truthy (f : float) : bool := negb (float_eqb f fzero).

(** [float(z)] of an int: rounded to nearest even; [None] stands for the
    [OverflowError] of an int that rounds beyond the largest double. *)
Definition float_of_Z (z : Z) : option float :=
  match binary_normalize prec emax z 0 false with
  | S754_infinity _ => None
  | f => Some f
  end.

(** [int(f)] of a float: truncation towards zero; [None] for NaN and the
    infinities, where Python raises. *)
Definition float_trunc (f : float) : option Z :=
  match f with
  | S754_zero _ => Some 0
  | S754_finite s m e =>
      let v := if 0 <=? e then Zpos m * 2 ^ e else Zpos m / 2 ^ (- e) in
      Some (if s then - v else v)
  | _ => None
  end.

(** The exact value of a finite float as [m * 2^e] with [m] odd, used to
    compare numbers of different types. *)
Fixpoint odd_part (m : positive) (e : Z) : positive * Z :=
  match m with
  | xO p => odd_part p (e + 1)
  | _ => (m, e)
  end.

(** ** Exceptions and results *)

Inductive exn_kind : Type :=
  | ValueError | TypeError | OverflowError | AttributeError | TransportError.

Record exn : Type := Exn { exn_type : exn_kind; exn_msg : string }.

Inductive result (A : Type) : Type :=
  | Ok (a : A)
  | Raise (e : exn).
Arguments Ok {A} a.
Arguments Raise {A} e.

Definition bind {A B : Type} (r : result A) (k : A -> result B) : result B :=
  match r with
  | Ok a => k a
  | Raise e => Raise e
  end.

Notation "x <- c ;; k" := (bind c (fun x => k))
  (at level 61, c at next level, right associativity).

(** ** Python values *)

#[local] Set Warnings "-register-all".

Inductive pyval : Type :=
  | PNone
  | PBool (b : bool)
  | PInt (z : Z)
  | PFloat (f : float)
  | PStr (s : string)
  | PList (l : list pyval)
  | PDict (d : list (string * pyval)).

(** A JSON object, as [r.json()] gives it. *)
Definition pydict : Type := list (string * pyval).

Definition truthy (v : pyval) : bool :=
  match v with
  | PNone => false
  | PBool b => b
  | PInt z => negb (z =? 0)
  | PFloat f => float_truthy f
  | PStr s => negb (s =? "")%string
  | PList l => match l with [] => false | _ :: _ => true end
  | PDict d => match d with [] => false | _ :: _ => true end
  end.

(** [a or b] *)
Definition py_or (a b : pyval) : pyval := if truthy a then a else b.
Infix "|||" := py_or (at level 50, left associativity).

(** [t.get(k)] *)
Fixpoint get (t : pydict) (k : string) : pyval :=
  match t with
  | [] => PNone
  | (k', v) :: t' => if (k' =? k)%string then v else get t' k
  end.

Definition is_none (v : pyval) : bool :=
  match v with PNone => true | _ => false end.

Definition type_name (v : pyval) : string :=
  match v with
  | PNone => "NoneType"
  | PBool _ => "bool"
  | PInt _ => "int"
  | PFloat _ => "float"
  | PStr _ => "str"
  | PList _ => "list"
  | PDict _ => "dict"
  end.

(** ** Strings *)

Definition in_range (lo hi : N) (c : ascii) : bool :=
  let n := N_of_ascii c in (lo <=? n)%N && (n <=? hi)%N.

Definition lower_ascii (c : ascii) : ascii :=
  if in_range 65 90 c then ascii_of_N (N_of_ascii c + 32) else c.

Definition upper_ascii (c : ascii) : ascii :=
  if in_range 97 122 c then ascii_of_N (N_of_ascii c - 32) else c.

Fixpoint map_string (f : ascii -> ascii) (s : string) : string :=
  match s with
  | EmptyString => EmptyString
  | String c s' => String (f c) (map_string f s')
  end.

(** [s.lower()] and [s.upper()] *)
Definition py_lower : string -> string := map_string lower_ascii.
Definition py_upper : string -> string := map_string upper_ascii.

Definition is_space (c : ascii) : bool :=
  in_range 9 13 c || in_range 28 32 c.

Fixpoint lstrip (s : string) : string :=
  match s with
  | String c s' => if is_space c then lstrip s' else s
  | EmptyString => EmptyString
  end.

Fixpoint rev_string (s acc : string) : string :=
  match s with
  | EmptyString => acc
  | String c s' => rev_string s' (String c acc)
  end.

(** [s.strip()] *)
Definition strip (s : string) : string :=
  rev_string (lstrip (rev_string (lstrip s) "")) "".

(** [s.startswith(p)] *)
Definition startswith (p s : string) : bool := String.prefix p s.

(** Value of a digit in the given base ([0-9a-zA-Z]). *)
Definition digit_val (base : Z) (c : ascii) : option Z :=
  let n := Z.of_N (N_of_ascii c) in
  let v := if in_range 48 57 c then n - 48
           else if in_range 97 122 c then n - 87
           else if in_range 65 90 c then n - 55
           else base in
  if v <? base then Some v else None.

(** Digits separated by single underscores, as [int] accepts them. *)
Inductive digit_state : Type := DStart (underscore_ok : bool) | DDigit | DUnder.

Fixpoint parse_digits (base : Z) (st : digit_state) (acc : Z) (s : string)
  : option Z :=
  match s with
  | EmptyString => match st with DDigit => Some acc | _ => None end
  | String c s' =>
      if (c =? "_")%char then
        match st with
        | DStart true | DDigit => parse_digits base DUnder acc s'
        | _ => None
        end
      else
        match digit_val base c with
        | Some d => parse_digits base DDigit (acc * base + d) s'
        | None => None
        end
  end.

Definition strip_prefix16 (s : string) : string * bool :=
  match s with
  | String "0" (String "x" s') => (s', true)
  | String "0" (String "X" s') => (s', true)
  | _ => (s, false)
  end.

(** [int(s, base)] for [base] 10 or 16; [None] is [ValueError]. *)
Definition int_of_string (base : Z) (s : string) : option Z :=
  let s := strip s in
  let '(neg, s) :=
    match s with
    | String "-" s' => (true, s')
    | String "+" s' => (false, s')
    | _ => (false, s)
    end in
  let '(s, pre) := if base =? 16 then strip_prefix16 s else (s, false) in
  match parse_digits base (DStart pre) 0 s with
  | Some v => Some (if neg then - v else v)
  | None => None
  end.

(** ** Dictionaries

    A [dict] in insertion order.  [keq k' k] compares a stored key [k'] with
    the key [k] looked for; assigning to a present key keeps its place and
    its stored key. *)

Section AssocDict.
Context {K V : Type} (keq : K -> K -> bool).

Fixpoint lookup (d : list (K * V)) (k : K) : option V :=
  match d with
  | [] => None
  | (k', v) :: d' => if keq k' k then Some v else lookup d' k
  end.

Fixpoint assign (d : list (K * V)) (k : K) (v : V) : list (K * V) :=
  match d with
  | [] => [(k, v)]
  | (k', v') :: d' =>
      if keq k' k then (k', v) :: d' else (k', v') :: assign d' k v
  end.

End AssocDict.

(** Keys of the fee cache are arbitrary hashable values: [None], strings and
    numbers, where [True == 1 == 1.0] are one key and NaN equals nothing. *)
Inductive hkey : Type :=
  | HNone
  | HStr (s : string)
  | HNum (m e : Z)
  | HInf (neg : bool).

Inductive key_class : Type :=
  | Unhashable
  | Unequal
  | Key (h : hkey).

Definition hkey_of_Z (z : Z) : hkey :=
  match z with
  | Z0 => HNum 0 0
  | Zpos p => let '(m, e) := odd_part p 0 in HNum (Zpos m) e
  | Zneg p => let '(m, e) := odd_part p 0 in HNum (Zneg m) e
  end.

Definition key_of (v : pyval) : key_class :=
  match v with
  | PNone => Key HNone
  | PBool b => Key (hkey_of_Z (if b then 1 else 0))
  | PInt z => Key (hkey_of_Z z)
  | PFloat (S754_zero _) => Key (HNum 0 0)
  | PFloat (S754_infinity s) => Key (HInf s)
  | PFloat S754_nan => Unequal
  | PFloat (S754_finite s m e) =>
      let '(m', e') := odd_part m e in
      Key (HNum (if s then Zneg m' else Zpos m') e')
  | PStr s => Key (HStr s)
  | PList _ | PDict _ => Unhashable
  end.

Definition hkey_eqb (a b : hkey) : bool :=
  match a, b with
  | HNone, HNone => true
  | HStr s, HStr s' => (s =? s')%string
  | HNum m e, HNum m' e' => (m =? m') && (e =? e')
  | HInf s, HInf s' => Bool.eqb s s'
  | _, _ => false
  end.

(** [a == b] on dictionary keys. *)
Definition key_eqb (a b : pyval) : bool :=
  match key_of a, key_of b with
  | Key h, Key h' => hkey_eqb h h'
  | _, _ => false
  end.

Definition hashable (v : pyval) : bool :=
  match key_of v with Unhashable => false | _ => true end.

(** ** The engine

    [repr] of a float, [repr] of a list or dict and [float] of a string are
    Python's own; they are parameters of the development, as are the time
    zone and the two Etherscan calls further down. *)

Section Engine.

Variable float_repr : float -> string.
Variable container_repr : pyval -> string.
Variable float_of_string : string -> result float.

(** [str(v)] *)
Definition py_str (v : pyval) : string :=
  match v with
  | PNone => "None"
  | PBool true => "True"
  | PBool false => "False"
  | PInt z => NilZero.string_of_int (Z.to_int z)
  | PFloat f => float_repr f
  | PStr s => s
  | PList _ | PDict _ => container_repr v
  end.

(** [float(v)] *)
Definition py_float (v : pyval) : result float :=
  match v with
  | PBool b => Ok (if b then fone else fzero)
  | PInt z =>
      match float_of_Z z with
      | Some f => Ok f
      | None => Raise (Exn OverflowError "int too large to convert to float")
      end
  | PFloat f => Ok f
  | PStr s => float_of_string s
  | PNone | PList _ | PDict _ =>
      Raise (Exn TypeError
        ("float() argument must be a string or a real number, not '"
           ++ type_name v ++ "'"))
  end.

(** [int(v)] inside a [try]: [None] when it raises. *)
Definition py_int (v : pyval) : option Z :=
  match v with
  | PBool b => Some (if b then 1 else 0)
  | PInt z => Some z
  | PFloat f => float_trunc f
  | PStr s => int_of_string 10 s
  | PNone | PList _ | PDict _ => None
  end.

(** *** fetch_wallet_data.py: extract_ts_seconds *)

Definition extract_ts_seconds (trade : pydict) : option Z :=
  let ts := get trade "timestamp" ||| get trade "ts" ||| get trade "time" in
  if is_none ts then None
  else
    match py_int ts with
    | Some t => Some (if 2 * 10 ^ 10 <? t then t / 1000 else t)
    | None => None
    end.

(** *** fetch_wallet_data.py: normalize_trade_record *)

Record NormalizedTrade : Type := {
  market_id : pyval;
  market_title : pyval;
  outcome_id : pyval;
  outcome_label : pyval;
  price : option float;
  size : option float;
  ts : option Z;
  user : option string;
  maker : option string;
  taker : option string;
  buyer : option string;
  seller : option string;
  side : pyval;
  raw : pydict
}.

(** [float(x) if x is not None else None] *)
Definition float_or_none (x : pyval) : result (option float) :=
  if is_none x then Ok None else f <- py_float x ;; Ok (Some f).

(** [str(x).lower() if x else None] *)
Definition lower_or_none (x : pyval) : option string :=
  if truthy x then Some (py_lower (py_str x)) else None.

Definition normalize_trade_record (t : pydict) : result NormalizedTrade :=
  let market_id :=
    get t "conditionId" ||| get t "market" ||| get t "marketId"
      ||| get t "market_id" ||| get t "eventId" in
  let market_title :=
    get t "title" ||| get t "marketTitle" ||| get t "marketName"
      ||| get t "label" in
  let outcome_lbl := get t "outcome" ||| get t "outcomeLabel" ||| get t "side" in
  let outcome_id :=
    get t "outcomeToken" ||| get t "outcomeId" ||| get t "outcome_id"
      ||| get t "outcomeIndex"
      ||| match outcome_lbl with PStr s => PStr (py_upper s) | _ => PNone end in
  let price := get t "price" in
  let size := get t "size" ||| get t "quantity" ||| get t "amount" in
  price <- float_or_none price ;;
  size <- float_or_none size ;;
  let ts := extract_ts_seconds t in
  let proxy := get t "proxyWallet" ||| get t "wallet" ||| get t "user" in
  let maker := get t "maker" ||| get t "makerAddress" in
  let taker := get t "taker" ||| get t "takerAddress" in
  let buyer := get t "buyer" in
  let seller := get t "seller" in
  let side := get t "side" ||| get t "type" ||| get t "action" ||| get t "outcome" in
  let side := match side with PStr s => PStr (py_lower s) | _ => side end in
  Ok {| market_id := market_id;
        market_title := market_title;
        outcome_id := outcome_id;
        outcome_label := outcome_lbl;
        price := price;
        size := size;
        ts := ts;
        user := lower_or_none proxy;
        maker := lower_or_none maker;
        taker := lower_or_none taker;
        buyer := lower_or_none buyer;
        seller := lower_or_none seller;
        side := side;
        raw := t |}.

(** *** fetch_wallet_data.py: signed_quantity_for_wallet *)

(** Truth value of a field that is [None] or a string. *)
Definition present (o : option string) : bool :=
  match o with
  | Some s => negb (s =? "")%string
  | None => false
  end.

(** [wl == field] *)
Definition is_wallet (wl : string) (o : option string) : bool :=
  match o with
  | Some s => (wl =? s)%string
  | None => false
  end.

(** [side in (a, b)] *)
Definition side_in (side : pyval) (a b : string) : bool :=
  match side with
  | PStr s => (s =? a)%string || (s =? b)%string
  | _ => false
  end.

(** A block of the function either returns a value or falls through to the
    next statement. *)
Definition or_else (r : option float) (next : float) : float :=
  match r with
  | Some x => x
  | None => next
  end.

Definition signed_quantity_for_wallet (n : NormalizedTrade) (wallet : string)
  : float :=
  match size n with
  | None => fzero
  | Some sz =>
      if negb (float_truthy sz) then fzero
      else
        let wl := py_lower wallet in
        let sd := side n in
        if present (user n) then
          or_else
            (if is_wallet wl (user n) then
               if side_in sd "buy" "yes" then Some sz
               else if side_in sd "sell" "no" then Some (float_neg sz)
               else None
             else None)
            fzero
        else
          or_else
            (if present (buyer n) || present (seller n) then
               if is_wallet wl (buyer n) then Some sz
               else if is_wallet wl (seller n) then Some (float_neg sz)
               else None
             else None)
          (or_else
            (if (present (maker n) || present (taker n)) && truthy sd then
               match
                 (if side_in sd "buy" "yes" then
                    if is_wallet wl (taker n) then Some sz
                    else if is_wallet wl (maker n) then Some (float_neg sz)
                    else None
                  else None)
               with
               | Some r => Some r
               | None =>
                   if side_in sd "sell" "no" then
                     if is_wallet wl (taker n) then Some (float_neg sz)
                     else if is_wallet wl (maker n) then Some sz
                     else None
                   else None
               end
             else None)
            fzero)
  end.

(** *** fetch_wallet_data.py: aggregate_delta_for_wallet *)

(** A bucket while the trades are folded. *)
Record Bucket : Type := {
  b_market_id : string;
  b_market_title : pyval;
  b_outcome_id : string;
  b_outcome_label : pyval;
  net_shares : float;
  fills : Z;
  avg_fill_price_sum : float
}.

(** A bucket as returned: [avg_fill_price] replaces [avg_fill_price_sum]. *)
Record Position : Type := {
  p_market_id : string;
  p_market_title : pyval;
  p_outcome_id : string;
  p_outcome_label : pyval;
  p_net_shares : float;
  p_fills : Z;
  avg_fill_price : float
}.

Definition bucket_key : Type := (string * string)%type.

Definition bucket_key_eqb (a b : bucket_key) : bool :=
  (fst a =? fst b)%string && (snd a =? snd b)%string.

Definition buckets : Type := list (bucket_key * Bucket).

(** One iteration of [for t in trades]. *)
Definition aggregate_step (wallet : string) (bucket : buckets) (t : pydict)
  : result buckets :=
  n <- normalize_trade_record t ;;
  if negb (truthy (market_id n)) || negb (truthy (outcome_id n)) then Ok bucket
  else
    let dq := signed_quantity_for_wallet n wallet in
    if float_eqb dq fzero then Ok bucket
    else
      let key := (py_str (market_id n), py_str (outcome_id n)) in
      let b :=
        match lookup bucket_key_eqb bucket key with
        | Some b => b
        | None =>
            {| b_market_id := py_str (market_id n);
               b_market_title := market_title n;
               b_outcome_id := py_str (outcome_id n);
               b_outcome_label := outcome_label n;
               net_shares := fzero;
               fills := 0;
               avg_fill_price_sum := fzero |}
        end in
      let b :=
        {| b_market_id := b_market_id b;
           b_market_title := b_market_title b;
           b_outcome_id := b_outcome_id b;
           b_outcome_label := b_outcome_label b;
           net_shares := float_add (net_shares b) dq;
           fills := fills b + 1;
           avg_fill_price_sum :=
             match price n with
             | Some p => float_add (avg_fill_price_sum b) p
             | None => avg_fill_price_sum b
             end |} in
      Ok (assign bucket_key_eqb bucket key b).

Fixpoint aggregate_loop (wallet : string) (trades : list pydict)
  (bucket : buckets) : result buckets :=
  match trades with
  | [] => Ok bucket
  | t :: trades' =>
      bucket' <- aggregate_step wallet bucket t ;;
      aggregate_loop wallet trades' bucket'
  end.

(** The body of the final loop: the mean, with the guarded divisor. *)
Definition finalize (rec : Bucket) : result Position :=
  let fills' := Z.max (fills rec) 1 in
  match float_of_Z fills' with
  | None => Raise (Exn OverflowError "int too large to convert to float")
  | Some d =>
      Ok {| p_market_id := b_market_id rec;
            p_market_title := b_market_title rec;
            p_outcome_id := b_outcome_id rec;
            p_outcome_label := b_outcome_label rec;
            p_net_shares := net_shares rec;
            p_fills := fills rec;
            avg_fill_price := float_div (avg_fill_price_sum rec) d |}
  end.

Fixpoint finalize_all (items : buckets) : result (list Position) :=
  match items with
  | [] => Ok []
  | (_, rec) :: items' =>
      p <- finalize rec ;;
      out <- finalize_all items' ;;
      Ok (p :: out)
  end.

Definition aggregate_delta_for_wallet (trades : list pydict) (wallet : string)
  : result (list Position) :=
  bucket <- aggregate_loop wallet trades [] ;;
  finalize_all bucket.

(** *** fetch_wallet_data.py, fetch_trade_data.py: parse_date_local

    [datetime.strptime(d, "%Y-%m-%d")]: four digits, a month and a day of
    one or two digits; the date is kept as its proleptic Gregorian ordinal
    (day 1 is 0001-01-01), the time of day being midnight throughout. *)

Definition digit (c : ascii) : option Z :=
  if in_range 48 57 c then Some (Z.of_N (N_of_ascii c) - 48) else None.

Definition two_digits (lo hi : Z) (s : string) : option (Z * string) :=
  match s with
  | String a (String b rest) =>
      match digit a, digit b with
      | Some x, Some y =>
          let v := 10 * x + y in
          if (lo <=? v) && (v <=? hi) then Some (v, rest) else None
      | _, _ => None
      end
  | _ => None
  end.

Definition one_digit (s : string) : option (Z * string) :=
  match s with
  | String a rest =>
      match digit a with
      | Some x => if 1 <=? x then Some (x, rest) else None
      | None => None
      end
  | EmptyString => None
  end.

(** [%Y]: [\d\d\d\d] *)
Definition parse_year (s : string) : option (Z * string) :=
  match s with
  | String a (String b (String c (String d rest))) =>
      match digit a, digit b, digit c, digit d with
      | Some x, Some y, Some z, Some w =>
          Some (1000 * x + 100 * y + 10 * z + w, rest)
      | _, _, _, _ => None
      end
  | _ => None
  end.

(** [%m]: [1[0-2]|0[1-9]|[1-9]] *)
Definition parse_month (s : string) : option (Z * string) :=
  match two_digits 1 12 s with
  | Some r => Some r
  | None => one_digit s
  end.

(** [%d]: [3[01]|[12]\d|0[1-9]|[1-9]| [1-9]] *)
Definition parse_day (s : string) : option (Z * string) :=
  match two_digits 1 31 s with
  | Some r => Some r
  | None =>
      match one_digit s with
      | Some r => Some r
      | None =>
          match s with
          | String " " rest => one_digit rest
          | _ => None
          end
      end
  end.

Definition expect_dash (s : string) : option string :=
  match s with
  | String "-" rest => Some rest
  | _ => None
  end.

Definition is_leap (y : Z) : bool :=
  (y mod 4 =? 0) && (negb (y mod 100 =? 0) || (y mod 400 =? 0)).

Definition days_in_month (y m : Z) : Z :=
  if m =? 2 then (if is_leap y then 29 else 28)
  else if (m =? 4) || (m =? 6) || (m =? 9) || (m =? 11) then 30
  else 31.

Definition days_before_year (y : Z) : Z :=
  let y1 := y - 1 in y1 * 365 + y1 / 4 - y1 / 100 + y1 / 400.

Fixpoint days_before_month_from (y : Z) (k : nat) (m : Z) : Z :=
  match k with
  | O => 0
  | S k' => days_before_month_from y k' (m - 1) + days_in_month y (m - 1)
  end.

Definition days_before_month (y m : Z) : Z :=
  days_before_month_from y (Z.to_nat (m - 1)) m.

Definition ymd_to_ordinal (y m d : Z) : Z :=
  days_before_year y + days_before_month y m + d.

(** The last day [datetime] can hold, 9999-12-31. *)
Definition MAXORD : Z := 3652059.

Definition strptime_ymd (d : string) : option Z :=
  match parse_year d with
  | None => None
  | Some (y, s) =>
  match expect_dash s with
  | None => None
  | Some s =>
  match parse_month s with
  | None => None
  | Some (m, s) =>
  match expect_dash s with
  | None => None
  | Some s =>
  match parse_day s with
  | None => None
  | Some (dd, s) =>
      if (s =? "")%string && (1 <=? y) && (dd <=? days_in_month y m)
      then Some (ymd_to_ordinal y m dd)
      else None
  end end end end end.

Definition parse_date_local (d : string) : result Z :=
  match strptime_ymd d with
  | Some n => Ok n
  | None => Raise (Exn ValueError "time data does not match format '%Y-%m-%d'")
  end.

(** *** fetch_wallet_data.py, fetch_trade_data.py: day_windows_local_to_utc *)

(** Offset from UTC, in seconds, of the local midnight of a day: the zone
    data of [Europe/Amsterdam], or of the system zone when [zoneinfo] is
    missing. *)
Variable utcoffset : Z -> Z.

Definition date_out_of_range : exn := Exn OverflowError "date value out of range".

(** [cur + timedelta(days=k)] *)
Definition add_days (cur k : Z) : result Z :=
  if (1 <=? cur + k) && (cur + k <=? MAXORD) then Ok (cur + k)
  else Raise date_out_of_range.

(** [int(cur.astimezone(timezone.utc).timestamp())]: the UTC instant has to
    be a [datetime] itself; 1970-01-01 is day 719163. *)
Definition utc_timestamp (cur : Z) : result Z :=
  let s := cur * 86400 - utcoffset cur in
  if (86400 <=? s) && (s <? (MAXORD + 1) * 86400) then Ok (s - 719163 * 86400)
  else Raise date_out_of_range.

(** The [while cur < end_local_excl] loop; [fuel] bounds its iterations and
    [None] is the answer of a loop that was given too little. *)
Fixpoint windows_loop (fuel : nat) (cur end_local_excl : Z) (out : list (Z * Z))
  : option (result (list (Z * Z))) :=
  if cur <? end_local_excl then
    match fuel with
    | O => None
    | S fuel' =>
        match add_days cur 1 with
        | Raise e => Some (Raise e)
        | Ok nxt1 =>
            let nxt := if end_local_excl <? nxt1 then end_local_excl else nxt1 in
            match utc_timestamp cur with
            | Raise e => Some (Raise e)
            | Ok start_ts_utc =>
                match utc_timestamp nxt with
                | Raise e => Some (Raise e)
                | Ok end_ts_utc =>
                    windows_loop fuel' nxt end_local_excl
                      (out ++ [(start_ts_utc, end_ts_utc)])
                end
            end
        end
    end
  else Some (Ok out).

(** Each iteration moves [cur] one day towards [end_local_excl]. *)
Definition windows_fuel (cur end_local_excl : Z) : nat :=
  Z.to_nat (end_local_excl - cur).

Definition day_windows_local_to_utc (from_date to_date : string)
  : option (result (list (Z * Z))) :=
  match parse_date_local from_date with
  | Raise e => Some (Raise e)
  | Ok start_local =>
      match parse_date_local to_date with
      | Raise e => Some (Raise e)
      | Ok to_local =>
          match add_days to_local 1 with
          | Raise e => Some (Raise e)
          | Ok end_local_excl =>
              windows_loop (windows_fuel start_local end_local_excl)
                start_local end_local_excl []
          end
      end
  end.

(** *** fetch_fee_data.py: hex_to_int, wei_to_matic, safe_float *)

Definition hex_to_int (v : pyval) : option Z :=
  if is_none v then None
  else
    let s := py_str v in
    if startswith "0x" s || startswith "0X" s then int_of_string 16 s
    else int_of_string 10 s.

(** [1e18] *)
Definition f1e18 : float := S754_finite false 7812500000000000 7.

Definition wei_to_matic (wei : option Z) : result (option float) :=
  match wei with
  | Some w =>
      match float_of_Z w with
      | Some f => Ok (Some (float_div f f1e18))
      | None => Raise (Exn OverflowError "int too large to convert to float")
      end
  | None => Ok None
  end.

Definition safe_float (x : pyval) : option float :=
  match x with
  | PNone => None
  | PStr EmptyString => None
  | _ => match py_float x with Ok f => Some f | Raise _ => None end
  end.

(** *** fetch_fee_data.py: get_tx_receipt, get_tx_data

    The two Etherscan calls answer with the [result] member of the reply or
    raise; what they answer may change from call to call.  Every call is
    written to a log next to the state of the outside world. *)

Variable World : Type.
Variable get_tx_receipt : pyval -> World -> result pyval * World.
Variable get_tx_data : pyval -> World -> result pyval * World.

Inductive fetch : Type :=
  | FetchReceipt (txhash : pyval)
  | FetchTx (txhash : pyval).

Definition env : Type := (World * list fetch)%type.

(** Computations that call out and may raise. *)
Definition M (A : Type) : Type := env -> result A * env.

Definition ret {A : Type} (a : A) : M A := fun s => (Ok a, s).

Definition raise {A : Type} (e : exn) : M A := fun s => (Raise e, s).

Definition mbind {A B : Type} (c : M A) (k : A -> M B) : M B :=
  fun s =>
    match c s with
    | (Ok a, s') => k a s'
    | (Raise e, s') => (Raise e, s')
    end.

Notation "x <~ c ;; k" := (mbind c (fun x => k))
  (at level 61, c at next level, right associativity).
Notation "' pat <~ c ;; k" := (mbind c (fun x => match x with pat => k end))
  (at level 61, pat pattern, c at next level, right associativity).

Definition lift {A : Type} (r : result A) : M A := fun s => (r, s).

(** [try: c except Exception as e: h(e)] *)
Definition try_except {A : Type} (c : M A) (h : exn -> A) : M A :=
  fun s =>
    match c s with
    | (Ok a, s') => (Ok a, s')
    | (Raise e, s') => (Ok (h e), s')
    end.

Definition call_receipt (txhash : pyval) : M pyval :=
  fun '(w, log) =>
    let '(r, w') := get_tx_receipt txhash w in
    (r, (w', log ++ [FetchReceipt txhash])).

Definition call_tx (txhash : pyval) : M pyval :=
  fun '(w, log) =>
    let '(r, w') := get_tx_data txhash w in
    (r, (w', log ++ [FetchTx txhash])).

(** *** fetch_fee_data.py: compute_fee *)

Record FeeRecord : Type := {
  gasUsed : option Z;
  effectiveGasPrice : option Z;
  gasPrice : option Z;
  feeWei : option Z;
  feeMATIC : option float;
  note : string
}.

(** [v.get]: only a dict has it. *)
Definition as_dict (v : pyval) : result pydict :=
  match v with
  | PDict d => Ok d
  | _ =>
      Raise (Exn AttributeError
        ("'" ++ type_name v ++ "' object has no attribute 'get'"))
  end.

(** Truth value of an [Optional[int]]. *)
Definition int_truthy (o : option Z) : bool :=
  match o with
  | Some z => negb (z =? 0)
  | None => false
  end.

Definition compute_fee (txhash : pyval) : M FeeRecord :=
  receipt <~ call_receipt txhash ;;
  if negb (truthy receipt) then
    ret {| gasUsed := None; effectiveGasPrice := None; gasPrice := None;
           feeWei := None; feeMATIC := None; note := "no_receipt" |}
  else
    rc <~ lift (as_dict receipt) ;;
    let gas_used := hex_to_int (get rc "gasUsed") in
    let eff_price := hex_to_int (get rc "effectiveGasPrice") in
    '(used_price, gas_price_legacy, note) <~
      match eff_price with
      | Some _ => ret (eff_price, None, "effectiveGasPrice"%string)
      | None =>
          tx <~ call_tx txhash ;;
          gas_price_legacy <~
            (if truthy tx then
               d <~ lift (as_dict tx) ;; ret (hex_to_int (get d "gasPrice"))
             else ret None) ;;
          ret (gas_price_legacy, gas_price_legacy,
               if int_truthy gas_price_legacy then "fallback_gasPrice"%string
               else "no_price_found"%string)
      end ;;
    match gas_used, used_price with
    | Some g, Some p =>
        let fee_wei := g * p in
        fee_matic <~ lift (wei_to_matic (Some fee_wei)) ;;
        ret {| gasUsed := gas_used;
               effectiveGasPrice := eff_price;
               gasPrice := match eff_price with
                           | None => gas_price_legacy
                           | Some _ => eff_price
                           end;
               feeWei := Some fee_wei;
               feeMATIC := fee_matic;
               note := note |}
    | _, _ =>
        ret {| gasUsed := gas_used; effectiveGasPrice := eff_price;
               gasPrice := gas_price_legacy; feeWei := None;
               feeMATIC := None; note := note |}
    end.

(** *** fetch_fee_data.py: main, the enrichment loop *)

(** A merge activity with the keys the loop has written over it.
    [row_maticPriceUSDC] is [None] where the loop leaves that key alone. *)
Record Row : Type := {
  row_base : pydict;
  row_feeMATIC : option float;
  row_feeUSDC : option float;
  row_netUSDC_after_fee : option float;
  row_maticPriceUSDC : option float;
  row_fee_note : string
}.

Record MainState : Type := {
  enriched : list Row;
  tx_cache : list (pyval * FeeRecord);
  total_matic : float;
  total_usdc : float;
  tx_count : Z
}.

Definition init_state : MainState :=
  {| enriched := []; tx_cache := []; total_matic := fzero;
     total_usdc := fzero; tx_count := 0 |}.

(** [m.get("transactionHash") or m.get("txHash") or m.get("transaction_hash")] *)
Definition merge_tx (m : pydict) : pyval :=
  get m "transactionHash" ||| get m "txHash" ||| get m "transaction_hash".

(** [{"feeMATIC": None, "note": f"error:{e}"}]; the keys it lacks read as
    [None] through [get]. *)
Definition error_record (e : exn) : FeeRecord :=
  {| gasUsed := None; effectiveGasPrice := None; gasPrice := None;
     feeWei := None; feeMATIC := None; note := "error:" ++ exn_msg e |}.

Definition float_val (o : option float) : pyval :=
  match o with
  | Some f => PFloat f
  | None => PNone
  end.

Definition opt_float_truthy (o : option float) : bool :=
  match o with
  | Some f => float_truthy f
  | None => false
  end.

(** The cache step: [fee = tx_cache[tx]] on a hit, else the guarded
    [compute_fee] and [tx_cache[tx] = fee]. *)
Definition fee_for (cache : list (pyval * FeeRecord)) (tx : pyval)
  : M (FeeRecord * list (pyval * FeeRecord)) :=
  if negb (hashable tx) then
    raise (Exn TypeError ("unhashable type: '" ++ type_name tx ++ "'"))
  else
    match lookup key_eqb cache tx with
    | Some fee => ret (fee, cache)
    | None =>
        fee <~ try_except (compute_fee tx) error_record ;;
        ret (fee, assign key_eqb cache tx fee)
    end.

(** One iteration of [for i, m in enumerate(merges, start=1)]. *)
Definition main_step (matic_price : float) (st : MainState) (m : pydict)
  : M MainState :=
  let tx := merge_tx m in
  if negb (truthy tx) then
    ret {| enriched := enriched st ++
             [{| row_base := m; row_feeMATIC := None; row_feeUSDC := None;
                 row_netUSDC_after_fee := None; row_maticPriceUSDC := None;
                 row_fee_note := "no_txhash" |}];
           tx_cache := tx_cache st;
           total_matic := total_matic st;
           total_usdc := total_usdc st;
           tx_count := tx_count st |}
  else
    '(fee, cache) <~ fee_for (tx_cache st) tx ;;
    let fee_matic := safe_float (float_val (feeMATIC fee)) in
    let fee_usdc :=
      match fee_matic with
      | Some f => Some (float_mul f matic_price)
      | None => None
      end in
    let usdc_size := safe_float (get m "usdcSize") in
    let net_after :=
      match usdc_size, fee_usdc with
      | Some u, Some f =>
          if float_truthy u && float_truthy f then Some (float_sub u f)
          else None
      | _, _ => None
      end in
    let row :=
      {| row_base := m; row_feeMATIC := fee_matic; row_feeUSDC := fee_usdc;
         row_netUSDC_after_fee := net_after;
         row_maticPriceUSDC := Some matic_price;
         row_fee_note := note fee |} in
    ret
      match fee_matic with
      | Some f =>
          {| enriched := enriched st ++ [row];
             tx_cache := cache;
             total_matic := float_add (total_matic st) f;
             total_usdc :=
               float_add (total_usdc st)
                 (if opt_float_truthy fee_usdc
                  then match fee_usdc with Some u => u | None => fzero end
                  else fzero);
             tx_count := tx_count st + 1 |}
      | None =>
          {| enriched := enriched st ++ [row];
             tx_cache := cache;
             total_matic := total_matic st;
             total_usdc := total_usdc st;
             tx_count := tx_count st |}
      end.

Fixpoint main_loop (matic_price : float) (merges : list pydict)
  (st : MainState) : M MainState :=
  match merges with
  | [] => ret st
  | m :: merges' =>
      st' <~ main_step matic_price st m ;;
      main_loop matic_price merges' st'
  end.

(** *** fetch_wallet_data.py, fetch_trade_data.py: filter_trades_by_windows *)

(** The inner loop, [for start_ts, end_ts in windows], which ends at the
    first window that holds [ts]. *)
Fixpoint in_some_window (ts : Z) (windows : list (Z * Z)) : bool :=
  match windows with
  | [] => false
  | (start_ts, end_ts) :: windows' =>
      if (start_ts <=? ts) && (ts <? end_ts) then true
      else in_some_window ts windows'
  end.

Fixpoint filter_trades_by_windows (trades : list pydict)
  (windows : list (Z * Z)) : list pydict :=
  match trades with
  | [] => []
  | t :: trades' =>
      match extract_ts_seconds t with
      | None => filter_trades_by_windows trades' windows
      | Some ts =>
          if in_some_window ts windows
          then t :: filter_trades_by_windows trades' windows
          else filter_trades_by_windows trades' windows
      end
  end.

(** *** fetch_wallet_data.py: mark_to_market *)

(** [math.nan] and [math.isnan] *)
Definition nan : float := S754_nan.

Definition isnan (f : float) : bool :=
  match f with
  | S754_nan => true
  | _ => false
  end.

(** A position with the two keys [mark_to_market] adds. *)
Record MarkedPosition : Type := {
  position : Position;
  current_price : float;
  mark_value : float
}.

(** [Dict[str, Dict[str, float]]] *)
Definition price_map : Type := list (string * list (string * float)).

Definition mark_row (prices : price_map) (r : Position) : MarkedPosition :=
  let mid := p_market_id r in
  let oid := p_outcome_id r in
  let cp :=
    match lookup String.eqb prices mid with
    | Some pm =>
        match lookup String.eqb pm oid with
        | Some p => p
        | None => nan
        end
    | None => nan
    end in
  let mv := if negb (isnan cp) then float_mul (p_net_shares r) cp else nan in
  {| position := r; current_price := cp; mark_value := mv |}.

Fixpoint mark_to_market (rows : list Position) (prices : price_map)
  : list MarkedPosition :=
  match rows with
  | [] => []
  | r :: rows' => mark_row prices r :: mark_to_market rows' prices
  end.

(** *** fetch_fee_data.py: fetch_merged_activity

    The activity call answers with the JSON of one page or raises; the
    offsets it was called with are kept beside the world. *)

Section Activity.

Variable get_activity : string -> Z -> Z -> World -> result pyval * World.

(** What [out.extend(data)] appends, and what [len(data)] counts. *)
Definition items (data : pyval) : result (list pyval) :=
  match data with
  | PList l => Ok l
  | PDict d => Ok (map (fun kv => PStr (fst kv)) d)
  | PStr s => Ok (map (fun c => PStr (String c "")) (list_ascii_of_string s))
  | _ =>
      Raise (Exn TypeError ("'" ++ type_name data ++ "' object is not iterable"))
  end.

(** The body of [for _ in range(max_pages)]; [pages] iterations are left. *)
Fixpoint activity_loop (user : string) (limit : Z) (pages : nat)
  (out : list pyval) (offset : Z) (w : World) (calls : list Z)
  : result (list pyval) * (World * list Z) :=
  match pages with
  | O => (Ok out, (w, calls))
  | S pages' =>
      let '(r, w') := get_activity user limit offset w in
      let calls' := calls ++ [offset] in
      match r with
      | Raise e => (Raise e, (w', calls'))
      | Ok data =>
          if negb (truthy data) then (Ok out, (w', calls'))
          else
            match items data with
            | Raise e => (Raise e, (w', calls'))
            | Ok l =>
                let out' := out ++ l in
                let offset' := offset + Z.of_nat (List.length l) in
                if Z.of_nat (List.length l) <? limit then (Ok out', (w', calls'))
                else activity_loop user limit pages' out' offset' w' calls'
            end
      end
  end.

Definition fetch_merged_activity (user : string) (limit max_pages : Z)
  (w : World) : result (list pyval) * (World * list Z) :=
  activity_loop user (Z.min limit 500) (Z.to_nat max_pages) [] 0 w [].

(** A feed that serves a fixed list in pages: the page at [offset] holds at
    most [limit] merges from that place on. *)
Definition serves (all : list pyval) (user : string) (limit : Z) : Prop :=
  forall offset w,
    get_activity user limit offset w =
      (Ok (PList (firstn (Z.to_nat limit) (skipn (Z.to_nat offset) all))), w).

End Activity.

(** *** fetch_trade_data.py: detect_wallet_keys, to_float *)

(** [k in t] *)
Fixpoint has_key (t : pydict) (k : string) : bool :=
  match t with
  | [] => false
  | (k', _) :: t' => (k' =? k)%string || has_key t' k
  end.

Definition wallet_key_names : list string :=
  ["proxyWallet"; "wallet"; "user"; "account"; "trader"; "userAddress";
   "traderAddress"; "address"; "owner"; "pseudonym"]%string.

(** The pair [(single_key, dual_mode)]. *)
Definition detect_wallet_keys (trade : pydict) : option string * option string :=
  if has_key trade "maker" && has_key trade "taker"
  then (None, Some "maker_taker"%string)
  else
    match find (has_key trade) wallet_key_names with
    | Some k => (Some k, None)
    | None => (None, None)
    end.

Definition to_float (x : pyval) (default : float) : float :=
  match py_float x with
  | Ok f => f
  | Raise _ => default
  end.

(** *** fetch_trade_data.py: add_agg *)

(** The statistics of one wallet, the value the [defaultdict] holds. *)
Record WalletStats : Type := {
  a_trades : Z;
  a_trades_maker : Z;
  a_trades_taker : Z;
  a_gross_size : float;
  a_gross_notional : float;
  a_gross_notional_maker : float;
  a_gross_notional_taker : float;
  a_buy_count : Z;
  a_buy_notional : float;
  a_sell_count : Z;
  a_sell_notional : float
}.

(** What the [defaultdict] makes for a wallet it does not hold. *)
Definition zero_stats : WalletStats :=
  {| a_trades := 0; a_trades_maker := 0; a_trades_taker := 0;
     a_gross_size := fzero; a_gross_notional := fzero;
     a_gross_notional_maker := fzero; a_gross_notional_taker := fzero;
     a_buy_count := 0; a_buy_notional := fzero;
     a_sell_count := 0; a_sell_notional := fzero |}.

Definition wallet_agg : Type := list (pyval * WalletStats).

(** [sub in s] *)
Fixpoint contains (sub s : string) : bool :=
  String.prefix sub s ||
  match s with
  | EmptyString => false
  | String _ s' => contains sub s'
  end.

(** [role == name] for a role that is [None] or a string. *)
Definition role_is (role : option string) (name : string) : bool :=
  match role with
  | Some r => (r =? name)%string
  | None => false
  end.

Definition add_agg (agg : wallet_agg) (wallet : pyval) (role : option string)
  (size price : float) (side : pyval) : result wallet_agg :=
  let notional := float_mul size price in
  if negb (hashable wallet) then
    Raise (Exn TypeError ("unhashable type: '" ++ type_name wallet ++ "'"))
  else
    let a :=
      match lookup key_eqb agg wallet with
      | Some a => a
      | None => zero_stats
      end in
    let maker := role_is role "maker" in
    let taker := negb maker && role_is role "taker" in
    let s := py_lower (py_str side) in
    let buy := truthy side && (contains "buy" s || (s =? "yes")%string) in
    let sell :=
      truthy side && negb buy && (contains "sell" s || (s =? "no")%string) in
    Ok (assign key_eqb agg wallet
          {| a_trades := a_trades a + 1;
             a_trades_maker :=
               if maker then a_trades_maker a + 1 else a_trades_maker a;
             a_trades_taker :=
               if taker then a_trades_taker a + 1 else a_trades_taker a;
             a_gross_size := float_add (a_gross_size a) size;
             a_gross_notional := float_add (a_gross_notional a) notional;
             a_gross_notional_maker :=
               if maker then float_add (a_gross_notional_maker a) notional
               else a_gross_notional_maker a;
             a_gross_notional_taker :=
               if taker then float_add (a_gross_notional_taker a) notional
               else a_gross_notional_taker a;
             a_buy_count := if buy then a_buy_count a + 1 else a_buy_count a;
             a_buy_notional :=
               if buy then float_add (a_buy_notional a) notional
               else a_buy_notional a;
             a_sell_count :=
               if sell then a_sell_count a + 1 else a_sell_count a;
             a_sell_notional :=
               if sell then float_add (a_sell_notional a) notional
               else a_sell_notional a |}).

(** *** fetch_trade_data.py: aggregate_wallets *)

(** The first loop: the keys of the first trade that has any. *)
Fixpoint detect_first (trades : list pydict) : option string * option string :=
  match trades with
  | [] => (None, None)
  | t :: trades' =>
      let '(single_key, dual_mode) := detect_wallet_keys t in
      if present single_key || present dual_mode then (single_key, dual_mode)
      else detect_first trades'
  end.

(** [v is True] *)
Definition is_True (v : pyval) : bool :=
  match v with
  | PBool true => true
  | _ => false
  end.

(** The role of a trade that names one wallet: from [liquidityRole] or
    [role] when it is a string, else from the flags. *)
Definition single_role (t : pydict) : option string :=
  let lr := get t "liquidityRole" ||| get t "role" in
  let role :=
    match lr with
    | PStr s =>
        let lr := py_lower s in
        if contains "maker" lr then Some "maker"%string
        else if contains "taker" lr then Some "taker"%string
        else None
    | _ => None
    end in
  match role with
  | Some r => Some r
  | None =>
      if is_True (get t "taker") || is_True (get t "isTaker")
      then Some "taker"%string
      else if is_True (get t "maker") || is_True (get t "isMaker")
      then Some "maker"%string
      else None
  end.

Definition fallback_key_names : list string :=
  ["wallet"; "user"; "account"; "trader"; "address"; "owner"]%string.

(** One iteration of the second [for t in trades]. *)
Definition wallets_step (single_key : option string) (agg : wallet_agg)
  (t : pydict) : result wallet_agg :=
  let size := to_float (get t "size") fzero in
  let price := to_float (get t "price") fzero in
  let side := get t "side" ||| get t "outcome" ||| get t "type" in
  if has_key t "maker" && has_key t "taker" then
    let mk := get t "maker" in
    let tk := get t "taker" in
    agg <- (if truthy mk
            then add_agg agg mk (Some "maker"%string) size price side
            else Ok agg) ;;
    if truthy tk then add_agg agg tk (Some "taker"%string) size price side
    else Ok agg
  else if present single_key &&
          match single_key with
          | Some k => has_key t k
          | None => false
          end then
    let w := match single_key with Some k => get t k | None => PNone end in
    if negb (truthy w) then Ok agg
    else add_agg agg w (single_role t) size price side
  else
    match find (fun k => has_key t k && truthy (get t k)) fallback_key_names
    with
    | Some k => add_agg agg (get t k) None size price side
    | None => Ok agg
    end.

Fixpoint wallets_loop (single_key : option string) (trades : list pydict)
  (agg : wallet_agg) : result wallet_agg :=
  match trades with
  | [] => Ok agg
  | t :: trades' =>
      agg' <- wallets_step single_key agg t ;;
      wallets_loop single_key trades' agg'
  end.

Definition aggregate_wallets (trades : list pydict) : result wallet_agg :=
  let '(single_key, _) := detect_first trades in
  wallets_loop single_key trades [].

(** *** fetch_wallet_data.py, fetch_trade_data.py: get_trades_pages

    The query of one request: a key of [params] that is not set is [None].
    The function of [fetch_trade_data.py] is the same without
    [user_wallet], and words its [ValueError] differently. *)

Record TradeParams : Type := {
  q_limit : Z;
  q_market : option string;
  q_eventId : option string;
  q_user : option string;
  q_takerOnly : bool;
  q_makerOnly : option bool;
  q_cursor : option pyval;
  q_offset : option Z
}.

(** The [params] of an iteration. *)
Definition trade_params (cond_id event_id : option string) (limit : Z)
  (role : string) (user_wallet : option string) (cursor : pyval) (offset : Z)
  : TradeParams :=
  {| q_limit := limit;
     q_market := if present cond_id then cond_id else None;
     q_eventId :=
       if present cond_id then None
       else if present event_id then event_id else None;
     q_user :=
       match user_wallet with
       | Some u => if present user_wallet then Some (py_lower u) else None
       | None => None
       end;
     q_takerOnly := (role =? "taker")%string;
     q_makerOnly :=
       if (role =? "taker")%string then None
       else if (role =? "maker")%string then Some true else None;
     q_cursor := if is_none cursor then None else Some cursor;
     q_offset := if is_none cursor then Some offset else None |}.

Section Trades.

(** The request, the check of its status and the decoding of its body: it
    answers with the JSON of a page or raises. *)
Variable get_trades : TradeParams -> World -> result pyval * World.

(** The [while True] loop; [fuel] bounds its iterations and [None] is the
    answer of a loop that was given too little. *)
Fixpoint trades_loop (fuel : nat) (params_of : pyval -> Z -> TradeParams)
  (limit max_pages : Z) (rows : list pyval) (cursor : pyval)
  (offset pages : Z) (w : World) (calls : list TradeParams)
  : option (result (list pyval) * (World * list TradeParams)) :=
  match fuel with
  | O => None
  | S fuel' =>
      let params := params_of cursor offset in
      let '(r, w') := get_trades params w in
      let calls' := calls ++ [params] in
      match r with
      | Raise e => Some (Raise e, (w', calls'))
      | Ok (PDict d) =>
          let batch := get d "results" ||| get d "data" ||| PList [] in
          if negb (truthy batch) then Some (Ok rows, (w', calls'))
          else
            match items batch with
            | Raise e => Some (Raise e, (w', calls'))
            | Ok l =>
                let rows' := rows ++ l in
                let cursor' :=
                  get d "nextCursor" ||| get d "next" ||| get d "cursor" in
                let pages' := pages + 1 in
                if negb (truthy cursor') then Some (Ok rows', (w', calls'))
                else if max_pages <=? pages' then Some (Ok rows', (w', calls'))
                else
                  trades_loop fuel' params_of limit max_pages rows' cursor'
                    offset pages' w' calls'
            end
      | Ok (PList l) =>
          match l with
          | [] => Some (Ok rows, (w', calls'))
          | _ :: _ =>
              let rows' := rows ++ l in
              let pages' := pages + 1 in
              if Z.of_nat (List.length l) <? limit
              then Some (Ok rows', (w', calls'))
              else
                let offset' := offset + limit in
                if max_pages <=? pages' then Some (Ok rows', (w', calls'))
                else
                  trades_loop fuel' params_of limit max_pages rows' cursor
                    offset' pages' w' calls'
          end
      | Ok _ => Some (Ok rows, (w', calls'))
      end
  end.

(** The loop goes round again only while [pages < max_pages]. *)
Definition trades_fuel (max_pages : Z) : nat := Z.to_nat (Z.max max_pages 1).

Definition get_trades_pages (cond_id event_id : option string) (limit : Z)
  (role : string) (max_pages : Z) (user_wallet : option string) (w : World)
  : option (result (list pyval) * (World * list TradeParams)) :=
  if present cond_id && present event_id then
    Some (Raise (Exn ValueError "use ether cond_id or event_id, not both"),
          (w, []))
  else
    trades_loop (trades_fuel max_pages)
      (trade_params cond_id event_id limit role user_wallet)
      limit max_pages [] PNone 0 0 w [].

(** A service that serves a fixed list of trades by offset. *)
Definition serves_trades (all : list pyval) : Prop :=
  forall q offset w,
    q_offset q = Some offset ->
    get_trades q w =
      (Ok (PList (firstn (Z.to_nat (q_limit q))
                    (skipn (Z.to_nat offset) all))), w).

End Trades.

(** ** What the statements are written with *)

(** The keys [market_id] is read from, in the order of the [or] chain. *)
Definition market_keys : list string :=
  ["conditionId"; "market"; "marketId"; "market_id"; "eventId"]%string.

(** The priority rule as the specification words it: the first value that is
    not [None] wins. *)
Fixpoint first_non_null (vs : list pyval) : pyval :=
  match vs with
  | [] => PNone
  | v :: vs' => if is_none v then first_non_null vs' else v
  end.

(** The buyer/seller rule as the specification words it: a rule that closes
    with 0 when the wallet is neither the buyer nor the seller. *)
Definition buyer_seller_closed (n : NormalizedTrade) (wallet : string) : float :=
  match size n with
  | None => fzero
  | Some sz =>
      if is_wallet (py_lower wallet) (buyer n) then sz
      else if is_wallet (py_lower wallet) (seller n) then float_neg sz
      else fzero
  end.

(** A normalized trade with its [buyer] and [seller] taken away. *)
Definition without_buyer_seller (n : NormalizedTrade) : NormalizedTrade :=
  {| market_id := market_id n;
     market_title := market_title n;
     outcome_id := outcome_id n;
     outcome_label := outcome_label n;
     price := price n;
     size := size n;
     ts := ts n;
     user := user n;
     maker := maker n;
     taker := taker n;
     buyer := None;
     seller := None;
     side := side n;
     raw := raw n |}.

(** Every bucket of a map has been filled at least once. *)
Definition all_filled (bucket : buckets) : Prop :=
  Forall (fun kb => 1 <= fills (snd kb)) bucket.

(** The double nearest to the decimal fraction [n/d]: the division of two
    exact doubles is correctly rounded, so [decimal 4 10] is the literal
    [0.4]. *)
Definition decimal (n d : Z) : float :=
  float_div (binary_normalize prec emax n 0 false)
            (binary_normalize prec emax d 0 false).

Definition f0_4 : float := Eval vm_compute in decimal 4 10.
Definition f0_5 : float := Eval vm_compute in decimal 5 10.
Definition f0_45 : float := Eval vm_compute in decimal 45 100.
Definition f3 : float := Eval vm_compute in decimal 3 1.
Definition f4 : float := Eval vm_compute in decimal 4 1.
Definition f6 : float := Eval vm_compute in decimal 6 1.
Definition f10 : float := Eval vm_compute in decimal 10 1.

(** The UTC second count of the local midnight that starts day [c]. *)
Definition stamp (c : Z) : Z := c * 86400 - utcoffset c - 719163 * 86400.

(** The interval of local day [c]. *)
Definition day_interval (c : Z) : Z * Z := (stamp c, stamp (c + 1)).

(** The days [c], [c+1], ..., [c+k-1]. *)
Fixpoint days_from (c : Z) (k : nat) : list Z :=
  match k with
  | O => []
  | S k' => c :: days_from (c + 1) k'
  end.

(** [end[i] == start[i+1]] along a list of intervals. *)
Fixpoint contiguous (l : list (Z * Z)) : Prop :=
  match l with
  | a :: ((b :: _) as l') => snd a = fst b /\ contiguous l'
  | _ => True
  end.

(** The local midnight of day [c] is a [datetime] in UTC too. *)
Definition in_utc_range (c : Z) : Prop :=
  86400 <= c * 86400 - utcoffset c < (MAXORD + 1) * 86400.

(** The hashes the receipt, and the transaction, were asked for, in the
    order of the calls. *)
Fixpoint receipts (log : list fetch) : list pyval :=
  match log with
  | [] => []
  | FetchReceipt tx :: log' => tx :: receipts log'
  | FetchTx _ :: log' => receipts log'
  end.

Fixpoint tx_fetches (log : list fetch) : list pyval :=
  match log with
  | [] => []
  | FetchReceipt _ :: log' => tx_fetches log'
  | FetchTx tx :: log' => tx :: tx_fetches log'
  end.

(** No two entries of a list of hashes are the same key. *)
Definition fetched_once (l : list pyval) : Prop :=
  ForallOrdPairs (fun a b => key_eqb a b = false) l.

(** The truth value of a key, read off its normal form. *)
Definition hkey_truthy (h : hkey) : bool :=
  match h with
  | HNone => false
  | HStr s => negb (s =? "")%string
  | HNum m _ => negb (m =? 0)
  | HInf _ => true
  end.

(** The hash of a row. *)
Definition row_tx (r : Row) : pyval := merge_tx (row_base r).

(** Every row with a hash has its fee columns from the cache entry of that
    hash. *)
Definition cache_backs_rows (matic_price : float) (st : MainState) : Prop :=
  forall r,
    In r (enriched st) ->
    truthy (row_tx r) = true ->
    key_eqb (row_tx r) (row_tx r) = true ->
    exists fee,
      lookup key_eqb (tx_cache st) (row_tx r) = Some fee /\
      row_fee_note r = note fee /\
      row_feeMATIC r = feeMATIC fee /\
      row_feeUSDC r =
        match feeMATIC fee with
        | Some f => Some (float_mul f matic_price)
        | None => None
        end.

(** Every hash that was fetched has an entry in the cache. *)
Definition log_in_cache (cache : list (pyval * FeeRecord)) (log : list fetch)
  : Prop :=
  forall t k,
    In t (receipts log ++ tx_fetches log) ->
    key_eqb t k = true ->
    lookup key_eqb cache k <> None.

(** What the loop keeps true from one merge to the next. *)
Definition loop_invariant (matic_price : float) (st : MainState)
  (log : list fetch) : Prop :=
  cache_backs_rows matic_price st /\
  log_in_cache (tx_cache st) log /\
  fetched_once (receipts log) /\
  fetched_once (tx_fetches log).

(** The fee columns of a row: what the loop attaches to a merge beside the
    net amount, which depends on the merge's own [usdcSize]. *)
Definition fee_columns (r : Row) : option float * option float * string :=
  (row_feeMATIC r, row_feeUSDC r, row_fee_note r).

(** ** Inputs the statements are instantiated at

    Stand-ins for the parameters: a [repr] that prints every float alike, a
    [float] that refuses every string, the winter offset of Amsterdam, and
    an Etherscan that answers from a fixed table. *)

Definition repr_const : float -> string := fun _ => "0.0"%string.
Definition container_const : pyval -> string := fun _ => "[...]"%string.
Definition no_float_of_string : string -> result float :=
  fun _ => Raise (Exn ValueError "could not convert string to float").
Definition cet : Z -> Z := fun _ => 3600.

(** The two trades of the end-to-end scenario. *)
Definition trade1 : pydict :=
  [("market", PStr "M1"); ("outcomeId", PStr "O1"); ("user", PStr "0xw");
   ("side", PStr "buy"); ("size", PInt 10); ("price", PFloat f0_4)]%string.

Definition trade2 : pydict :=
  [("market", PStr "M1"); ("outcomeId", PStr "O1"); ("user", PStr "0xw");
   ("side", PStr "sell"); ("size", PInt 4); ("price", PFloat f0_5)]%string.

(** A sale by the account ["0xa"], which is the taker of the trade as well. *)
Definition trade_proxy : pydict :=
  [("market", PStr "M1"); ("outcomeId", PStr "O1"); ("user", PStr "0xa");
   ("side", PStr "sell"); ("maker", PStr "0xb"); ("taker", PStr "0xa");
   ("size", PInt 3)]%string.

(** A purchase taken by ["0xw"], who is neither its buyer nor its seller. *)
Definition trade_taker : pydict :=
  [("market", PStr "M1"); ("outcomeId", PStr "O1"); ("buyer", PStr "0xb");
   ("seller", PStr "0xc"); ("maker", PStr "0xm"); ("taker", PStr "0xw");
   ("side", PStr "buy"); ("size", PInt 3)]%string.

(** A record whose [conditionId] is the empty string. *)
Definition trade_empty_condition : pydict :=
  [("conditionId", PStr ""); ("market", PStr "M1")]%string.

(** A record carrying both [market] and [marketId]. *)
Definition trade_two_markets : pydict :=
  [("marketId", PStr "M2"); ("market", PStr "M1")]%string.

(** Three merges, the first and the last of one transaction. *)
Definition three_merges : list pydict :=
  [[("transactionHash", PStr "0xabc"); ("usdcSize", PInt 2)];
   [("transactionHash", PStr "0xdef"); ("usdcSize", PInt 3)];
   [("transactionHash", PStr "0xabc"); ("usdcSize", PInt 4)]]%string.

(** A receipt without an effective gas price, and the transactions behind
    it, by their gas price. *)
Definition receipt_legacy : pyval :=
  PDict [("gasUsed", PStr "0x5208"); ("effectiveGasPrice", PNone)]%string.

Definition tx_priced (gas_price : string) : pyval :=
  PDict [("gasPrice", PStr gas_price)]%string.

Definition timed_out : exn := Exn TransportError "timed out".

(** An Etherscan that has the receipt above for every hash, and whose
    transaction call answers with the price the world holds, or times out
    when it holds none. *)
Definition receipt_always
  : pyval -> option string -> result pyval * option string :=
  fun _ w => (Ok receipt_legacy, w).

Definition tx_from_world
  : pyval -> option string -> result pyval * option string :=
  fun _ w =>
    match w with
    | Some p => (Ok (tx_priced p), w)
    | None => (Raise timed_out, w)
    end.

(** An Etherscan whose receipt call times out. *)
Definition receipt_down
  : pyval -> option string -> result pyval * option string :=
  fun _ w => (Raise timed_out, w).

Definition merge_of (tx : string) : pydict :=
  [("transactionHash", PStr tx); ("usdcSize", PInt 2)]%string.

(** ** What the statements about the rest of the code are written with *)

(** A trade has a timestamp, and some window holds it. *)
Definition kept_by (windows : list (Z * Z)) (t : pydict) : bool :=
  match extract_ts_seconds t with
  | Some ts => existsb (fun w => (fst w <=? ts) && (ts <? snd w)) windows
  | None => false
  end.

(** A trade has a timestamp in [lo, hi). *)
Definition between (lo hi : Z) (t : pydict) : bool :=
  match extract_ts_seconds t with
  | Some ts => (lo <=? ts) && (ts <? hi)
  | None => false
  end.

(** No interval of a list ends before it starts. *)
Definition well_formed (l : list (Z * Z)) : Prop :=
  Forall (fun w => fst w <= snd w) l.

(** A trade the aggregator counts for a wallet: it normalizes, names a
    market and an outcome, and moves the wallet's position. *)
Definition counted (wallet : string) (t : pydict) : bool :=
  match normalize_trade_record t with
  | Ok n =>
      truthy (market_id n) && truthy (outcome_id n) &&
      negb (float_eqb (signed_quantity_for_wallet n wallet) fzero)
  | Raise _ => false
  end.

(** The market and outcome a position is of. *)
Definition position_key (p : Position) : string * string :=
  (p_market_id p, p_outcome_id p).

Definition sum_Z (l : list Z) : Z := fold_right Z.add 0 l.

(** The fills of all the buckets of a map together. *)
Definition total_fills (bucket : buckets) : Z :=
  sum_Z (map (fun kb => fills (snd kb)) bucket).

(** Every bucket sits under the key made of its own market and outcome. *)
Definition keys_agree (bucket : buckets) : Prop :=
  Forall (fun kb => fst kb = (b_market_id (snd kb), b_outcome_id (snd kb)))
    bucket.

(** The text of an address field is in lower case. *)
Definition lowercase (o : option string) : Prop :=
  match o with
  | Some s => py_lower s = s
  | None => True
  end.

(** A row of the fee report carries a fee. *)
Definition has_fee (r : Row) : bool :=
  match row_feeMATIC r with
  | Some _ => true
  | None => false
  end.

(** What a row adds to the two totals of the summary. *)
Definition add_fee (acc : float) (r : Row) : float :=
  match row_feeMATIC r with
  | Some f => float_add acc f
  | None => acc
  end.

Definition add_fee_usdc (acc : float) (r : Row) : float :=
  match row_feeMATIC r, row_feeUSDC r with
  | Some _, Some u => float_add acc (if float_truthy u then u else fzero)
  | Some _, None => float_add acc fzero
  | None, _ => acc
  end.


(** Each number of a list is larger than the one before it. *)
Fixpoint increasing (l : list Z) : Prop :=
  match l with
  | a :: ((b :: _) as l') => a < b /\ increasing l'
  | _ => True
  end.

(** ** More inputs *)

(** A trade with a timestamp in front of its fields. *)
Definition stamped (ts : Z) (t : pydict) : pydict :=
  ("timestamp"%string, PInt ts) :: t.

(** Three trades around 15 and 16 October 2025: one at the first midnight,
    one inside the second day and stamped in milliseconds, one at the last
    midnight. *)
Definition dated_trades : list pydict :=
  [stamped 1760482800 trade1; stamped 1760569200123 trade2;
   stamped 1760655600 trade1].

(** A purchase with a maker and a taker and nothing else to tell them by. *)
Definition trade_maker_taker : pydict :=
  [("market", PStr "M1"); ("outcomeId", PStr "O1"); ("maker", PStr "0xM");
   ("taker", PStr "0xT"); ("side", PStr "BUY"); ("size", PInt 3)]%string.

(** A record whose price is a JSON array. *)
Definition trade_bad_price : pydict :=
  [("market", PStr "M1"); ("outcomeId", PStr "O1"); ("user", PStr "0xw");
   ("side", PStr "buy"); ("size", PInt 1); ("price", PList [])]%string.

(** An Etherscan that answers every receipt call with a refusal in text. *)
Definition receipt_refused
  : pyval -> option string -> result pyval * option string :=
  fun _ w => (Ok (PStr "Max rate limit reached"), w).

(** A feed that serves a list in pages. *)
Definition paged_feed (all : list pyval)
  : string -> Z -> Z -> unit -> result pyval * unit :=
  fun _ limit offset w =>
    (Ok (PList (firstn (Z.to_nat limit) (skipn (Z.to_nat offset) all))), w).

Definition three_activities : list pyval := map PDict three_merges.

(** ** The statistics of the wallets *)

(** The counters of a wallet add up: it has a trade, and neither its roles
    nor its sides count more trades than it has. *)
Definition consistent (a : WalletStats) : Prop :=
  1 <= a_trades a /\
  0 <= a_trades_maker a /\ 0 <= a_trades_taker a /\
  a_trades_maker a + a_trades_taker a <= a_trades a /\
  0 <= a_buy_count a /\ 0 <= a_sell_count a /\
  a_buy_count a + a_sell_count a <= a_trades a.

(** A counter summed over all the wallets. *)
Definition total_of (f : WalletStats -> Z) (agg : wallet_agg) : Z :=
  sum_Z (map (fun kv => f (snd kv)) agg).

(** A trade that names a maker and a taker, both truthy. *)
Definition two_sided (t : pydict) : bool :=
  has_key t "maker" && has_key t "taker" &&
  truthy (get t "maker") && truthy (get t "taker").

(** A wallet of the statistics is a truthy value some trade holds under some
    key, as the trade holds it. *)
Definition from_trades (trades : list pydict) (wallet : pyval) : Prop :=
  truthy wallet = true /\
  exists t k, In t trades /\ has_key t k = true /\ get t k = wallet.

(** Two trades between the same two wallets, the second the other way
    round. *)
Definition two_sided_trades : list pydict :=
  [trade_maker_taker;
   [("maker", PStr "0xT"); ("taker", PStr "0xM"); ("side", PStr "sell");
    ("size", PInt 2); ("price", PFloat f0_5)]]%string.

(** A service that serves a list of trades by offset. *)
Definition paged_trades (all : list pyval)
  : TradeParams -> unit -> result pyval * unit :=
  fun q w =>
    match q_offset q with
    | Some offset =>
        (Ok (PList (firstn (Z.to_nat (q_limit q))
                      (skipn (Z.to_nat offset) all))), w)
    | None => (Ok (PList []), w)
    end.

(** The first and the last character of a string. *)
Definition first_char (s : string) : option ascii :=
  match s with
  | String c _ => Some c
  | EmptyString => None
  end.

Fixpoint last_char (s : string) : option ascii :=
  match s with
  | EmptyString => None
  | String c s' =>
      match last_char s' with
      | Some c' => Some c'
      | None => Some c
      end
  end.

(** * Properties *)

(** ** Dictionaries *)

Section AssocDictFacts.
Context {K V : Type} (keq : K -> K -> bool).

Lemma assign_fresh (d : list (K * V)) (k : K) (v : V) :
  lookup keq d k = None -> assign keq d k v = d ++ [(k, v)].
Proof.
  induction d as [|[k' v'] d IH]; cbn; [reflexivity|].
  destruct (keq k' k); [discriminate|].
  intros H. now rewrite IH.
Qed.

Lemma lookup_app (d d' : list (K * V)) (k : K) :
  lookup keq (d ++ d') k =
    match lookup keq d k with
    | Some v => Some v
    | None => lookup keq d' k
    end.
Proof.
  induction d as [|[k' v'] d IH]; cbn; [reflexivity|].
  now destruct (keq k' k).
Qed.

Lemma lookup_In (d : list (K * V)) (k : K) (v : V) :
  lookup keq d k = Some v -> exists k', In (k', v) d /\ keq k' k = true.
Proof.
  induction d as [|[k' v'] d IH]; cbn; [discriminate|].
  destruct (keq k' k) eqn:E.
  - intros [= ->]. exists k'. auto.
  - intros H. destruct (IH H) as [k'' [Hin Hk]]. exists k''. auto.
Qed.

Lemma assign_Forall (P : V -> Prop) (d : list (K * V)) (k : K) (v : V) :
  Forall (fun kv => P (snd kv)) d -> P v ->
  Forall (fun kv => P (snd kv)) (assign keq d k v).
Proof.
  intros Hd Hv. induction Hd as [|[k' v'] d Hx Hd IH]; cbn.
  - constructor; [exact Hv | constructor].
  - destruct (keq k' k); constructor; assumption.
Qed.

End AssocDictFacts.

(** ** Truth values *)

Lemma py_or_truthy (a b : pyval) : truthy a = true -> a ||| b = a.
Proof. unfold py_or. now intros ->. Qed.

Lemma py_or_falsy (a b : pyval) : truthy a = false -> a ||| b = b.
Proof. unfold py_or. now intros ->. Qed.

(** ** The wallet role resolver *)

(** C2. Proxy-wallet precedence: when the [user] of a normalized trade is
    present and its size is not zero, the resolver answers [+size] if the
    lowercased wallet is the user and the side is "buy" or "yes", [-size] if
    it is the user and the side is "sell" or "no", and [0.0] in every other
    case; buyer, seller, maker and taker play no part. *)
Theorem proxy_wallet_precedence (n : NormalizedTrade) (wallet : string)
  (sz : float) :
  present (user n) = true ->
  size n = Some sz ->
  float_truthy sz = true ->
  signed_quantity_for_wallet n wallet =
    if is_wallet (py_lower wallet) (user n) then
      if side_in (side n) "buy" "yes" then sz
      else if side_in (side n) "sell" "no" then float_neg sz
      else fzero
    else fzero.
Proof.
  intros Hu Hs Hz. unfold signed_quantity_for_wallet, or_else.
  rewrite Hs, Hz, Hu. cbn [negb].
  destruct (is_wallet (py_lower wallet) (user n)); [|reflexivity].
  destruct (side_in (side n) "buy" "yes"); [reflexivity|].
  destruct (side_in (side n) "sell" "no"); reflexivity.
Qed.

(** C3, as amended. Without a [user] and with a size that is not zero, a
    trade that names a buyer or a seller gives [+size] to the buyer and
    [-size] to the seller; for any other wallet the resolver goes on to the
    maker/taker rule and answers what it answers for the same trade without
    its buyer and seller. *)
Theorem buyer_seller_then_maker_taker (n : NormalizedTrade) (wallet : string)
  (sz : float) :
  present (user n) = false ->
  size n = Some sz ->
  float_truthy sz = true ->
  present (buyer n) || present (seller n) = true ->
  signed_quantity_for_wallet n wallet =
    if is_wallet (py_lower wallet) (buyer n) then sz
    else if is_wallet (py_lower wallet) (seller n) then float_neg sz
    else signed_quantity_for_wallet (without_buyer_seller n) wallet.
Proof.
  intros Hu Hs Hz Hbs. unfold signed_quantity_for_wallet, or_else.
  cbn [without_buyer_seller size user buyer seller maker taker side present].
  rewrite Hs, Hz, Hu, Hbs. cbn [negb orb].
  destruct (is_wallet (py_lower wallet) (buyer n)); [reflexivity|].
  destruct (is_wallet (py_lower wallet) (seller n)); reflexivity.
Qed.

(** ** The normalizer *)

Lemma normalize_fields (t : pydict) (n : NormalizedTrade) :
  normalize_trade_record t = Ok n ->
  market_id n =
    (get t "conditionId" ||| get t "market" ||| get t "marketId"
       ||| get t "market_id" ||| get t "eventId") /\
  user n = lower_or_none (get t "proxyWallet" ||| get t "wallet" ||| get t "user") /\
  maker n = lower_or_none (get t "maker" ||| get t "makerAddress") /\
  taker n = lower_or_none (get t "taker" ||| get t "takerAddress") /\
  buyer n = lower_or_none (get t "buyer") /\
  seller n = lower_or_none (get t "seller") /\
  raw n = t.
Proof.
  unfold normalize_trade_record, bind.
  destruct (float_or_none (get t "price")); [|discriminate].
  destruct (float_or_none _); [|discriminate].
  intros [= <-]. cbn. repeat split; reflexivity.
Qed.

(** C8, as amended. The [market_id] of a normalized record is the first
    truthy value among the keys conditionId, market, marketId, market_id and
    eventId, in that order; when none of them is truthy it is whatever
    eventId holds, [None] when the key is missing. *)
Theorem market_id_first_truthy (t : pydict) (n : NormalizedTrade) :
  normalize_trade_record t = Ok n ->
  market_id n =
    match find truthy (map (get t) market_keys) with
    | Some v => v
    | None => get t "eventId"
    end.
Proof.
  intros H. apply normalize_fields in H as [-> _].
  unfold market_keys. cbn [map find].
  destruct (truthy (get t "conditionId")) eqn:E1.
  { now rewrite !(py_or_truthy (get t "conditionId") _ E1). }
  rewrite (py_or_falsy _ _ E1).
  destruct (truthy (get t "market")) eqn:E2.
  { now rewrite !(py_or_truthy (get t "market") _ E2). }
  rewrite (py_or_falsy _ _ E2).
  destruct (truthy (get t "marketId")) eqn:E3.
  { now rewrite !(py_or_truthy (get t "marketId") _ E3). }
  rewrite (py_or_falsy _ _ E3).
  destruct (truthy (get t "market_id")) eqn:E4.
  { now rewrite !(py_or_truthy (get t "market_id") _ E4). }
  rewrite (py_or_falsy _ _ E4).
  destruct (truthy (get t "eventId")); reflexivity.
Qed.

(** ** The aggregator *)

(** C4. Zero-delta exclusion: folding a trade for which the resolver answers
    a zero leaves the bucket map as it was, whatever the map holds. *)
Theorem zero_delta_exclusion (wallet : string) (bucket : buckets) (t : pydict)
  (n : NormalizedTrade) :
  normalize_trade_record t = Ok n ->
  float_eqb (signed_quantity_for_wallet n wallet) fzero = true ->
  aggregate_step wallet bucket t = Ok bucket.
Proof.
  intros Hn Hz. unfold aggregate_step, bind. rewrite Hn.
  destruct (negb (truthy (market_id n)) || negb (truthy (outcome_id n)));
    [reflexivity|].
  now rewrite Hz.
Qed.

Lemma aggregate_step_filled (wallet : string) (bucket bucket' : buckets)
  (t : pydict) :
  all_filled bucket ->
  aggregate_step wallet bucket t = Ok bucket' ->
  all_filled bucket'.
Proof.
  unfold aggregate_step, bind. intros Hb.
  destruct (normalize_trade_record t) as [n|e]; [|discriminate].
  destruct (negb (truthy (market_id n)) || negb (truthy (outcome_id n)));
    [now intros [= <-]|].
  destruct (float_eqb (signed_quantity_for_wallet n wallet) fzero);
    [now intros [= <-]|].
  intros [= <-].
  apply (assign_Forall bucket_key_eqb (fun b => 1 <= fills b)); [exact Hb|].
  cbn [fills].
  destruct (lookup bucket_key_eqb bucket _) as [b|] eqn:Hl.
  - apply lookup_In in Hl as [k' [Hin _]].
    unfold all_filled in Hb. rewrite Forall_forall in Hb.
    specialize (Hb _ Hin). cbn in Hb. lia.
  - cbn. lia.
Qed.

Lemma aggregate_loop_filled (wallet : string) (trades : list pydict) :
  forall bucket bucket',
    all_filled bucket ->
    aggregate_loop wallet trades bucket = Ok bucket' ->
    all_filled bucket'.
Proof.
  induction trades as [|t trades IH]; cbn [aggregate_loop]; intros b b' Hb.
  - now intros [= <-].
  - unfold bind. destruct (aggregate_step wallet b t) as [b1|e] eqn:E;
      [|discriminate].
    apply IH. exact (aggregate_step_filled wallet b b1 t Hb E).
Qed.

Lemma finalize_all_fills (items : buckets) :
  forall out,
    finalize_all items = Ok out ->
    map p_fills out = map (fun kb => fills (snd kb)) items.
Proof.
  induction items as [|[k rec] items IH]; cbn [finalize_all]; intros out.
  - now intros [= <-].
  - unfold bind, finalize.
    destruct (float_of_Z (Z.max (fills rec) 1)); [|discriminate].
    destruct (finalize_all items) as [out'|e]; [|discriminate].
    intros [= <-]. cbn. f_equal. now apply IH.
Qed.

(** C10. Every bucket the aggregator returns has been filled at least once,
    so the divisor [max(fills, 1)] of the mean is [fills] itself: the guard
    is never the one that is taken, and the divisor is never zero. *)
Theorem fills_at_least_one (trades : list pydict) (wallet : string)
  (out : list Position) :
  aggregate_delta_for_wallet trades wallet = Ok out ->
  Forall (fun p => 1 <= p_fills p /\ Z.max (p_fills p) 1 = p_fills p) out.
Proof.
  unfold aggregate_delta_for_wallet, bind.
  destruct (aggregate_loop wallet trades []) as [bucket|e] eqn:E;
    [|discriminate].
  intros Hf.
  assert (Hb : all_filled bucket)
    by (apply (aggregate_loop_filled wallet trades [] bucket);
        [constructor | exact E]).
  apply finalize_all_fills in Hf.
  assert (Hm : Forall (fun z => 1 <= z) (map p_fills out)).
  { rewrite Hf. unfold all_filled in Hb.
    rewrite Forall_forall in *. intros z Hz.
    apply in_map_iff in Hz as [kb [<- Hin]]. now apply Hb. }
  rewrite Forall_forall in *. intros p Hp.
  assert (1 <= p_fills p) by (apply Hm; now apply in_map).
  split; lia.
Qed.

(** C1. The end-to-end scenario: two raw trades that normalize to market
    "M1", outcome "O1" and user "0xw", the first a "buy" of 10 at 0.4 and
    the second a "sell" of 4 at 0.5, aggregate for the wallet "0xW" into
    exactly one bucket, that of ("M1", "O1"), with [net_shares] 6.0, [fills]
    2 and [avg_fill_price] 0.45. *)
Theorem end_to_end_scenario (t1 t2 : pydict) (n1 n2 : NormalizedTrade) :
  normalize_trade_record t1 = Ok n1 ->
  normalize_trade_record t2 = Ok n2 ->
  market_id n1 = PStr "M1" -> outcome_id n1 = PStr "O1" ->
  market_id n2 = PStr "M1" -> outcome_id n2 = PStr "O1" ->
  user n1 = Some "0xw"%string -> side n1 = PStr "buy" ->
  size n1 = Some f10 -> price n1 = Some f0_4 ->
  user n2 = Some "0xw"%string -> side n2 = PStr "sell" ->
  size n2 = Some f4 -> price n2 = Some f0_5 ->
  aggregate_delta_for_wallet [t1; t2] "0xW" =
    Ok [ {| p_market_id := "M1";
            p_market_title := market_title n1;
            p_outcome_id := "O1";
            p_outcome_label := outcome_label n1;
            p_net_shares := f6;
            p_fills := 2;
            avg_fill_price := f0_45 |} ].
Proof.
  intros Hn1 Hn2 Hm1 Ho1 Hm2 Ho2 Hu1 Hs1 Hz1 Hp1 Hu2 Hs2 Hz2 Hp2.
  unfold aggregate_delta_for_wallet, aggregate_loop, aggregate_step.
  rewrite Hn1, Hn2. unfold bind.
  destruct n1 as [mi1 mt1 oi1 ol1 p1 s1 ts1 u1 mk1 tk1 by1 sl1 sd1 r1].
  destruct n2 as [mi2 mt2 oi2 ol2 p2 s2 ts2 u2 mk2 tk2 by2 sl2 sd2 r2].
  cbn in Hm1, Ho1, Hm2, Ho2, Hu1, Hs1, Hz1, Hp1, Hu2, Hs2, Hz2, Hp2.
  subst. vm_compute. reflexivity.
Qed.

(** ** The time windower *)

Lemma utc_timestamp_ok (c : Z) :
  in_utc_range c -> utc_timestamp c = Ok (stamp c).
Proof.
  unfold in_utc_range, utc_timestamp, stamp. intros [H1 H2].
  destruct (Z.leb_spec 86400 (c * 86400 - utcoffset c)); [|lia].
  destruct (Z.ltb_spec (c * 86400 - utcoffset c) ((MAXORD + 1) * 86400));
    [reflexivity | lia].
Qed.

Lemma utc_timestamp_inv (c s : Z) :
  utc_timestamp c = Ok s -> s = stamp c /\ in_utc_range c.
Proof.
  unfold in_utc_range, utc_timestamp, stamp.
  destruct (Z.leb_spec 86400 (c * 86400 - utcoffset c));
    destruct (Z.ltb_spec (c * 86400 - utcoffset c) ((MAXORD + 1) * 86400));
    cbn [andb]; try discriminate.
  intros [= <-]. split; [reflexivity | lia].
Qed.

Lemma add_days_inv (c k n : Z) :
  add_days c k = Ok n -> n = c + k /\ 1 <= c + k <= MAXORD.
Proof.
  unfold add_days.
  destruct (Z.leb_spec 1 (c + k)); destruct (Z.leb_spec (c + k) MAXORD);
    cbn [andb]; try discriminate.
  intros [= <-]. lia.
Qed.

Lemma add_days_ok (c k : Z) :
  1 <= c + k <= MAXORD -> add_days c k = Ok (c + k).
Proof.
  unfold add_days. intros [H1 H2].
  destruct (Z.leb_spec 1 (c + k)); [|lia].
  destruct (Z.leb_spec (c + k) MAXORD); [reflexivity | lia].
Qed.

Lemma days_from_step (cur end_ : Z) :
  cur < end_ ->
  days_from cur (Z.to_nat (end_ - cur)) =
    cur :: days_from (cur + 1) (Z.to_nat (end_ - (cur + 1))).
Proof.
  intros H. replace (end_ - cur) with (Z.succ (end_ - (cur + 1))) by lia.
  rewrite Z2Nat.inj_succ by lia. reflexivity.
Qed.

Lemma days_from_none (cur end_ : Z) :
  end_ <= cur -> days_from cur (Z.to_nat (end_ - cur)) = [].
Proof.
  intros H. replace (Z.to_nat (end_ - cur)) with O by lia. reflexivity.
Qed.

(** What the loop has appended when it ends without an exception: the
    interval of every day from [cur] to the day before [end_]. *)
Lemma windows_loop_result (fuel : nat) :
  forall cur end_ out res,
    windows_loop fuel cur end_ out = Some (Ok res) ->
    res = out ++ map day_interval (days_from cur (Z.to_nat (end_ - cur))).
Proof.
  induction fuel as [|fuel IH]; intros cur end_ out res; cbn [windows_loop];
    destruct (Z.ltb_spec cur end_) as [Hlt|Hge];
    try (intros [= <-]; rewrite days_from_none by lia; now rewrite app_nil_r);
    try discriminate.
  destruct (add_days cur 1) as [nxt1|e] eqn:Ea; [|discriminate].
  apply add_days_inv in Ea as [-> _].
  destruct (Z.ltb_spec end_ (cur + 1)); [lia|].
  destruct (utc_timestamp cur) as [s|e] eqn:Es; [|discriminate].
  destruct (utc_timestamp (cur + 1)) as [s'|e] eqn:Es'; [|discriminate].
  apply utc_timestamp_inv in Es as [-> _].
  apply utc_timestamp_inv in Es' as [-> _].
  intros Hres. apply IH in Hres. rewrite Hres, (days_from_step cur end_) by lia.
  now rewrite <- app_assoc.
Qed.

(** The fuel the function gives its loop is enough. *)
Lemma windows_loop_total (fuel : nat) :
  forall cur end_ out,
    (Z.to_nat (end_ - cur) <= fuel)%nat ->
    windows_loop fuel cur end_ out <> None.
Proof.
  induction fuel as [|fuel IH]; intros cur end_ out Hf; cbn [windows_loop];
    destruct (Z.ltb_spec cur end_) as [Hlt|Hge]; try discriminate; try lia.
  destruct (add_days cur 1) as [nxt1|e] eqn:Ea; [|discriminate].
  apply add_days_inv in Ea as [-> _].
  destruct (Z.ltb_spec end_ (cur + 1)); [lia|].
  destruct (utc_timestamp cur); [|discriminate].
  destruct (utc_timestamp (cur + 1)); [|discriminate].
  apply IH. lia.
Qed.

(** The loop ends without an exception when every day it visits can be
    stepped from and converted. *)
Lemma windows_loop_ok (fuel : nat) :
  forall cur end_ out,
    (Z.to_nat (end_ - cur) <= fuel)%nat ->
    0 <= cur -> end_ <= MAXORD ->
    (forall c, cur <= c <= end_ -> in_utc_range c) ->
    windows_loop fuel cur end_ out =
      Some (Ok (out ++ map day_interval (days_from cur (Z.to_nat (end_ - cur))))).
Proof.
  induction fuel as [|fuel IH]; intros cur end_ out Hf H0 Hmax Hr;
    cbn [windows_loop];
    destruct (Z.ltb_spec cur end_) as [Hlt|Hge]; try lia;
    try (rewrite days_from_none by lia; now rewrite app_nil_r).
  rewrite add_days_ok by lia.
  destruct (Z.ltb_spec end_ (cur + 1)); [lia|].
  rewrite !utc_timestamp_ok by (apply Hr; lia).
  rewrite IH by (try lia; intros c Hc; apply Hr; lia).
  rewrite (days_from_step cur end_) by lia. now rewrite <- app_assoc.
Qed.

Lemma contiguous_days (k : nat) :
  forall c, contiguous (map day_interval (days_from c k)).
Proof.
  induction k as [|k IH]; intros c; [exact I|].
  destruct k as [|k]; [exact I|].
  specialize (IH (c + 1)). cbn [days_from map contiguous] in *.
  split; [reflexivity | exact IH].
Qed.

(** Digits and dates: what [strptime] lets through. *)

Lemma digit_range (c : ascii) (x : Z) : digit c = Some x -> 0 <= x <= 9.
Proof.
  unfold digit, in_range.
  destruct (N.leb_spec 48 (N_of_ascii c)); destruct (N.leb_spec (N_of_ascii c) 57);
    cbn [andb]; try discriminate.
  intros [= <-]. lia.
Qed.

Lemma two_digits_range (lo hi v : Z) (s rest : string) :
  two_digits lo hi s = Some (v, rest) -> lo <= v <= hi.
Proof.
  unfold two_digits.
  destruct s as [|a [|b r]]; try discriminate.
  destruct (digit a) as [x|]; [|discriminate].
  destruct (digit b) as [y|]; [|discriminate]. cbv zeta.
  destruct (Z.leb_spec lo (10 * x + y)); destruct (Z.leb_spec (10 * x + y) hi);
    cbn [andb]; try discriminate.
  intros E. assert (10 * x + y = v) by congruence. lia.
Qed.

Lemma one_digit_range (v : Z) (s rest : string) :
  one_digit s = Some (v, rest) -> 1 <= v <= 9.
Proof.
  unfold one_digit. destruct s as [|a r]; [discriminate|].
  destruct (digit a) as [x|] eqn:E; [|discriminate].
  apply digit_range in E.
  destruct (Z.leb_spec 1 x); [|discriminate].
  intros [= <- _]. lia.
Qed.

Lemma parse_year_range (y : Z) (s rest : string) :
  parse_year s = Some (y, rest) -> 0 <= y <= 9999.
Proof.
  unfold parse_year. destruct s as [|a [|b [|c [|d r]]]]; try discriminate.
  destruct (digit a) eqn:Ea; [|discriminate].
  destruct (digit b) eqn:Eb; [|discriminate].
  destruct (digit c) eqn:Ec; [|discriminate].
  destruct (digit d) eqn:Ed; [|discriminate].
  apply digit_range in Ea, Eb, Ec, Ed.
  intros E.
  assert (1000 * z + 100 * z0 + 10 * z1 + z2 = y) by congruence. lia.
Qed.

Lemma parse_month_range (m : Z) (s rest : string) :
  parse_month s = Some (m, rest) -> 1 <= m <= 12.
Proof.
  unfold parse_month. destruct (two_digits 1 12 s) as [[v r]|] eqn:E.
  - intros [= <- _]. now apply two_digits_range in E.
  - intros H. apply one_digit_range in H. lia.
Qed.

Lemma parse_day_range (d : Z) (s rest : string) :
  parse_day s = Some (d, rest) -> 1 <= d <= 31.
Proof.
  unfold parse_day. destruct (two_digits 1 31 s) as [[v r]|] eqn:E.
  - intros [= <- _]. now apply two_digits_range in E.
  - destruct (one_digit s) as [[v r]|] eqn:E1.
    + intros [= <- _]. apply one_digit_range in E1. lia.
    + destruct s as [|a r]; [discriminate|].
      destruct (Ascii.eqb_spec a " "); [subst|].
      * intros H. apply one_digit_range in H. lia.
      * destruct a as [[] [] [] [] [] [] [] []]; try discriminate;
          intros H; apply one_digit_range in H; lia.
Qed.

Lemma days_before_year_bounds (y : Z) :
  1 <= y <= 10000 -> 0 <= days_before_year y <= MAXORD.
Proof.
  unfold days_before_year, MAXORD. intros H.
  pose proof (Z.div_mod (y - 1) 4 ltac:(lia)).
  pose proof (Z.mod_pos_bound (y - 1) 4 ltac:(lia)).
  pose proof (Z.div_mod (y - 1) 100 ltac:(lia)).
  pose proof (Z.mod_pos_bound (y - 1) 100 ltac:(lia)).
  pose proof (Z.div_mod (y - 1) 400 ltac:(lia)).
  pose proof (Z.mod_pos_bound (y - 1) 400 ltac:(lia)).
  cbv zeta. lia.
Qed.

Lemma days_before_year_succ (y : Z) :
  1 <= y ->
  days_before_year (y + 1) =
    days_before_year y + (if is_leap y then 366 else 365).
Proof.
  unfold days_before_year, is_leap. intros H. cbv zeta.
  replace (y + 1 - 1) with y by lia.
  pose proof (Z.div_mod y 4 ltac:(lia)).
  pose proof (Z.mod_pos_bound y 4 ltac:(lia)).
  pose proof (Z.div_mod y 100 ltac:(lia)).
  pose proof (Z.mod_pos_bound y 100 ltac:(lia)).
  pose proof (Z.div_mod y 400 ltac:(lia)).
  pose proof (Z.mod_pos_bound y 400 ltac:(lia)).
  pose proof (Z.div_mod (y - 1) 4 ltac:(lia)).
  pose proof (Z.mod_pos_bound (y - 1) 4 ltac:(lia)).
  pose proof (Z.div_mod (y - 1) 100 ltac:(lia)).
  pose proof (Z.mod_pos_bound (y - 1) 100 ltac:(lia)).
  pose proof (Z.div_mod (y - 1) 400 ltac:(lia)).
  pose proof (Z.mod_pos_bound (y - 1) 400 ltac:(lia)).
  destruct (Z.eqb_spec (y mod 4) 0); destruct (Z.eqb_spec (y mod 100) 0);
    destruct (Z.eqb_spec (y mod 400) 0); cbn [andb orb negb]; lia.
Qed.

Lemma month_cases (m : Z) :
  1 <= m <= 12 ->
  m = 1 \/ m = 2 \/ m = 3 \/ m = 4 \/ m = 5 \/ m = 6 \/
  m = 7 \/ m = 8 \/ m = 9 \/ m = 10 \/ m = 11 \/ m = 12.
Proof. lia. Qed.

(** A day of a month lies inside its year. *)
Lemma day_of_year_bounds (y m d : Z) :
  1 <= m <= 12 -> 1 <= d <= days_in_month y m ->
  1 <= days_before_month y m + d <= (if is_leap y then 366 else 365).
Proof.
  intros Hm Hd. unfold days_before_month.
  destruct (month_cases m Hm) as [->|[->|[->|[->|[->|[->|[->|[->|[->|[->|[->| ->]]]]]]]]]]];
    match goal with
    | |- context [Z.to_nat ?e] =>
        let k := eval vm_compute in (Z.to_nat e) in
        change (Z.to_nat e) with k
    end;
    match goal with
    | |- context [days_before_month_from y ?k ?m] =>
        let v := eval cbn -[is_leap] in (days_before_month_from y k m) in
        change (days_before_month_from y k m) with v
    end;
    cbn -[is_leap] in Hd; destruct (is_leap y); lia.
Qed.

(** A date [strptime] accepts is a day from 0001-01-01 to 9999-12-31. *)
Lemma strptime_ymd_range (d : string) (n : Z) :
  strptime_ymd d = Some n -> 1 <= n <= MAXORD.
Proof.
  unfold strptime_ymd.
  destruct (parse_year d) as [[y s1]|] eqn:Ey; [|discriminate].
  destruct (expect_dash s1) as [s2|]; [|discriminate].
  destruct (parse_month s2) as [[m s3]|] eqn:Em; [|discriminate].
  destruct (expect_dash s3) as [s4|]; [|discriminate].
  destruct (parse_day s4) as [[dd s5]|] eqn:Ed; [|discriminate].
  apply parse_year_range in Ey. apply parse_month_range in Em.
  apply parse_day_range in Ed.
  destruct (s5 =? "")%string; [|discriminate].
  destruct (Z.leb_spec 1 y); [|discriminate].
  destruct (Z.leb_spec dd (days_in_month y m)); [|discriminate].
  cbn [andb]. intros [= <-]. unfold ymd_to_ordinal.
  pose proof (day_of_year_bounds y m dd Em ltac:(lia)) as Hd.
  pose proof (days_before_year_bounds y ltac:(lia)) as Hy.
  pose proof (days_before_year_bounds (y + 1) ltac:(lia)) as Hy1.
  rewrite days_before_year_succ in Hy1 by lia.
  destruct (is_leap y); lia.
Qed.

(** C5, as amended. For two dates [strptime] accepts, the first no later
    than the second, the second before 9999-12-31, and every local midnight
    from the first day to the day after the last a moment [datetime] can
    hold in UTC as well, the windower returns the interval of every local
    day, one after the other: consecutive intervals meet, and for one date
    given twice the result is the one interval from that day's midnight to
    the next. *)
Theorem window_coverage (from_date to_date : string) (a b : Z) :
  strptime_ymd from_date = Some a ->
  strptime_ymd to_date = Some b ->
  a <= b < MAXORD ->
  (forall c, a <= c <= b + 1 -> in_utc_range c) ->
  day_windows_local_to_utc from_date to_date =
    Some (Ok (map day_interval (days_from a (Z.to_nat (b + 1 - a))))) /\
  contiguous (map day_interval (days_from a (Z.to_nat (b + 1 - a)))) /\
  (a = b ->
   day_windows_local_to_utc from_date to_date =
     Some (Ok [(stamp a, stamp (a + 1))])).
Proof.
  intros Ha Hb Hab Hr.
  assert (Hw : day_windows_local_to_utc from_date to_date =
    Some (Ok (map day_interval (days_from a (Z.to_nat (b + 1 - a)))))).
  { unfold day_windows_local_to_utc, parse_date_local. rewrite Ha, Hb.
    pose proof (strptime_ymd_range _ _ Ha).
    rewrite add_days_ok by lia.
    rewrite windows_loop_ok; [reflexivity | unfold windows_fuel; lia | lia
                             | lia | exact Hr]. }
  split; [exact Hw|]. split; [apply contiguous_days|].
  intros ->. rewrite Hw.
  replace (b + 1 - b) with 1 by lia. reflexivity.
Qed.

(** ** Keys of the fee cache *)

Lemma hkey_eqb_eq (a b : hkey) : hkey_eqb a b = true <-> a = b.
Proof.
  destruct a, b; cbn; try (split; [discriminate | congruence]).
  - split; reflexivity.
  - rewrite String.eqb_eq. split; congruence.
  - rewrite andb_true_iff, !Z.eqb_eq. split; [intros [-> ->]; reflexivity|].
    intros [= -> ->]. auto.
  - rewrite Bool.eqb_true_iff. split; congruence.
Qed.

(** Two values are one key when they have the same normal form. *)
Lemma key_eqb_spec (a b : pyval) :
  key_eqb a b = true <-> exists h, key_of a = Key h /\ key_of b = Key h.
Proof.
  unfold key_eqb. split.
  - destruct (key_of a) as [| |h]; try discriminate.
    destruct (key_of b) as [| |h']; try discriminate.
    intros H. apply hkey_eqb_eq in H as ->. eauto.
  - intros [h [-> ->]]. now apply hkey_eqb_eq.
Qed.

Lemma key_eqb_sym (a b : pyval) : key_eqb a b = true -> key_eqb b a = true.
Proof.
  rewrite !key_eqb_spec. intros [h [Ha Hb]]. eauto.
Qed.

Lemma key_eqb_trans (a b c : pyval) :
  key_eqb a b = true -> key_eqb b c = true -> key_eqb a c = true.
Proof.
  rewrite !key_eqb_spec. intros [h [Ha Hb]] [h' [Hb' Hc]].
  exists h. split; [exact Ha | congruence].
Qed.

Lemma key_eqb_refl_l (a b : pyval) : key_eqb a b = true -> key_eqb a a = true.
Proof.
  intros H. exact (key_eqb_trans a b a H (key_eqb_sym a b H)).
Qed.

(** Equal keys find the same entry. *)
Lemma lookup_key_eqb {V : Type} (d : list (pyval * V)) (a b : pyval) :
  key_eqb a b = true -> lookup key_eqb d a = lookup key_eqb d b.
Proof.
  intros H. induction d as [|[k v] d IH]; cbn; [reflexivity|].
  assert (E : key_eqb k a = key_eqb k b).
  { destruct (key_eqb k a) eqn:Ea; destruct (key_eqb k b) eqn:Eb;
      try reflexivity.
    - rewrite (key_eqb_trans k a b Ea H) in Eb. discriminate.
    - rewrite (key_eqb_trans k b a Eb (key_eqb_sym a b H)) in Ea.
      discriminate. }
  rewrite E, IH. reflexivity.
Qed.

Lemma hkey_of_Z_truthy (z : Z) : hkey_truthy (hkey_of_Z z) = negb (z =? 0).
Proof.
  destruct z as [|p|p]; cbn; [reflexivity| |];
    destruct (odd_part p 0) as [m e]; reflexivity.
Qed.

Lemma key_truthy (v : pyval) (h : hkey) :
  key_of v = Key h -> truthy v = hkey_truthy h.
Proof.
  destruct v as [|b|z|f|s|l|d]; cbn; try discriminate.
  - now intros [= <-].
  - intros [= <-]. rewrite hkey_of_Z_truthy. now destruct b.
  - intros [= <-]. now rewrite hkey_of_Z_truthy.
  - destruct f as [s|s| |s m e]; try discriminate.
    + intros [= <-]. now destruct s.
    + intros [= <-]. now destruct s.
    + destruct (odd_part m e) as [m' e']. intros [= <-].
      destruct s; reflexivity.
  - now intros [= <-].
Qed.

Lemma key_eqb_truthy (a b : pyval) :
  key_eqb a b = true -> truthy a = truthy b.
Proof.
  rewrite key_eqb_spec. intros [h [Ha Hb]].
  now rewrite (key_truthy a h Ha), (key_truthy b h Hb).
Qed.

(** ** The fee computation *)

Lemma receipts_app (l l' : list fetch) :
  receipts (l ++ l') = receipts l ++ receipts l'.
Proof.
  induction l as [|[t|t] l IH]; cbn; [reflexivity| |]; now rewrite IH.
Qed.

Lemma tx_fetches_app (l l' : list fetch) :
  tx_fetches (l ++ l') = tx_fetches l ++ tx_fetches l'.
Proof.
  induction l as [|[t|t] l IH]; cbn; [reflexivity| |]; now rewrite IH.
Qed.

(** One computation asks for the receipt once and for the transaction at
    most once, and for nothing else. *)
Lemma compute_fee_log (tx : pyval) (w : World) (log : list fetch)
  (r : result FeeRecord) (w' : World) (log' : list fetch) :
  compute_fee tx (w, log) = (r, (w', log')) ->
  log' = log ++ [FetchReceipt tx] \/
  log' = log ++ [FetchReceipt tx; FetchTx tx].
Proof.
  unfold compute_fee, mbind, call_receipt, call_tx, lift, ret.
  destruct (get_tx_receipt tx w) as [[receipt|e] w1];
    [|intros [= _ _ <-]; now left].
  destruct (truthy receipt); cbn [negb]; [|intros [= _ _ <-]; now left].
  destruct (as_dict receipt) as [rc|e]; [|intros [= _ _ <-]; now left].
  destruct (hex_to_int (get rc "effectiveGasPrice")) as [p|].
  - destruct (hex_to_int (get rc "gasUsed")) as [g|];
      [|intros [= _ _ <-]; now left].
    destruct (wei_to_matic (Some (g * p))); intros [= _ _ <-]; now left.
  - destruct (get_tx_data tx w1) as [[t|e] w2];
      [|intros [= _ _ <-]; right; now rewrite <- app_assoc].
    assert (Hl : (log ++ [FetchReceipt tx]) ++ [FetchTx tx] =
                 log ++ [FetchReceipt tx; FetchTx tx])
      by now rewrite <- app_assoc.
    rewrite Hl.
    destruct (truthy t).
    + destruct (as_dict t) as [d|e]; [|intros [= _ _ <-]; now right].
      destruct (hex_to_int (get rc "gasUsed")) as [g|];
        destruct (hex_to_int (get d "gasPrice")) as [q|];
        try (intros [= _ _ <-]; now right).
      destruct (wei_to_matic (Some (g * q))); intros [= _ _ <-]; now right.
    + destruct (hex_to_int (get rc "gasUsed")) as [g|];
        intros [= _ _ <-]; now right.
Qed.

(** C6. The fee of a transaction whose receipt has no effective gas price
    and whose transaction record is a JSON object: both calls are made, the
    price used is the legacy [gasPrice], and the note is "fallback_gasPrice"
    when that price is a number other than zero, "no_price_found" when it is
    missing, unreadable or zero; a zero price is used all the same. *)
Theorem fee_fallback_note (tx : pyval) (w w1 w2 : World) (log : list fetch)
  (rc d : pydict) :
  get_tx_receipt tx w = (Ok (PDict rc), w1) ->
  rc <> [] ->
  hex_to_int (get rc "effectiveGasPrice") = None ->
  get_tx_data tx w1 = (Ok (PDict d), w2) ->
  compute_fee tx (w, log) =
    (let gas_used := hex_to_int (get rc "gasUsed") in
     let legacy := hex_to_int (get d "gasPrice") in
     let note :=
       if int_truthy legacy then "fallback_gasPrice"%string
       else "no_price_found"%string in
     match gas_used, legacy with
     | Some g, Some p =>
         match float_of_Z (g * p) with
         | Some f =>
             Ok {| gasUsed := gas_used; effectiveGasPrice := None;
                   gasPrice := legacy; feeWei := Some (g * p);
                   feeMATIC := Some (float_div f f1e18); note := note |}
         | None =>
             Raise (Exn OverflowError "int too large to convert to float")
         end
     | _, _ =>
         Ok {| gasUsed := gas_used; effectiveGasPrice := None;
               gasPrice := legacy; feeWei := None; feeMATIC := None;
               note := note |}
     end,
     (w2, log ++ [FetchReceipt tx; FetchTx tx])).
Proof.
  intros Hr Hne He Ht.
  assert (Htr : truthy (PDict rc) = true)
    by (destruct rc; [congruence | reflexivity]).
  unfold compute_fee, mbind, call_receipt, call_tx, lift, ret.
  rewrite Hr. cbv beta iota. rewrite Htr. cbn [negb as_dict].
  rewrite He, Ht. cbv beta iota zeta. rewrite <- app_assoc. cbn [app].
  destruct d as [|kv d].
  - change (hex_to_int (get [] "gasPrice")) with (@None Z).
    cbn [truthy int_truthy].
    now destruct (hex_to_int (get rc "gasUsed")).
  - cbn [truthy as_dict].
    destruct (hex_to_int (get rc "gasUsed")) as [g|];
      destruct (hex_to_int (get (kv :: d) "gasPrice")) as [p|];
      try reflexivity.
    unfold wei_to_matic. now destruct (float_of_Z (g * p)).
Qed.

(** Whatever [compute_fee] raises, the cache step records it. *)
Lemma fee_for_absorbs (cache : list (pyval * FeeRecord)) (tx : pyval)
  (s s' : env) (e : exn) :
  hashable tx = true ->
  lookup key_eqb cache tx = None ->
  compute_fee tx s = (Raise e, s') ->
  fee_for cache tx s = (Ok (error_record e, cache ++ [(tx, error_record e)]), s').
Proof.
  intros Hh Hl Hc. unfold fee_for. rewrite Hh, Hl. cbn [negb].
  unfold mbind, try_except, ret. rewrite Hc. now rewrite assign_fresh.
Qed.

Lemma compute_fee_receipt_fails (tx : pyval) (w w' : World) (log : list fetch)
  (e : exn) :
  get_tx_receipt tx w = (Raise e, w') ->
  compute_fee tx (w, log) = (Raise e, (w', log ++ [FetchReceipt tx])).
Proof.
  intros H. unfold compute_fee, mbind, call_receipt. now rewrite H.
Qed.

Lemma compute_fee_tx_fails (tx : pyval) (w w1 w' : World) (log : list fetch)
  (rc : pydict) (e : exn) :
  get_tx_receipt tx w = (Ok (PDict rc), w1) ->
  rc <> [] ->
  hex_to_int (get rc "effectiveGasPrice") = None ->
  get_tx_data tx w1 = (Raise e, w') ->
  compute_fee tx (w, log) =
    (Raise e, (w', log ++ [FetchReceipt tx; FetchTx tx])).
Proof.
  intros Hr Hne He Ht.
  assert (Htr : truthy (PDict rc) = true)
    by (destruct rc; [congruence | reflexivity]).
  unfold compute_fee, mbind, call_receipt, call_tx, lift, ret.
  rewrite Hr. cbv beta iota. rewrite Htr. cbn [negb as_dict].
  rewrite He, Ht. cbv beta iota. now rewrite <- app_assoc.
Qed.

Lemma safe_float_val (o : option float) : safe_float (float_val o) = o.
Proof. now destruct o. Qed.

(** C9. Fee error absorption: when the receipt call raises, or the receipt
    has no effective gas price and the transaction call raises, the step of
    the loop for a hash that is not cached yet ends without an exception;
    the cache gets a record with the note "error:" followed by the message
    and every number [None], the row gets that note and [None] for its fee
    columns, and the totals stay as they were. *)
Theorem fee_error_absorption (matic_price : float) (st : MainState)
  (m : pydict) (w w' : World) (log : list fetch) (e : exn) :
  truthy (merge_tx m) = true ->
  hashable (merge_tx m) = true ->
  lookup key_eqb (tx_cache st) (merge_tx m) = None ->
  get_tx_receipt (merge_tx m) w = (Raise e, w') \/
  (exists rc w1,
     get_tx_receipt (merge_tx m) w = (Ok (PDict rc), w1) /\
     rc <> [] /\
     hex_to_int (get rc "effectiveGasPrice") = None /\
     get_tx_data (merge_tx m) w1 = (Raise e, w')) ->
  exists log',
    main_step matic_price st m (w, log) =
      (Ok {| enriched := enriched st ++
               [{| row_base := m; row_feeMATIC := None; row_feeUSDC := None;
                   row_netUSDC_after_fee := None;
                   row_maticPriceUSDC := Some matic_price;
                   row_fee_note := "error:" ++ exn_msg e |}];
             tx_cache := tx_cache st ++
               [(merge_tx m,
                 {| gasUsed := None; effectiveGasPrice := None;
                    gasPrice := None; feeWei := None; feeMATIC := None;
                    note := "error:" ++ exn_msg e |})];
             total_matic := total_matic st;
             total_usdc := total_usdc st;
             tx_count := tx_count st |},
       (w', log')).
Proof.
  intros Ht Hh Hl Hfail.
  assert (Hc : exists log',
    compute_fee (merge_tx m) (w, log) = (Raise e, (w', log'))).
  { destruct Hfail as [Hr | [rc [w1 [Hr [Hne [He Hx]]]]]].
    - eexists. now apply compute_fee_receipt_fails.
    - eexists. now apply (compute_fee_tx_fails _ w w1 w' log rc e). }
  destruct Hc as [log' Hc]. exists log'.
  unfold main_step. rewrite Ht. cbn [negb]. unfold mbind at 1.
  rewrite (fee_for_absorbs _ _ _ _ e Hh Hl Hc).
  cbn. destruct (safe_float (get m "usdcSize")); reflexivity.
Qed.

(** ** The memoizing loop *)

Lemma fetched_once_snoc (l : list pyval) (x : pyval) :
  fetched_once l ->
  Forall (fun a => key_eqb a x = false) l ->
  fetched_once (l ++ [x]).
Proof.
  unfold fetched_once. intros Hl. induction Hl as [|a l Ha Hl IH]; cbn.
  - intros _. constructor; constructor.
  - intros Hx. inversion Hx as [|? ? Hax Hlx]; subst.
    constructor; [|now apply IH].
    apply Forall_app. split; [exact Ha|]. constructor; [exact Hax|constructor].
Qed.

(** What the cache step does: it refuses a hash that cannot be a key, answers
    from the cache without a call when the hash is there, and otherwise
    computes, with a call or two, and appends the entry. *)
Lemma fee_for_spec (cache : list (pyval * FeeRecord)) (tx : pyval)
  (w w' : World) (log log' : list fetch)
  (r : result (FeeRecord * list (pyval * FeeRecord))) :
  fee_for cache tx (w, log) = (r, (w', log')) ->
  match r with
  | Raise _ => hashable tx = false /\ w' = w /\ log' = log
  | Ok (fee, cache') =>
      hashable tx = true /\
      ((lookup key_eqb cache tx = Some fee /\ cache' = cache /\
        w' = w /\ log' = log) \/
       (lookup key_eqb cache tx = None /\ cache' = cache ++ [(tx, fee)] /\
        (log' = log ++ [FetchReceipt tx] \/
         log' = log ++ [FetchReceipt tx; FetchTx tx])))
  end.
Proof.
  unfold fee_for. destruct (hashable tx); cbn [negb].
  - destruct (lookup key_eqb cache tx) as [fee|] eqn:Hl.
    + unfold ret. intros [= <- <- <-]. split; [reflexivity|]. left. auto.
    + unfold mbind, try_except, ret.
      destruct (compute_fee tx (w, log)) as [[fee|e] [w1 log1]] eqn:Ec;
        apply compute_fee_log in Ec; intros [= <- <- <-];
        (split; [reflexivity|]); right; rewrite assign_fresh by exact Hl; auto.
  - unfold raise. intros [= <- <- <-]. auto.
Qed.

(** What one iteration does to the state: it appends one row, and when the
    merge has a hash the row's fee columns are those of the record the cache
    step answered with. *)
Lemma main_step_spec (matic_price : float) (st : MainState) (m : pydict)
  (w w' : World) (log log' : list fetch) (r : result MainState) :
  main_step matic_price st m (w, log) = (r, (w', log')) ->
  match r with
  | Raise _ => w' = w /\ log' = log
  | Ok st' =>
      exists row,
        enriched st' = enriched st ++ [row] /\ row_base row = m /\
        ((truthy (merge_tx m) = false /\ tx_cache st' = tx_cache st /\
          w' = w /\ log' = log) \/
         (truthy (merge_tx m) = true /\
          exists fee,
            fee_for (tx_cache st) (merge_tx m) (w, log) =
              (Ok (fee, tx_cache st'), (w', log')) /\
            row_fee_note row = note fee /\
            row_feeMATIC row = feeMATIC fee /\
            row_feeUSDC row =
              match feeMATIC fee with
              | Some f => Some (float_mul f matic_price)
              | None => None
              end))
  end.
Proof.
  unfold main_step. destruct (truthy (merge_tx m)) eqn:Ht; cbn [negb].
  - unfold mbind.
    destruct (fee_for (tx_cache st) (merge_tx m) (w, log))
      as [[[fee cache]|e] [w1 log1]] eqn:Ef.
    + rewrite safe_float_val. unfold ret.
      destruct (feeMATIC fee) as [f|] eqn:Hf; intros [= <- <- <-];
        eexists; (split; [reflexivity|]); (split; [reflexivity|]);
        right; (split; [reflexivity|]); exists fee; cbn;
        rewrite Hf; auto.
    + intros [= <- <- <-]. apply fee_for_spec in Ef. tauto.
  - unfold ret. intros [= <- <- <-]. eexists.
    split; [reflexivity|]. split; [reflexivity|]. left. auto.
Qed.

Lemma lookup_snoc_keeps {V : Type} (d : list (pyval * V)) (k x : pyval)
  (v : V) :
  lookup key_eqb d k <> None -> lookup key_eqb (d ++ [(x, v)]) k <> None.
Proof.
  rewrite lookup_app. now destruct (lookup key_eqb d k).
Qed.

Lemma lookup_snoc_new {V : Type} (d : list (pyval * V)) (k x : pyval) (v : V) :
  key_eqb x k = true -> lookup key_eqb (d ++ [(x, v)]) k <> None.
Proof.
  intros H. rewrite lookup_app. destruct (lookup key_eqb d k); [discriminate|].
  cbn. now rewrite H.
Qed.

(** A hash that misses the cache was never fetched. *)
Lemma miss_not_fetched (cache : list (pyval * FeeRecord)) (log : list fetch)
  (tx : pyval) :
  log_in_cache cache log ->
  lookup key_eqb cache tx = None ->
  Forall (fun a => key_eqb a tx = false) (receipts log) /\
  Forall (fun a => key_eqb a tx = false) (tx_fetches log).
Proof.
  intros Hc Hl. split; apply Forall_forall; intros a Ha;
    destruct (key_eqb a tx) eqn:E; try reflexivity;
    exfalso; apply (Hc a tx); try assumption; apply in_or_app; auto.
Qed.

Lemma miss_keeps_invariant (matic_price : float) (st st' : MainState)
  (log log' : list fetch) (row : Row) (fee : FeeRecord) :
  loop_invariant matic_price st log ->
  enriched st' = enriched st ++ [row] ->
  tx_cache st' = tx_cache st ++ [(row_tx row, fee)] ->
  lookup key_eqb (tx_cache st) (row_tx row) = None ->
  row_fee_note row = note fee ->
  row_feeMATIC row = feeMATIC fee ->
  row_feeUSDC row =
    match feeMATIC fee with
    | Some f => Some (float_mul f matic_price)
    | None => None
    end ->
  log' = log ++ [FetchReceipt (row_tx row)] \/
  log' = log ++ [FetchReceipt (row_tx row); FetchTx (row_tx row)] ->
  loop_invariant matic_price st' log'.
Proof.
  intros [Hrows [Hlog [Hr Ht]]] He Hc Hmiss Hn Hm Hu Hlog'.
  destruct (miss_not_fetched _ _ _ Hlog Hmiss) as [Fr Ft].
  assert (Hrec : receipts log' = receipts log ++ [row_tx row])
    by (destruct Hlog' as [-> | ->]; now rewrite receipts_app).
  assert (Htx : tx_fetches log' = tx_fetches log \/
                tx_fetches log' = tx_fetches log ++ [row_tx row])
    by (destruct Hlog' as [-> | ->]; rewrite tx_fetches_app; cbn;
        [left; apply app_nil_r | right; reflexivity]).
  repeat split.
  - intros r Hin Htr Hself. rewrite He in Hin. rewrite Hc.
    apply in_app_or in Hin as [Hin | [<- | []]].
    + destruct (Hrows r Hin Htr Hself) as [fee0 [Hl0 H0]].
      exists fee0. split; [|exact H0]. rewrite lookup_app. now rewrite Hl0.
    + exists fee. rewrite lookup_app, Hmiss. cbn. rewrite Hself. auto.
  - intros t k Hin Hk. rewrite Hc.
    assert (Hcase : In t (receipts log ++ tx_fetches log) \/ t = row_tx row).
    { rewrite Hrec in Hin. apply in_app_or in Hin as [Hin | Hin].
      - apply in_app_or in Hin as [Hin | [<- | []]]; [left|now right].
        apply in_or_app. now left.
      - destruct Htx as [E | E]; rewrite E in Hin.
        + left. apply in_or_app. now right.
        + apply in_app_or in Hin as [Hin | [<- | []]]; [left|now right].
          apply in_or_app. now right. }
    destruct Hcase as [Hold | ->].
    + apply lookup_snoc_keeps. exact (Hlog t k Hold Hk).
    + now apply lookup_snoc_new.
  - rewrite Hrec. now apply fetched_once_snoc.
  - destruct Htx as [E | E]; rewrite E; [exact Ht|].
    now apply fetched_once_snoc.
Qed.

Lemma main_step_invariant (matic_price : float) (st st' : MainState)
  (m : pydict) (w w' : World) (log log' : list fetch) :
  loop_invariant matic_price st log ->
  main_step matic_price st m (w, log) = (Ok st', (w', log')) ->
  loop_invariant matic_price st' log'.
Proof.
  intros Hinv Hs. pose proof Hinv as [Hrows [Hlog [Hr Ht]]].
  apply main_step_spec in Hs as [row [He [Hb Hcase]]].
  assert (Hrt : row_tx row = merge_tx m) by (unfold row_tx; now rewrite Hb).
  destruct Hcase as [[Hf [Hc [-> ->]]] | [Htr [fee [Hfee [Hn [Hm Hu]]]]]].
  - repeat split; try assumption.
    + intros r Hin Htrue Hself. rewrite He in Hin. rewrite Hc.
      apply in_app_or in Hin as [Hin | [<- | []]]; [now apply Hrows|].
      rewrite Hrt in Htrue. congruence.
    + now rewrite Hc.
  - apply fee_for_spec in Hfee as [Hh [[Hl [Hc [-> ->]]] | [Hl [Hc Hlog']]]].
    + repeat split; try assumption.
      * intros r Hin Htrue Hself. rewrite He in Hin. rewrite Hc.
        apply in_app_or in Hin as [Hin | [<- | []]]; [now apply Hrows|].
        exists fee. rewrite Hrt. auto.
      * now rewrite Hc.
    + rewrite <- Hrt in Hc, Hl, Hlog'.
      exact (miss_keeps_invariant matic_price st st' log log' row fee
               Hinv He Hc Hl Hn Hm Hu Hlog').
Qed.

Lemma main_loop_invariant (matic_price : float) (merges : list pydict) :
  forall st w log r w' log',
    loop_invariant matic_price st log ->
    main_loop matic_price merges st (w, log) = (r, (w', log')) ->
    fetched_once (receipts log') /\
    fetched_once (tx_fetches log') /\
    forall st', r = Ok st' -> cache_backs_rows matic_price st'.
Proof.
  induction merges as [|m merges IH]; intros st w log r w' log' Hinv;
    cbn [main_loop].
  - unfold ret. intros [= <- <- <-]. destruct Hinv as [Hrows [_ [Hr Ht]]].
    repeat split; try assumption. now intros st' [= <-].
  - unfold mbind.
    destruct (main_step matic_price st m (w, log)) as [[st1|e] [w1 log1]] eqn:Es.
    + apply IH. exact (main_step_invariant _ _ _ _ _ _ _ _ Hinv Es).
    + intros [= <- <- <-]. apply main_step_spec in Es as [_ ->].
      destruct Hinv as [_ [_ [Hr Ht]]]. repeat split; try assumption.
      discriminate.
Qed.

Lemma initial_invariant (matic_price : float) :
  loop_invariant matic_price init_state [].
Proof.
  repeat split.
  - intros r [].
  - intros t k [].
  - constructor.
  - constructor.
Qed.

(** C7. Fee memoization: in a run of the loop no hash is asked for twice,
    neither its receipt nor its transaction, whether the run ends or raises;
    and when it ends, two rows whose hashes are the same key have their fee
    columns from one and the same cached record, wherever they stand in the
    sequence. *)
Theorem fee_memoization (matic_price : float) (merges : list pydict)
  (w w' : World) (log : list fetch) (r : result MainState) :
  main_loop matic_price merges init_state (w, []) = (r, (w', log)) ->
  fetched_once (receipts log) /\
  fetched_once (tx_fetches log) /\
  forall st r1 r2,
    r = Ok st ->
    In r1 (enriched st) -> In r2 (enriched st) ->
    truthy (row_tx r1) = true ->
    key_eqb (row_tx r1) (row_tx r2) = true ->
    exists fee,
      lookup key_eqb (tx_cache st) (row_tx r1) = Some fee /\
      lookup key_eqb (tx_cache st) (row_tx r2) = Some fee /\
      fee_columns r1 = fee_columns r2 /\
      row_fee_note r1 = note fee /\
      row_feeMATIC r1 = feeMATIC fee.
Proof.
  intros Hrun.
  destruct (main_loop_invariant matic_price merges init_state w [] r w' log
              (initial_invariant matic_price) Hrun) as [Hr [Ht Hrows]].
  split; [exact Hr|]. split; [exact Ht|].
  intros st r1 r2 -> H1 H2 Htr Hk.
  specialize (Hrows st eq_refl).
  assert (Htr2 : truthy (row_tx r2) = true)
    by (now rewrite <- (key_eqb_truthy _ _ Hk)).
  destruct (Hrows r1 H1 Htr (key_eqb_refl_l _ _ Hk))
    as [fee1 [Hl1 [Hn1 [Hm1 Hu1]]]].
  destruct (Hrows r2 H2 Htr2 (key_eqb_refl_l _ _ (key_eqb_sym _ _ Hk)))
    as [fee2 [Hl2 [Hn2 [Hm2 Hu2]]]].
  rewrite (lookup_key_eqb _ _ _ Hk) in Hl1.
  assert (fee1 = fee2) by congruence. subst fee2.
  exists fee1. rewrite (lookup_key_eqb _ _ _ Hk).
  repeat split; try assumption.
  unfold fee_columns. now rewrite Hn1, Hn2, Hm1, Hm2, Hu1, Hu2.
Qed.

(** * The rest of the code *)

(** ** The windower, whatever the dates *)

(** X1. The window loop ends: every call of [day_windows_local_to_utc]
    returns a list or raises, whatever the two strings and the time zone
    are. *)
Theorem day_windows_terminates (from_date to_date : string) :
  exists r, day_windows_local_to_utc from_date to_date = Some r.
Proof.
  unfold day_windows_local_to_utc.
  destruct (parse_date_local from_date) as [a|e]; [|now eexists].
  destruct (parse_date_local to_date) as [b|e]; [|now eexists].
  destruct (add_days b 1) as [end_|e]; [|now eexists].
  destruct (windows_loop (windows_fuel a end_) a end_ []) as [r|] eqn:E;
    [now eexists|].
  exfalso. revert E. apply windows_loop_total. unfold windows_fuel. lia.
Qed.

Lemma parse_date_local_inv (d : string) (n : Z) :
  parse_date_local d = Ok n -> strptime_ymd d = Some n.
Proof.
  unfold parse_date_local. destruct (strptime_ymd d); [|discriminate].
  now intros [= ->].
Qed.

Lemma days_from_length (k : nat) : forall c, List.length (days_from c k) = k.
Proof. induction k as [|k IH]; intros c; cbn; [reflexivity | now rewrite IH]. Qed.

(** X2. Whenever [day_windows_local_to_utc] returns a list, both strings are
    dates, and the list holds the interval of every local day from the first
    date to the second, in order and end to start: one interval per day, and
    none when the first date is after the second. *)
Theorem day_windows_result (from_date to_date : string) (ws : list (Z * Z)) :
  day_windows_local_to_utc from_date to_date = Some (Ok ws) ->
  exists a b,
    strptime_ymd from_date = Some a /\
    strptime_ymd to_date = Some b /\
    ws = map day_interval (days_from a (Z.to_nat (b + 1 - a))) /\
    List.length ws = Z.to_nat (b + 1 - a) /\
    contiguous ws.
Proof.
  unfold day_windows_local_to_utc.
  destruct (parse_date_local from_date) as [a|e] eqn:Ea; [|discriminate].
  destruct (parse_date_local to_date) as [b|e] eqn:Eb; [|discriminate].
  destruct (add_days b 1) as [end_|e] eqn:Ee; [|discriminate].
  apply add_days_inv in Ee as [-> _].
  intros H. apply windows_loop_result in H. cbn [app] in H. subst ws.
  exists a, b.
  split; [now apply parse_date_local_inv|].
  split; [now apply parse_date_local_inv|].
  split; [reflexivity|].
  split; [now rewrite length_map, days_from_length | apply contiguous_days].
Qed.

(** X3. A range whose first date is after its second is no error: the
    windower returns the empty list. *)
Theorem reversed_range_is_empty (from_date to_date : string) (a b : Z) :
  strptime_ymd from_date = Some a ->
  strptime_ymd to_date = Some b ->
  b < a ->
  day_windows_local_to_utc from_date to_date = Some (Ok []).
Proof.
  intros Ha Hb Hlt. unfold day_windows_local_to_utc, parse_date_local.
  rewrite Ha, Hb.
  apply strptime_ymd_range in Ha, Hb.
  rewrite add_days_ok by lia.
  replace (windows_fuel a (b + 1)) with O by (unfold windows_fuel; lia).
  cbn [windows_loop].
  destruct (Z.ltb_spec a (b + 1)); [lia | reflexivity].
Qed.

(** ** The timestamp of a trade *)

(** X4. Seconds and milliseconds of one instant are read alike: for an
    instant [s] between 2*10^7 and 2*10^10 seconds, a trade stamped with [s]
    and a trade stamped with the milliseconds [1000*s + r] both have the
    timestamp [s]. *)
Theorem milliseconds_as_seconds (t t' : pydict) (s r : Z) :
  2 * 10 ^ 7 < s <= 2 * 10 ^ 10 ->
  0 <= r < 1000 ->
  get t "timestamp" = PInt s ->
  get t' "timestamp" = PInt (1000 * s + r) ->
  extract_ts_seconds t = Some s /\ extract_ts_seconds t' = Some s.
Proof.
  intros Hs Hr Ht Ht'. unfold extract_ts_seconds.
  rewrite Ht, Ht'.
  assert (E1 : truthy (PInt s) = true).
  { cbn [truthy]. destruct (Z.eqb_spec s 0); [lia | reflexivity]. }
  assert (E2 : truthy (PInt (1000 * s + r)) = true).
  { cbn [truthy]. destruct (Z.eqb_spec (1000 * s + r) 0); [lia | reflexivity]. }
  rewrite !(py_or_truthy (PInt s) _ E1).
  rewrite !(py_or_truthy (PInt (1000 * s + r)) _ E2).
  cbn [is_none py_int].
  change (2 * 10 ^ 10) with 20000000000 in *.
  change (2 * 10 ^ 7) with 20000000 in *.
  split.
  - destruct (Z.ltb_spec 20000000000 s); [lia | reflexivity].
  - destruct (Z.ltb_spec 20000000000 (1000 * s + r)); [|lia].
    f_equal. symmetry. apply (Z.div_unique _ _ _ r); lia.
Qed.

(** ** filter_trades_by_windows *)

Lemma in_some_window_existsb (ts : Z) (windows : list (Z * Z)) :
  in_some_window ts windows =
    existsb (fun w => (fst w <=? ts) && (ts <? snd w)) windows.
Proof.
  induction windows as [|[s e] ws IH]; cbn [in_some_window existsb fst snd];
    [reflexivity|].
  destruct ((s <=? ts) && (ts <? e)); [reflexivity | exact IH].
Qed.

(** X5. [filter_trades_by_windows] keeps, in their order and once each,
    exactly the trades that have a timestamp inside some window, the start
    of a window included and its end excluded; a trade that several windows
    hold is not repeated. *)
Theorem filter_trades_by_windows_keeps (trades : list pydict)
  (windows : list (Z * Z)) :
  filter_trades_by_windows trades windows = filter (kept_by windows) trades.
Proof.
  induction trades as [|t trades IH];
    cbn [filter_trades_by_windows filter]; [reflexivity|].
  unfold kept_by at 1.
  destruct (extract_ts_seconds t) as [ts|]; [|exact IH].
  rewrite <- in_some_window_existsb.
  destruct (in_some_window ts windows); [now rewrite IH | exact IH].
Qed.

Lemma last_cons {A : Type} (l : list A) :
  forall a b, last (b :: l) a = last l b.
Proof.
  induction l as [|c l IH]; intros a b; [reflexivity|].
  change (last (b :: c :: l) a) with (last (c :: l) a).
  now rewrite !IH.
Qed.

Lemma well_formed_span (l : list (Z * Z)) :
  forall a, contiguous (a :: l) -> well_formed (a :: l) ->
  fst a <= snd (last l a).
Proof.
  induction l as [|b l IH]; intros a Hc Hw.
  - cbn [last]. now inversion Hw.
  - destruct Hc as [Hab Hc]. inversion Hw as [|? ? Ha Hw']; subst.
    specialize (IH b Hc Hw').
    rewrite last_cons. lia.
Qed.

(** Windows that follow one another end to start hold a timestamp exactly
    when it lies between the first start and the last end. *)
Lemma in_contiguous_windows (ts : Z) (l : list (Z * Z)) :
  forall a, contiguous (a :: l) -> well_formed (a :: l) ->
  in_some_window ts (a :: l) = (fst a <=? ts) && (ts <? snd (last l a)).
Proof.
  induction l as [|b l IH]; intros [s e] Hc Hw.
  - cbn [in_some_window last fst snd].
    now destruct ((s <=? ts) && (ts <? e)).
  - destruct Hc as [Hab Hc]. inversion Hw as [|? ? Ha Hw']; subst.
    pose proof (well_formed_span l b Hc Hw') as Hspan.
    rewrite last_cons.
    change (in_some_window ts ((s, e) :: b :: l)) with
      (if (s <=? ts) && (ts <? e) then true else in_some_window ts (b :: l)).
    rewrite (IH b Hc Hw'). cbn [fst snd] in *.
    destruct (Z.leb_spec s ts); destruct (Z.ltb_spec ts e);
      destruct (Z.leb_spec (fst b) ts);
      destruct (Z.ltb_spec ts (snd (last l b))); cbn [andb]; try reflexivity;
      lia.
Qed.

Lemma last_day_interval (k : nat) :
  forall c d,
    last (map day_interval (days_from (c + 1) k)) d =
      match k with
      | O => d
      | S _ => day_interval (c + Z.of_nat k)
      end.
Proof.
  induction k as [|k IH]; intros c d; [reflexivity|].
  cbn [days_from map].
  rewrite last_cons.
  rewrite IH. destruct k as [|k]; f_equal; lia.
Qed.

Lemma well_formed_days (k : nat) :
  forall c,
    (forall d, c <= d < c + Z.of_nat k -> stamp d <= stamp (d + 1)) ->
    well_formed (map day_interval (days_from c k)).
Proof.
  induction k as [|k IH]; intros c H; [constructor|].
  cbn [days_from map]. constructor.
  - cbn [day_interval fst snd]. apply H. lia.
  - apply IH. intros d Hd. apply H. lia.
Qed.

Lemma day_windows_filter (from_date to_date : string) (a b : Z)
  (ws : list (Z * Z)) (trades : list pydict) :
  strptime_ymd from_date = Some a ->
  strptime_ymd to_date = Some b ->
  a <= b ->
  (forall c, a <= c <= b -> stamp c <= stamp (c + 1)) ->
  day_windows_local_to_utc from_date to_date = Some (Ok ws) ->
  filter_trades_by_windows trades ws =
    filter (between (stamp a) (stamp (b + 1))) trades.
Proof.
  intros Ha Hb Hab Hmono Hw.
  unfold day_windows_local_to_utc, parse_date_local in Hw.
  rewrite Ha, Hb in Hw.
  destruct (add_days b 1) as [end_|e] eqn:Ee; [|discriminate].
  apply add_days_inv in Ee as [-> _].
  apply windows_loop_result in Hw. cbn [app] in Hw. subst ws.
  rewrite (days_from_step a (b + 1)) by lia.
  cbn [map].
  set (k := Z.to_nat (b + 1 - (a + 1))).
  assert (Hc : contiguous (day_interval a :: map day_interval (days_from (a + 1) k))).
  { exact (contiguous_days (S k) a). }
  assert (Hwf : well_formed (day_interval a :: map day_interval (days_from (a + 1) k))).
  { apply (well_formed_days (S k) a). intros d Hd. apply Hmono. unfold k in Hd. lia. }
  induction trades as [|t trades IH];
    cbn [filter_trades_by_windows filter]; [reflexivity|].
  unfold between at 1.
  destruct (extract_ts_seconds t) as [ts|]; [|exact IH].
  rewrite (in_contiguous_windows ts _ _ Hc Hwf), last_day_interval.
  replace (snd match k with
               | O => day_interval a
               | S _ => day_interval (a + Z.of_nat k)
               end) with (stamp (b + 1)).
  - cbn [day_interval fst].
    destruct ((stamp a <=? ts) && (ts <? stamp (b + 1)));
      [now rewrite IH | exact IH].
  - destruct k as [|k'] eqn:Ek.
    + cbn [day_interval snd]. f_equal. unfold k in Ek. lia.
    + cbn [day_interval snd]. f_equal. unfold k in Ek. lia.
Qed.

(** X6. Filtering by the day windows of a range of dates keeps exactly the
    trades stamped from the local midnight that starts the first day up to,
    and not including, the local midnight that ends the last day, provided
    no local day of the range has a negative length. *)
Theorem filter_by_day_windows (from_date to_date : string) (a b : Z)
  (ws : list (Z * Z)) (trades : list pydict) :
  strptime_ymd from_date = Some a ->
  strptime_ymd to_date = Some b ->
  a <= b ->
  (forall c, a <= c <= b -> stamp c <= stamp (c + 1)) ->
  day_windows_local_to_utc from_date to_date = Some (Ok ws) ->
  filter_trades_by_windows trades ws =
    filter (between (stamp a) (stamp (b + 1))) trades.
Proof. exact (day_windows_filter from_date to_date a b ws trades). Qed.

(** ** The resolver, beyond the proxy and buyer/seller rules *)

Ltac split_ifs :=
  repeat (cbn [or_else];
          match goal with
          | |- context [if ?b then _ else _] => destruct b
          end).

(** X7. The resolver answers 0.0, the size of the trade, or the size
    negated: never another amount, whatever the record and the wallet are. *)
Theorem signed_quantity_values (n : NormalizedTrade) (wallet : string) :
  signed_quantity_for_wallet n wallet = fzero \/
  exists sz,
    size n = Some sz /\
    (signed_quantity_for_wallet n wallet = sz \/
     signed_quantity_for_wallet n wallet = float_neg sz).
Proof.
  unfold signed_quantity_for_wallet.
  destruct (size n) as [sz|]; [|now left].
  split_ifs; cbn [or_else]; try (now left);
    right; exists sz; (split; [reflexivity|]); auto.
Qed.

Lemma side_in_truthy (sd : pyval) (a b : string) :
  a <> ""%string -> b <> ""%string ->
  side_in sd a b = true -> truthy sd = true.
Proof.
  intros Ha Hb. destruct sd as [| | | |s| |]; cbn [side_in truthy];
    try discriminate.
  destruct (String.eqb_spec s a) as [->|_].
  - intros _. destruct (String.eqb_spec a ""); [contradiction | reflexivity].
  - destruct (String.eqb_spec s b) as [->|_]; [|discriminate].
    intros _. destruct (String.eqb_spec b ""); [contradiction | reflexivity].
Qed.

(** X8. The maker/taker rule: for a trade without user, buyer and seller,
    whose maker and taker are different addresses and whose size is not
    zero, the taker of a "buy" or "yes" gets [+size] and its maker [-size],
    the taker of a "sell" or "no" gets [-size] and its maker [+size], and
    with any other side both get 0.0. *)
Theorem maker_taker_rule (n : NormalizedTrade) (wm wt : string) (sz : float) :
  present (user n) = false ->
  present (buyer n) = false ->
  present (seller n) = false ->
  size n = Some sz ->
  float_truthy sz = true ->
  maker n = Some (py_lower wm) ->
  taker n = Some (py_lower wt) ->
  py_lower wm <> py_lower wt ->
  signed_quantity_for_wallet n wt =
    (if side_in (side n) "buy" "yes" then sz
     else if side_in (side n) "sell" "no" then float_neg sz
     else fzero) /\
  signed_quantity_for_wallet n wm =
    (if side_in (side n) "buy" "yes" then float_neg sz
     else if side_in (side n) "sell" "no" then sz
     else fzero).
Proof.
  intros Hu Hb Hs Hsz Hz Hm Ht Hne.
  assert (Hp : present (maker n) || present (taker n) = true).
  { rewrite Hm, Ht. cbn [present].
    destruct (String.eqb_spec (py_lower wm) "") as [E1|_]; [|reflexivity].
    destruct (String.eqb_spec (py_lower wt) "") as [E2|_]; [|reflexivity].
    congruence. }
  assert (Hmt : (py_lower wm =? py_lower wt)%string = false)
    by now apply String.eqb_neq.
  assert (Htm : (py_lower wt =? py_lower wm)%string = false)
    by (apply String.eqb_neq; congruence).
  unfold signed_quantity_for_wallet, or_else.
  rewrite Hsz, Hz, Hu, Hb, Hs, Hp, Hm, Ht. cbn [negb orb andb is_wallet].
  rewrite ?String.eqb_refl, ?Hmt, ?Htm.
  destruct (side_in (side n) "buy" "yes") eqn:Eb.
  { rewrite (side_in_truthy _ "buy" "yes" ltac:(discriminate)
               ltac:(discriminate) Eb).
    now split. }
  destruct (side_in (side n) "sell" "no") eqn:Es.
  { rewrite (side_in_truthy _ "sell" "no" ltac:(discriminate)
               ltac:(discriminate) Es).
    now split. }
  destruct (truthy (side n)); now split.
Qed.

(** ** Letter case *)


Lemma lower_lower_ascii (c : ascii) :
  lower_ascii (lower_ascii c) = lower_ascii c.
Proof.
  destruct c as [b0 b1 b2 b3 b4 b5 b6 b7].
  destruct b0, b1, b2, b3, b4, b5, b6, b7; reflexivity.
Qed.


Lemma py_lower_lower (s : string) : py_lower (py_lower s) = py_lower s.
Proof.
  unfold py_lower. induction s as [|c s IH]; cbn [map_string]; [reflexivity|].
  now rewrite lower_lower_ascii, IH.
Qed.





(** ** The normalizer *)

Lemma lower_or_none_lowercase (x : pyval) : lowercase (lower_or_none x).
Proof.
  unfold lower_or_none, lowercase. destruct (truthy x); [|exact I].
  apply py_lower_lower.
Qed.

Lemma normalize_side (t : pydict) (n : NormalizedTrade) :
  normalize_trade_record t = Ok n ->
  side n =
    match get t "side" ||| get t "type" ||| get t "action" ||| get t "outcome"
    with
    | PStr s => PStr (py_lower s)
    | v => v
    end.
Proof.
  unfold normalize_trade_record, bind.
  destruct (float_or_none (get t "price")); [|discriminate].
  destruct (float_or_none _); [|discriminate].
  intros [= <-]. cbn [side].
  now destruct (get t "side" ||| get t "type" ||| get t "action"
                  ||| get t "outcome").
Qed.

(** X10. Every address of a normalized record (user, maker, taker, buyer and
    seller) is in lower case, and so is its side when the side is a string:
    the resolver compares them with the lowercased wallet and with the
    lower-case words "buy", "yes", "sell" and "no". *)
Theorem normalized_in_lower_case (t : pydict) (n : NormalizedTrade) :
  normalize_trade_record t = Ok n ->
  lowercase (user n) /\ lowercase (maker n) /\ lowercase (taker n) /\
  lowercase (buyer n) /\ lowercase (seller n) /\
  (forall s, side n = PStr s -> py_lower s = s).
Proof.
  intros H. pose proof (normalize_side t n H) as Hs.
  apply normalize_fields in H as (_ & -> & -> & -> & -> & -> & _).
  repeat (split; [apply lower_or_none_lowercase|]).
  intros s E. rewrite E in Hs.
  destruct (get t "side" ||| get t "type" ||| get t "action"
              ||| get t "outcome"); try discriminate.
  injection Hs as ->. apply py_lower_lower.
Qed.

(** ** The aggregator *)

Section AssignFacts.
Context {K V : Type} (keq : K -> K -> bool).
Hypothesis keq_refl : forall k, keq k k = true.

Lemma assign_keys (d : list (K * V)) (k : K) (v v' : V) :
  lookup keq d k = Some v -> map fst (assign keq d k v') = map fst d.
Proof.
  induction d as [|[k0 v0] d IH]; cbn; [discriminate|].
  destruct (keq k0 k); [reflexivity|].
  intros H. cbn. now rewrite IH.
Qed.

Lemma lookup_none_fresh (d : list (K * V)) (k : K) :
  lookup keq d k = None -> ~ In k (map fst d).
Proof.
  induction d as [|[k0 v0] d IH]; cbn; [tauto|].
  destruct (keq k0 k) eqn:E; [discriminate|].
  intros H [->|Hin]; [now rewrite keq_refl in E | now apply IH].
Qed.

Lemma assign_sum (f : V -> Z) (d : list (K * V)) (k : K) (v : V) :
  sum_Z (map (fun kv => f (snd kv)) (assign keq d k v)) =
    sum_Z (map (fun kv => f (snd kv)) d) + f v -
      match lookup keq d k with
      | Some v0 => f v0
      | None => 0
      end.
Proof.
  induction d as [|[k0 v0] d IH]; cbn; [lia|].
  destruct (keq k0 k); cbn; [lia|].
  unfold sum_Z in IH. rewrite IH. lia.
Qed.

End AssignFacts.

Lemma NoDup_snoc {A : Type} (l : list A) (a : A) :
  NoDup l -> ~ In a l -> NoDup (l ++ [a]).
Proof.
  induction 1 as [|x l Hx Hl IH]; cbn; intros Ha.
  - constructor; [tauto | constructor].
  - constructor.
    + rewrite in_app_iff. cbn. intros [H|[H|[]]]; [tauto | subst; tauto].
    + apply IH. tauto.
Qed.

Lemma bucket_key_eqb_refl (k : bucket_key) : bucket_key_eqb k k = true.
Proof. unfold bucket_key_eqb. now rewrite !String.eqb_refl. Qed.

Lemma bucket_key_eqb_eq (a b : bucket_key) :
  bucket_key_eqb a b = true -> a = b.
Proof.
  destruct a as [a1 a2], b as [b1 b2]. unfold bucket_key_eqb. cbn [fst snd].
  destruct (String.eqb_spec a1 b1); destruct (String.eqb_spec a2 b2);
    cbn [andb]; try discriminate.
  now subst.
Qed.

Lemma assign_keys_agree (bucket : buckets) (k : bucket_key) (b : Bucket) :
  keys_agree bucket ->
  k = (b_market_id b, b_outcome_id b) ->
  keys_agree (assign bucket_key_eqb bucket k b).
Proof.
  unfold keys_agree. intros Hd Hk.
  induction Hd as [|[k0 b0] d Hx Hd IH]; cbn [assign].
  - constructor; [exact Hk | constructor].
  - destruct (bucket_key_eqb k0 k) eqn:E.
    + apply bucket_key_eqb_eq in E. subst k0.
      constructor; [exact Hk | exact Hd].
    + constructor; [exact Hx | exact IH].
Qed.

Lemma aggregate_step_keys (wallet : string) (bucket bucket' : buckets)
  (t : pydict) :
  NoDup (map fst bucket) /\ keys_agree bucket ->
  aggregate_step wallet bucket t = Ok bucket' ->
  NoDup (map fst bucket') /\ keys_agree bucket'.
Proof.
  unfold aggregate_step, bind. intros [Hn Hk].
  destruct (normalize_trade_record t) as [n|e]; [|discriminate].
  destruct (negb (truthy (market_id n)) || negb (truthy (outcome_id n)));
    [now intros [= <-]|].
  destruct (float_eqb (signed_quantity_for_wallet n wallet) fzero);
    [now intros [= <-]|].
  intros [= <-].
  set (key := (py_str (market_id n), py_str (outcome_id n))).
  destruct (lookup bucket_key_eqb bucket key) as [b|] eqn:Hl.
  - split.
    + now rewrite (assign_keys bucket_key_eqb bucket key b _ Hl).
    + apply assign_keys_agree; [exact Hk|]. cbn.
      apply lookup_In in Hl as [k' [Hin Hkk]].
      apply bucket_key_eqb_eq in Hkk. subst k'.
      unfold keys_agree in Hk. rewrite Forall_forall in Hk.
      exact (Hk _ Hin).
  - split.
    + rewrite assign_fresh by exact Hl. rewrite map_app. cbn [map fst].
      apply NoDup_snoc; [exact Hn|].
      exact (lookup_none_fresh bucket_key_eqb bucket_key_eqb_refl bucket key Hl).
    + apply assign_keys_agree; [exact Hk | reflexivity].
Qed.

Lemma aggregate_loop_keys (wallet : string) (trades : list pydict) :
  forall bucket bucket',
    NoDup (map fst bucket) /\ keys_agree bucket ->
    aggregate_loop wallet trades bucket = Ok bucket' ->
    NoDup (map fst bucket') /\ keys_agree bucket'.
Proof.
  induction trades as [|t trades IH]; cbn [aggregate_loop]; intros b b' Hb.
  - now intros [= <-].
  - unfold bind. destruct (aggregate_step wallet b t) as [b1|e] eqn:E;
      [|discriminate].
    apply IH. exact (aggregate_step_keys wallet b b1 t Hb E).
Qed.

Lemma finalize_all_keys (items : buckets) :
  forall out,
    finalize_all items = Ok out ->
    map position_key out =
      map (fun kb => (b_market_id (snd kb), b_outcome_id (snd kb))) items.
Proof.
  induction items as [|[k rec] items IH]; cbn [finalize_all]; intros out.
  - now intros [= <-].
  - unfold bind, finalize.
    destruct (float_of_Z (Z.max (fills rec) 1)); [|discriminate].
    destruct (finalize_all items) as [out'|e]; [|discriminate].
    intros [= <-]. cbn. f_equal. now apply IH.
Qed.

(** X11. The aggregator returns one position per market and outcome: no two
    of the positions it returns have the same market id and outcome id. *)
Theorem one_position_per_outcome (trades : list pydict) (wallet : string)
  (out : list Position) :
  aggregate_delta_for_wallet trades wallet = Ok out ->
  NoDup (map position_key out).
Proof.
  unfold aggregate_delta_for_wallet, bind.
  destruct (aggregate_loop wallet trades []) as [bucket|e] eqn:E;
    [|discriminate].
  intros Hf. apply finalize_all_keys in Hf. rewrite Hf.
  destruct (aggregate_loop_keys wallet trades [] bucket) as [Hn Hk];
    [split; constructor | exact E |].
  replace (map (fun kb : bucket_key * Bucket =>
                  (b_market_id (snd kb), b_outcome_id (snd kb))) bucket)
    with (map fst bucket); [exact Hn|].
  unfold keys_agree in Hk. clear -Hk.
  induction Hk as [|kb d Hx Hd IH]; cbn [map]; [reflexivity|].
  f_equal; [exact Hx | exact IH].
Qed.

Lemma aggregate_step_fills (wallet : string) (bucket bucket' : buckets)
  (t : pydict) :
  aggregate_step wallet bucket t = Ok bucket' ->
  total_fills bucket' =
    total_fills bucket + (if counted wallet t then 1 else 0).
Proof.
  unfold aggregate_step, bind, counted.
  destruct (normalize_trade_record t) as [n|e]; [|discriminate].
  destruct (truthy (market_id n)); cbn [negb orb andb];
    [|intros [= <-]; lia].
  destruct (truthy (outcome_id n)); cbn [negb orb andb];
    [|intros [= <-]; lia].
  destruct (float_eqb (signed_quantity_for_wallet n wallet) fzero);
    cbn [negb]; [intros [= <-]; lia|].
  intros [= <-]. unfold total_fills.
  rewrite (assign_sum bucket_key_eqb fills).
  destruct (lookup bucket_key_eqb bucket _); cbn [fills]; lia.
Qed.

Lemma aggregate_loop_fills (wallet : string) (trades : list pydict) :
  forall bucket bucket',
    aggregate_loop wallet trades bucket = Ok bucket' ->
    total_fills bucket' =
      total_fills bucket +
        Z.of_nat (List.length (filter (counted wallet) trades)).
Proof.
  induction trades as [|t trades IH]; cbn [aggregate_loop filter];
    intros b b'.
  - intros [= <-]. cbn. lia.
  - unfold bind. destruct (aggregate_step wallet b t) as [b1|e] eqn:E;
      [|discriminate].
    intros H. apply IH in H. apply aggregate_step_fills in E.
    destruct (counted wallet t); cbn [List.length] in *; lia.
Qed.

Lemma aggregate_fills (trades : list pydict) (wallet : string)
  (out : list Position) :
  aggregate_delta_for_wallet trades wallet = Ok out ->
  sum_Z (map p_fills out) =
    Z.of_nat (List.length (filter (counted wallet) trades)).
Proof.
  unfold aggregate_delta_for_wallet, bind.
  destruct (aggregate_loop wallet trades []) as [bucket|e] eqn:E;
    [|discriminate].
  intros Hf. apply finalize_all_fills in Hf. rewrite Hf.
  apply aggregate_loop_fills in E. unfold total_fills in E. cbn in E.
  exact E.
Qed.

(** X12. The fills of the positions the aggregator returns add up to the
    number of trades it counted: the trades that name a market and an
    outcome and give the wallet a quantity other than zero. No trade is
    counted twice and none of these is lost. *)
Theorem fills_count_trades (trades : list pydict) (wallet : string)
  (out : list Position) :
  aggregate_delta_for_wallet trades wallet = Ok out ->
  sum_Z (map p_fills out) =
    Z.of_nat (List.length (filter (counted wallet) trades)).
Proof. exact (aggregate_fills trades wallet out). Qed.

Lemma aggregate_step_total (wallet : string) (bucket : buckets) (t : pydict)
  (n : NormalizedTrade) :
  normalize_trade_record t = Ok n ->
  exists bucket', aggregate_step wallet bucket t = Ok bucket'.
Proof.
  intros H. unfold aggregate_step, bind. rewrite H.
  destruct (negb (truthy (market_id n)) || negb (truthy (outcome_id n)));
    [now eexists|].
  destruct (float_eqb (signed_quantity_for_wallet n wallet) fzero);
    now eexists.
Qed.

(** X13. One record the normalizer rejects ends the aggregation: when the
    first record whose price or size [float] refuses raises [e], the
    aggregator raises [e] and returns no position, whatever the other
    records hold and whether or not the record concerns the wallet. *)
Theorem bad_record_aborts (before after : list pydict) (t : pydict)
  (e : exn) (wallet : string) :
  Forall (fun t0 => exists n, normalize_trade_record t0 = Ok n) before ->
  normalize_trade_record t = Raise e ->
  aggregate_delta_for_wallet (before ++ t :: after) wallet = Raise e.
Proof.
  intros Hb Ht. unfold aggregate_delta_for_wallet.
  assert (H : forall bucket,
             aggregate_loop wallet (before ++ t :: after) bucket = Raise e).
  { induction Hb as [|t0 before [n Hn] Hb IH]; intros bucket;
      cbn [app aggregate_loop].
    - unfold aggregate_step, bind. now rewrite Ht.
    - destruct (aggregate_step_total wallet bucket t0 n Hn) as [b1 E].
      rewrite E. cbn [bind]. apply IH. }
  now rewrite H.
Qed.

(** ** The fee of one transaction *)

Ltac record_facts :=
  cbn; repeat split; intros; try discriminate; try tauto; try congruence;
  eauto 6.

(** X14. The record [compute_fee] returns is consistent: its note is one of
    "no_receipt", "effectiveGasPrice", "fallback_gasPrice" and
    "no_price_found"; its [feeWei] is [gasUsed * gasPrice] when it holds
    both numbers and [None] otherwise; its [feeMATIC] is missing exactly
    when [feeWei] is; the note is "effectiveGasPrice" exactly when the
    receipt gave such a price; and under the note "fallback_gasPrice" the
    price is a number other than zero. *)
Theorem compute_fee_record (tx : pyval) (s s' : env) (fee : FeeRecord) :
  compute_fee tx s = (Ok fee, s') ->
  In (note fee)
    ["no_receipt"; "effectiveGasPrice"; "fallback_gasPrice";
     "no_price_found"]%string /\
  feeWei fee =
    match gasUsed fee, gasPrice fee with
    | Some g, Some p => Some (g * p)
    | _, _ => None
    end /\
  (feeMATIC fee = None <-> feeWei fee = None) /\
  (effectiveGasPrice fee <> None <-> note fee = "effectiveGasPrice"%string) /\
  (note fee = "fallback_gasPrice"%string ->
   exists p, gasPrice fee = Some p /\ p <> 0).
Proof.
  clear float_of_string utcoffset. destruct s as [w log].
  unfold compute_fee, mbind, call_receipt, call_tx, lift, ret, wei_to_matic.
  destruct (get_tx_receipt tx w) as [[rv|e] w1]; [|discriminate].
  destruct (truthy rv); cbn [negb]; [|intros [= <- <-]; record_facts].
  destruct (as_dict rv) as [rc|e]; [|discriminate].
  destruct (hex_to_int (get rc "effectiveGasPrice")) as [p|] eqn:Ee.
  { destruct (hex_to_int (get rc "gasUsed")) as [g|];
      [destruct (float_of_Z (g * p)); [|discriminate]|];
      intros [= <- <-]; record_facts. }
  destruct (get_tx_data tx w1) as [[tv|e] w2]; [|discriminate].
  destruct (truthy tv).
  - destruct (as_dict tv) as [d|e]; [|discriminate].
    destruct (hex_to_int (get d "gasPrice")) as [p|]; cbn [int_truthy];
      [destruct (Z.eqb_spec p 0); cbn [negb]|];
      (destruct (hex_to_int (get rc "gasUsed")) as [g|];
       [try (destruct (float_of_Z _); [|discriminate])|]);
      intros [= <- <-]; record_facts.
  - cbn [int_truthy].
    destruct (hex_to_int (get rc "gasUsed")) as [g|];
      intros [= <- <-]; record_facts.
Qed.

Lemma snoc_one_two {A : Type} (l : list A) (a b : A) :
  l ++ [a] <> l ++ [a; b].
Proof. intros H. apply app_inv_head in H. discriminate. Qed.

(** X15. One computation of a fee asks for the receipt, once, and asks for
    the transaction, once and after the receipt, only when the receipt is an
    object without a readable [effectiveGasPrice]; it calls nothing else,
    whether it returns or raises. *)
Theorem compute_fee_calls (tx : pyval) (w w' : World) (log log' : list fetch)
  (r : result FeeRecord) :
  compute_fee tx (w, log) = (r, (w', log')) ->
  (log' = log ++ [FetchReceipt tx] \/
   log' = log ++ [FetchReceipt tx; FetchTx tx]) /\
  (log' = log ++ [FetchReceipt tx; FetchTx tx] ->
   exists rc w1,
     get_tx_receipt tx w = (Ok (PDict rc), w1) /\
     rc <> [] /\
     hex_to_int (get rc "effectiveGasPrice") = None).
Proof.
  unfold compute_fee, mbind, call_receipt, call_tx, lift, ret.
  destruct (get_tx_receipt tx w) as [[rv|e] w1] eqn:Er;
    [|intros [= _ _ <-]; split; [now left|];
      intros H; now apply snoc_one_two in H].
  destruct (truthy rv) eqn:Et; cbn [negb];
    [|intros [= _ _ <-]; split; [now left|];
      intros H; now apply snoc_one_two in H].
  destruct rv as [| | | | | |rc]; cbn [as_dict];
    try (intros [= _ _ <-]; split; [now left|];
         intros H; now apply snoc_one_two in H).
  destruct (hex_to_int (get rc "effectiveGasPrice")) as [p|] eqn:Ee.
  { destruct (hex_to_int (get rc "gasUsed")) as [g|];
      [destruct (wei_to_matic (Some (g * p)))|];
      intros [= _ _ <-]; (split; [now left|]);
      intros H; now apply snoc_one_two in H. }
  assert (Hrc : rc <> []) by (intros ->; discriminate).
  intros H. split.
  - right. rewrite <- app_assoc in H. cbn [app] in H.
    destruct (get_tx_data tx w1) as [[tv|e] w2]; [|now injection H as _ _ <-].
    destruct (truthy tv);
      [destruct (as_dict tv) as [d|e]; [|now injection H as _ _ <-]|];
      repeat match type of H with
             | context [match ?x with _ => _ end] => destruct x
             end;
      now injection H as _ _ <-.
  - intros _. now exists rc, w1.
Qed.

(** X16. A reply that is text where a receipt was expected, as Etherscan
    sends when it refuses a request, raises inside [compute_fee]; the cache
    step absorbs it like a failed call: the hash gets the record of the
    error, whose note starts with "error:", and the transaction is not asked
    for. *)
Theorem text_receipt_is_an_error (cache : list (pyval * FeeRecord))
  (tx : pyval) (w w' : World) (log : list fetch) (text : string) :
  hashable tx = true ->
  lookup key_eqb cache tx = None ->
  text <> ""%string ->
  get_tx_receipt tx w = (Ok (PStr text), w') ->
  let e := Exn AttributeError "'str' object has no attribute 'get'" in
  fee_for cache tx (w, log) =
    (Ok (error_record e, cache ++ [(tx, error_record e)]),
     (w', log ++ [FetchReceipt tx])).
Proof.
  intros Hh Hl Hne Hr e. apply fee_for_absorbs; [exact Hh | exact Hl |].
  unfold compute_fee, mbind, call_receipt, lift. rewrite Hr.
  cbn [truthy]. destruct (String.eqb_spec text ""); [contradiction|].
  reflexivity.
Qed.

(** ** The rows and the totals of the fee report *)

Lemma main_step_totals (matic_price : float) (st st' : MainState)
  (m : pydict) (s s' : env) :
  main_step matic_price st m s = (Ok st', s') ->
  exists row,
    enriched st' = enriched st ++ [row] /\ row_base row = m /\
    tx_count st' = tx_count st + (if has_fee row then 1 else 0) /\
    total_matic st' = add_fee (total_matic st) row /\
    total_usdc st' = add_fee_usdc (total_usdc st) row.
Proof.
  unfold main_step. destruct (truthy (merge_tx m)); cbn [negb].
  - unfold mbind.
    destruct (fee_for (tx_cache st) (merge_tx m) s) as [[[fee cache]|e] s1];
      [|discriminate].
    rewrite safe_float_val. unfold ret.
    destruct (feeMATIC fee) as [f|]; intros [= <- <-]; eexists;
      (split; [reflexivity|]); cbn; repeat split; lia.
  - unfold ret. intros [= <- <-]. eexists.
    split; [reflexivity|]. cbn. repeat split; lia.
Qed.

Lemma main_loop_totals (matic_price : float) (merges : list pydict) :
  forall st st' s s',
    main_loop matic_price merges st s = (Ok st', s') ->
    exists rows,
      enriched st' = enriched st ++ rows /\
      map row_base rows = merges /\
      tx_count st' =
        tx_count st + Z.of_nat (List.length (filter has_fee rows)) /\
      total_matic st' = fold_left add_fee rows (total_matic st) /\
      total_usdc st' = fold_left add_fee_usdc rows (total_usdc st).
Proof.
  induction merges as [|m merges IH]; intros st st' s s'; cbn [main_loop].
  - unfold ret. intros [= <- <-]. exists []. rewrite app_nil_r.
    cbn. repeat split; lia.
  - unfold mbind.
    destruct (main_step matic_price st m s) as [[st1|e] s1] eqn:Es;
      [|discriminate].
    intros H. apply IH in H as (rows & He & Hb & Hc & Hm & Hu).
    apply main_step_totals in Es as (row & He1 & Hb1 & Hc1 & Hm1 & Hu1).
    exists (row :: rows).
    split; [rewrite He, He1, <- app_assoc; reflexivity|].
    split; [cbn [map]; now rewrite Hb1, Hb|].
    cbn [filter fold_left]. rewrite <- Hm1, <- Hu1.
    repeat split; try assumption.
    rewrite Hc, Hc1. destruct (has_fee row); cbn [List.length]; lia.
Qed.

(** X17. A run of the loop that ends writes one row per merge, in the order
    of the merges, and each row carries the fields of its merge: no merge is
    dropped, with or without a hash, repeated or reordered. *)
Theorem one_row_per_merge (matic_price : float) (merges : list pydict)
  (st : MainState) (s s' : env) :
  main_loop matic_price merges init_state s = (Ok st, s') ->
  map row_base (enriched st) = merges.
Proof.
  intros H. apply main_loop_totals in H as (rows & He & Hb & _).
  now rewrite He.
Qed.

(** X18. The summary agrees with the rows: the count of "transactions with
    fee" is the number of rows that carry a fee, and the two totals are the
    sums, in row order, of the fee columns of those rows. A transaction
    behind several merges is counted, and its fee added, once for each of
    them. *)
Theorem totals_are_column_sums (matic_price : float) (merges : list pydict)
  (st : MainState) (s s' : env) :
  main_loop matic_price merges init_state s = (Ok st, s') ->
  tx_count st = Z.of_nat (List.length (filter has_fee (enriched st))) /\
  total_matic st = fold_left add_fee (enriched st) fzero /\
  total_usdc st = fold_left add_fee_usdc (enriched st) fzero.
Proof.
  intros H. apply main_loop_totals in H as (rows & He & _ & Hc & Hm & Hu).
  cbn in He. subst rows. repeat split; assumption.
Qed.



(** ** The pages of the activity feed *)

Section ActivityFacts.

Variable get_activity : string -> Z -> Z -> World -> result pyval * World.

Lemma items_nonempty (data : pyval) (l : list pyval) :
  truthy data = true -> items data = Ok l -> l <> [].
Proof.
  destruct data as [| | | |s|l0|d]; cbn [items truthy]; try discriminate.
  - destruct s; [discriminate|]. intros _ [= <-]. discriminate.
  - destruct l0; [discriminate|]. intros _ [= <-]. discriminate.
  - destruct d; [discriminate|]. intros _ [= <-]. discriminate.
Qed.

Lemma increasing_snoc (l : list Z) (x : Z) :
  increasing l -> Forall (fun c => c < x) l -> increasing (l ++ [x]).
Proof.
  induction l as [|a l IH]; intros Hi Hf; [exact I|].
  destruct l as [|b l].
  - cbn. inversion Hf; subst. auto.
  - destruct Hi as [Hab Hi]. inversion Hf as [|? ? Ha Hf']; subst.
    cbn [app increasing]. split; [exact Hab|]. apply IH; assumption.
Qed.

Lemma activity_loop_calls (user : string) (limit : Z) (pages : nat) :
  forall out offset w calls,
    increasing calls -> Forall (fun c => c < offset) calls ->
    let calls' :=
      snd (snd (activity_loop get_activity user limit pages out offset w calls))
    in
    (List.length calls' <= List.length calls + pages)%nat /\
    increasing calls' /\
    exists more, calls' = calls ++ more.
Proof.
  induction pages as [|pages IH]; intros out offset w calls Hi Hf;
    cbn [activity_loop].
  - cbn. split; [lia|]. split; [exact Hi|]. exists []. now rewrite app_nil_r.
  - assert (Hs : (List.length (calls ++ [offset]) <=
                    List.length calls + S pages)%nat /\
                 increasing (calls ++ [offset]) /\
                 exists more, calls ++ [offset] = calls ++ more).
    { split; [rewrite length_app; cbn; lia|].
      split; [now apply increasing_snoc | now eexists]. }
    destruct (get_activity user limit offset w) as [[data|e] w1];
      [|exact Hs].
    destruct (truthy data) eqn:Et; cbn [negb]; [|exact Hs].
    destruct (items data) as [l|e] eqn:El; [|exact Hs].
    destruct (Z.of_nat (List.length l) <? limit); [exact Hs|].
    pose proof (items_nonempty data l Et El) as Hne.
    assert (Hlen : 0 < Z.of_nat (List.length l))
      by (destruct l; [contradiction | cbn [List.length]; lia]).
    destruct (IH (out ++ l) (offset + Z.of_nat (List.length l)) w1
                (calls ++ [offset])) as (H1 & H2 & more & H3).
    + now apply increasing_snoc.
    + apply Forall_app. split.
      * eapply Forall_impl; [|exact Hf]. cbn. intros; lia.
      * constructor; [lia | constructor].
    + cbv zeta. split; [rewrite length_app in H1; cbn in H1; lia|].
      split; [exact H2|]. exists (offset :: more).
      rewrite H3, <- app_assoc. reflexivity.
Qed.

(** X20. [fetch_merged_activity] asks for at most [max_pages] pages, none
    when [max_pages] is zero or negative; the first offset it asks for is 0
    and every other one is larger than the one before it, so no page is
    asked for twice, whatever the feed answers. *)
Theorem activity_pages_bounded (user : string) (limit max_pages : Z)
  (w : World) :
  let calls :=
    snd (snd (fetch_merged_activity get_activity user limit max_pages w)) in
  (List.length calls <= Z.to_nat max_pages)%nat /\
  increasing calls /\
  (calls = [] \/ hd_error calls = Some 0).
Proof.
  unfold fetch_merged_activity.
  destruct (activity_loop_calls user (Z.min limit 500) (Z.to_nat max_pages)
              [] 0 w [] I (Forall_nil _)) as (H1 & H2 & _).
  cbv zeta. split; [exact H1|]. split; [exact H2|].
  destruct (Z.to_nat max_pages) as [|pages]; [now left|].
  cbn [activity_loop].
  destruct (get_activity user (Z.min limit 500) 0 w) as [[data|e] w1];
    [|now right].
  destruct (truthy data) eqn:Et; cbn [negb]; [|now right].
  destruct (items data) as [l|e] eqn:El; [|now right].
  destruct (Z.of_nat (List.length l) <? Z.min limit 500); [now right|].
  pose proof (items_nonempty data l Et El) as Hne.
  destruct (activity_loop_calls user (Z.min limit 500) pages ([] ++ l)
              (0 + Z.of_nat (List.length l)) w1 ([] ++ [0]))
    as (_ & _ & more & H3).
  - exact I.
  - constructor; [|constructor].
    destruct l; [contradiction | cbn [List.length]; lia].
  - right. rewrite H3. reflexivity.
Qed.

Lemma firstn_add_skipn {A : Type} (k n : nat) :
  forall l : list A, firstn k l ++ firstn n (skipn k l) = firstn (k + n) l.
Proof.
  induction k as [|k IH]; intros l; [reflexivity|].
  destruct l as [|a l]; [now rewrite !firstn_nil|].
  cbn [firstn skipn app Nat.add]. now rewrite IH.
Qed.

Lemma activity_loop_serves (all : list pyval) (user : string) (limit : Z)
  (pages : nat) :
  0 < limit -> serves get_activity all user limit ->
  forall k w calls,
    (k <= List.length all)%nat ->
    Z.of_nat (List.length all) - Z.of_nat k < limit * Z.of_nat pages ->
    fst (activity_loop get_activity user limit pages (firstn k all)
           (Z.of_nat k) w calls) = Ok all.
Proof.
  intros Hl Hs. induction pages as [|pages IH]; intros k w calls Hk Hp;
    cbn [activity_loop]; [lia|].
  rewrite Hs, Nat2Z.id.
  set (page := firstn (Z.to_nat limit) (skipn k all)).
  assert (Hlen : List.length page =
                 Nat.min (Z.to_nat limit) (List.length all - k)).
  { unfold page. now rewrite length_firstn, length_skipn. }
  assert (Hout : firstn k all ++ page = firstn (k + Z.to_nat limit) all)
    by apply firstn_add_skipn.
  clearbody page. destruct page as [|a page']; cbn [truthy negb items].
  - cbn [fst]. f_equal. apply firstn_all2. cbn [List.length] in Hlen. lia.
  - destruct (Z.ltb_spec (Z.of_nat (List.length (a :: page'))) limit)
      as [Hshort|Hfull].
    + cbn [fst]. f_equal. rewrite Hout. apply firstn_all2. lia.
    + rewrite Hout.
      replace (Z.of_nat k + Z.of_nat (List.length (a :: page')))
        with (Z.of_nat (k + Z.to_nat limit)) by lia.
      apply IH; lia.
Qed.

(** X21. Against a feed that serves a fixed list in pages, and with pages
    enough to hold it ([len(all) < min(limit, 500) * max_pages]),
    [fetch_merged_activity] returns the whole list, in order and without a
    repeat or a gap. *)
Theorem activity_pages_complete (all : list pyval) (user : string)
  (limit max_pages : Z) (w : World) :
  0 < limit ->
  serves get_activity all user (Z.min limit 500) ->
  Z.of_nat (List.length all) < Z.min limit 500 * max_pages ->
  fst (fetch_merged_activity get_activity user limit max_pages w) = Ok all.
Proof.
  intros Hl Hs Hp. unfold fetch_merged_activity.
  apply (activity_loop_serves all user (Z.min limit 500) (Z.to_nat max_pages)
           ltac:(lia) Hs 0%nat w []); [lia|].
  rewrite Z2Nat.id by nia. lia.
Qed.

End ActivityFacts.

(** ** Marking to market *)

(** X22. [mark_to_market] keeps every position, in order and unchanged; a
    position whose market the price map lacks, or whose outcome the prices
    of its market lack, is kept too, with NaN as its price and as its value. *)
Theorem unpriced_positions_are_kept (rows : list Position)
  (prices : price_map) :
  map position (mark_to_market rows prices) = rows /\
  forall x,
    In x (mark_to_market rows prices) ->
    match lookup String.eqb prices (p_market_id (position x)) with
    | None => True
    | Some pm => lookup String.eqb pm (p_outcome_id (position x)) = None
    end ->
    isnan (current_price x) = true /\ isnan (mark_value x) = true.
Proof.
  split.
  - induction rows as [|r rows IH]; cbn [mark_to_market map];
      [reflexivity | now rewrite IH].
  - induction rows as [|r rows IH]; cbn [mark_to_market]; intros x;
      [intros []|].
    intros [<-|Hin]; [|now apply IH].
    unfold mark_row. cbn [position current_price mark_value].
    destruct (lookup String.eqb prices (p_market_id r)) as [pm|].
    + intros ->. now split.
    + now split.
Qed.

(** ** The date filter in front of the aggregator *)

Lemma filter_filter {A : Type} (f g : A -> bool) (l : list A) :
  filter f (filter g l) = filter (fun x => g x && f x) l.
Proof.
  induction l as [|a l IH]; cbn [filter]; [reflexivity|].
  destruct (g a); cbn [filter andb]; [|exact IH].
  destruct (f a); now rewrite IH.
Qed.

(** X23. The two steps of the report composed: the positions of a wallet
    over the day windows of a range of dates have, together, as many fills
    as there are trades that are stamped inside the range and counted for
    the wallet. *)
Theorem dated_fills_count (from_date to_date : string) (a b : Z)
  (ws : list (Z * Z)) (trades : list pydict) (wallet : string)
  (out : list Position) :
  strptime_ymd from_date = Some a ->
  strptime_ymd to_date = Some b ->
  a <= b ->
  (forall c, a <= c <= b -> stamp c <= stamp (c + 1)) ->
  day_windows_local_to_utc from_date to_date = Some (Ok ws) ->
  aggregate_delta_for_wallet (filter_trades_by_windows trades ws) wallet =
    Ok out ->
  sum_Z (map p_fills out) =
    Z.of_nat
      (List.length
         (filter (fun t => between (stamp a) (stamp (b + 1)) t &&
                           counted wallet t) trades)).
Proof.
  intros Ha Hb Hab Hm Hw Hagg.
  rewrite <- filter_filter.
  rewrite <- (day_windows_filter from_date to_date a b ws trades
                Ha Hb Hab Hm Hw).
  now apply aggregate_fills.
Qed.

(** ** The statistics of the wallets *)

(** What one [add_agg] does to the counters of its wallet. *)
Lemma add_agg_stats (agg agg' : wallet_agg) (wallet : pyval)
  (role : option string) (size price : float) (side : pyval) :
  add_agg agg wallet role size price side = Ok agg' ->
  exists a,
    agg' = assign key_eqb agg wallet a /\
    hashable wallet = true /\
    let a0 := match lookup key_eqb agg wallet with
              | Some a0 => a0
              | None => zero_stats
              end in
    a_trades a = a_trades a0 + 1 /\
    a_trades_maker a =
      a_trades_maker a0 + (if role_is role "maker" then 1 else 0) /\
    a_trades_taker a =
      a_trades_taker a0 +
        (if negb (role_is role "maker") && role_is role "taker" then 1 else 0) /\
    a_buy_count a <= a_buy_count a0 + 1 /\ a_buy_count a0 <= a_buy_count a /\
    a_sell_count a <= a_sell_count a0 + 1 /\ a_sell_count a0 <= a_sell_count a /\
    a_buy_count a + a_sell_count a <= a_buy_count a0 + a_sell_count a0 + 1.
Proof.
  unfold add_agg. destruct (hashable wallet); cbn [negb]; [|discriminate].
  intros [= <-]. eexists. split; [reflexivity|]. split; [reflexivity|].
  cbv zeta. cbn [a_trades a_trades_maker a_trades_taker a_buy_count
                 a_sell_count].
  generalize (contains "buy" (py_lower (py_str side)) ||
              (py_lower (py_str side) =? "yes")%string) as b1.
  generalize (contains "sell" (py_lower (py_str side)) ||
              (py_lower (py_str side) =? "no")%string) as b2.
  intros b2 b1.
  destruct (role_is role "maker"), (role_is role "taker"), (truthy side),
    b1, b2; cbn [negb andb]; lia.
Qed.

Lemma lookup_total (f : WalletStats -> Z) (agg : wallet_agg) (k : pyval)
  (a : WalletStats) :
  total_of f (assign key_eqb agg k a) =
    total_of f agg + f a -
      match lookup key_eqb agg k with
      | Some a0 => f a0
      | None => 0
      end.
Proof. unfold total_of. apply assign_sum. Qed.

Lemma total_of_nil (f : WalletStats -> Z) : total_of f [] = 0.
Proof. reflexivity. Qed.

Lemma add_agg_totals (agg agg' : wallet_agg) (wallet : pyval)
  (role : option string) (size price : float) (side : pyval) :
  add_agg agg wallet role size price side = Ok agg' ->
  total_of a_trades agg' = total_of a_trades agg + 1 /\
  total_of a_trades_maker agg' =
    total_of a_trades_maker agg + (if role_is role "maker" then 1 else 0) /\
  total_of a_trades_taker agg' =
    total_of a_trades_taker agg +
      (if negb (role_is role "maker") && role_is role "taker" then 1 else 0).
Proof.
  intros H. apply add_agg_stats in H as (a & -> & _ & H). cbv zeta in H.
  destruct H as (Ht & Hm & Hk & _).
  rewrite !lookup_total, Ht, Hm, Hk.
  destruct (lookup key_eqb agg wallet); cbn; lia.
Qed.

Lemma add_agg_consistent (agg agg' : wallet_agg) (wallet : pyval)
  (role : option string) (size price : float) (side : pyval) :
  Forall (fun kv => consistent (snd kv)) agg ->
  add_agg agg wallet role size price side = Ok agg' ->
  Forall (fun kv => consistent (snd kv)) agg'.
Proof.
  intros Hc H. apply add_agg_stats in H as (a & -> & _ & H). cbv zeta in H.
  apply assign_Forall; [exact Hc|].
  destruct (lookup key_eqb agg wallet) as [a0|] eqn:Hl.
  - apply lookup_In in Hl as [k' [Hin _]].
    rewrite Forall_forall in Hc. specialize (Hc _ Hin). cbn [snd] in Hc.
    unfold consistent in *.
    destruct (role_is role "maker"), (role_is role "taker");
      cbn [negb andb] in H; lia.
  - unfold consistent. cbn in H.
    destruct (role_is role "maker"), (role_is role "taker");
      cbn [negb andb] in H; lia.
Qed.

Lemma wallets_step_consistent (single_key : option string)
  (agg agg' : wallet_agg) (t : pydict) :
  Forall (fun kv => consistent (snd kv)) agg ->
  wallets_step single_key agg t = Ok agg' ->
  Forall (fun kv => consistent (snd kv)) agg'.
Proof.
  intros Hc. unfold wallets_step, bind.
  destruct (has_key t "maker" && has_key t "taker").
  - destruct (truthy (get t "maker")).
    + destruct (add_agg agg _ _ _ _ _) as [agg1|e] eqn:E1; [|discriminate].
      apply (add_agg_consistent _ _ _ _ _ _ _ Hc) in E1.
      destruct (truthy (get t "taker")).
      * now apply add_agg_consistent.
      * now intros [= <-].
    + destruct (truthy (get t "taker")).
      * now apply add_agg_consistent.
      * now intros [= <-].
  - destruct (present single_key && _).
    + destruct (negb (truthy _)); [now intros [= <-]|].
      now apply add_agg_consistent.
    + destruct (find _ fallback_key_names); [|now intros [= <-]].
      now apply add_agg_consistent.
Qed.

Lemma wallets_loop_consistent (single_key : option string)
  (trades : list pydict) :
  forall agg agg',
    Forall (fun kv => consistent (snd kv)) agg ->
    wallets_loop single_key trades agg = Ok agg' ->
    Forall (fun kv => consistent (snd kv)) agg'.
Proof.
  induction trades as [|t trades IH]; cbn [wallets_loop]; intros agg agg' Hc.
  - now intros [= <-].
  - unfold bind.
    destruct (wallets_step single_key agg t) as [agg1|e] eqn:E; [|discriminate].
    apply IH. exact (wallets_step_consistent _ _ _ _ Hc E).
Qed.

(** X24. The statistics [aggregate_wallets] returns are consistent for every
    wallet: a wallet it lists has at least one trade, its maker and taker
    trades together are no more than its trades, and neither are its buys
    and sells together. *)
Theorem wallet_stats_consistent (trades : list pydict) (agg : wallet_agg) :
  aggregate_wallets trades = Ok agg ->
  Forall (fun kv => consistent (snd kv)) agg.
Proof.
  unfold aggregate_wallets. destruct (detect_first trades) as [single_key d].
  apply wallets_loop_consistent. constructor.
Qed.

Lemma wallets_step_totals (single_key : option string)
  (agg agg' : wallet_agg) (t : pydict) :
  wallets_step single_key agg t = Ok agg' ->
  (total_of a_trades agg <= total_of a_trades agg' <=
     total_of a_trades agg + 2 /\
   total_of a_trades_maker agg <= total_of a_trades_maker agg' <=
     total_of a_trades_maker agg + 1 /\
   total_of a_trades_taker agg <= total_of a_trades_taker agg' <=
     total_of a_trades_taker agg + 1) /\
  (two_sided t = true ->
   total_of a_trades agg' = total_of a_trades agg + 2 /\
   total_of a_trades_maker agg' = total_of a_trades_maker agg + 1 /\
   total_of a_trades_taker agg' = total_of a_trades_taker agg + 1).
Proof.
  unfold wallets_step, bind, two_sided.
  destruct (has_key t "maker" && has_key t "taker"); cbn [andb].
  - destruct (truthy (get t "maker")); cbn [andb].
    + destruct (add_agg agg _ _ _ _ _) as [agg1|e] eqn:E1; [|discriminate].
      apply add_agg_totals in E1. cbn in E1.
      destruct (truthy (get t "taker")).
      * intros E2. apply add_agg_totals in E2. cbn in E2. lia.
      * intros [= <-]. split; [lia | discriminate].
    + destruct (truthy (get t "taker")).
      * intros E2. apply add_agg_totals in E2. cbn in E2.
        split; [lia | discriminate].
      * intros [= <-]. split; [lia | discriminate].
  - split; [|discriminate]. revert H.
    destruct (present single_key && _).
    + destruct (negb (truthy _)); [intros [= <-]; lia|].
      intros E. apply add_agg_totals in E.
      destruct (role_is _ "maker"), (role_is _ "taker"); cbn in E; lia.
    + destruct (find _ fallback_key_names); [|intros [= <-]; lia].
      intros E. apply add_agg_totals in E. cbn in E. lia.
Qed.

Lemma wallets_loop_totals (single_key : option string)
  (trades : list pydict) :
  forall agg agg',
    wallets_loop single_key trades agg = Ok agg' ->
    let n := Z.of_nat (List.length trades) in
    (total_of a_trades agg' <= total_of a_trades agg + 2 * n /\
     total_of a_trades_maker agg' <= total_of a_trades_maker agg + n /\
     total_of a_trades_taker agg' <= total_of a_trades_taker agg + n) /\
    (forallb two_sided trades = true ->
     total_of a_trades agg' = total_of a_trades agg + 2 * n /\
     total_of a_trades_maker agg' = total_of a_trades_maker agg + n /\
     total_of a_trades_taker agg' = total_of a_trades_taker agg + n).
Proof.
  induction trades as [|t trades IH]; cbn [wallets_loop]; intros agg agg'.
  - intros [= <-]. cbn. lia.
  - unfold bind.
    destruct (wallets_step single_key agg t) as [agg1|e] eqn:E; [|discriminate].
    intros H. apply IH in H. apply wallets_step_totals in E.
    cbv zeta in *. cbn [List.length forallb].
    rewrite Nat2Z.inj_succ. destruct H as [Hb He], E as [Eb Ee].
    split; [lia|].
    destruct (two_sided t); cbn [andb]; [|discriminate].
    intros Hall. specialize (He Hall). specialize (Ee eq_refl). lia.
Qed.

(** X25. Over all the wallets of [aggregate_wallets], the trades counted are
    at most twice the trades given, and the maker trades and the taker
    trades at most the trades given each: a trade is added to two wallets at
    most, once as maker and once as taker. *)
Theorem wallet_trades_bounded (trades : list pydict) (agg : wallet_agg) :
  aggregate_wallets trades = Ok agg ->
  total_of a_trades agg <= 2 * Z.of_nat (List.length trades) /\
  total_of a_trades_maker agg <= Z.of_nat (List.length trades) /\
  total_of a_trades_taker agg <= Z.of_nat (List.length trades).
Proof.
  unfold aggregate_wallets. destruct (detect_first trades) as [single_key d].
  intros H. apply wallets_loop_totals in H as [H _]. cbv zeta in H.
  rewrite !total_of_nil in H. lia.
Qed.

(** X26. When every trade names a maker and a taker, both truthy,
    [aggregate_wallets] counts each trade twice: once for its maker and once
    for its taker, also when the two are the same wallet. *)
Theorem two_sided_trades_count_twice (trades : list pydict)
  (agg : wallet_agg) :
  forallb two_sided trades = true ->
  aggregate_wallets trades = Ok agg ->
  total_of a_trades agg = 2 * Z.of_nat (List.length trades) /\
  total_of a_trades_maker agg = Z.of_nat (List.length trades) /\
  total_of a_trades_taker agg = Z.of_nat (List.length trades).
Proof.
  unfold aggregate_wallets. destruct (detect_first trades) as [single_key d].
  intros Hall H. apply wallets_loop_totals in H as [_ H].
  specialize (H Hall). cbv zeta in H. rewrite !total_of_nil in H. lia.
Qed.

Lemma assign_keys_in {K V : Type} (keq : K -> K -> bool) (d : list (K * V))
  (k0 : K) (v0 : V) (k : K) :
  In k (map fst (assign keq d k0 v0)) -> In k (map fst d) \/ k = k0.
Proof.
  induction d as [|[k1 v1] d IH]; cbn.
  - intros [<-|[]]. now right.
  - destruct (keq k1 k0); cbn.
    + intros [<-|H]; left; auto.
    + intros [<-|H]; [left; auto|].
      destruct (IH H); [left; auto | now right].
Qed.

Lemma add_agg_keys (P : pyval -> Prop) (agg agg' : wallet_agg)
  (wallet : pyval) (role : option string) (size price : float)
  (side : pyval) :
  Forall P (map fst agg) -> P wallet ->
  add_agg agg wallet role size price side = Ok agg' ->
  Forall P (map fst agg').
Proof.
  intros Ha Hw H. apply add_agg_stats in H as (a & -> & _).
  rewrite Forall_forall in *. intros k Hk.
  apply assign_keys_in in Hk as [Hk| ->]; auto.
Qed.

Lemma has_key_find (t : pydict) (names : list string) (k : string) :
  find (fun k => has_key t k && truthy (get t k)) names = Some k ->
  has_key t k = true /\ truthy (get t k) = true.
Proof.
  intros H. apply find_some in H as [_ H].
  now apply andb_true_iff in H.
Qed.

Lemma wallets_step_keys (P : pyval -> Prop) (single_key : option string)
  (agg agg' : wallet_agg) (t : pydict) :
  (forall k, has_key t k = true -> truthy (get t k) = true -> P (get t k)) ->
  Forall P (map fst agg) ->
  wallets_step single_key agg t = Ok agg' ->
  Forall P (map fst agg').
Proof.
  intros Ht Ha. unfold wallets_step, bind.
  destruct (has_key t "maker" && has_key t "taker") eqn:Emt.
  - apply andb_true_iff in Emt as [Em Et].
    destruct (truthy (get t "maker")) eqn:Tm.
    + destruct (add_agg agg _ _ _ _ _) as [agg1|e] eqn:E1; [|discriminate].
      apply (add_agg_keys P) in E1; [|exact Ha | now apply Ht].
      destruct (truthy (get t "taker")) eqn:Tt; [|now intros [= <-]].
      apply add_agg_keys; [exact E1 | now apply Ht].
    + destruct (truthy (get t "taker")) eqn:Tt; [|now intros [= <-]].
      apply add_agg_keys; [exact Ha | now apply Ht].
  - destruct single_key as [k|]; cbn [present andb].
    + destruct (negb (k =? "")%string && has_key t k) eqn:Ek.
      * apply andb_true_iff in Ek as [_ Ek].
        destruct (truthy (get t k)) eqn:Tk; cbn [negb]; [|now intros [= <-]].
        apply add_agg_keys; [exact Ha | now apply Ht].
      * destruct (find _ fallback_key_names) as [k'|] eqn:Ef;
          [|now intros [= <-]].
        apply has_key_find in Ef as [Hk Tk].
        apply add_agg_keys; [exact Ha | now apply Ht].
    + destruct (find _ fallback_key_names) as [k'|] eqn:Ef;
        [|now intros [= <-]].
      apply has_key_find in Ef as [Hk Tk].
      apply add_agg_keys; [exact Ha | now apply Ht].
Qed.

Lemma wallets_loop_keys (all : list pydict) (single_key : option string)
  (trades : list pydict) :
  forall agg agg',
    (forall t, In t trades -> In t all) ->
    Forall (from_trades all) (map fst agg) ->
    wallets_loop single_key trades agg = Ok agg' ->
    Forall (from_trades all) (map fst agg').
Proof.
  induction trades as [|t trades IH]; cbn [wallets_loop];
    intros agg agg' Hin Ha.
  - now intros [= <-].
  - unfold bind.
    destruct (wallets_step single_key agg t) as [agg1|e] eqn:E; [|discriminate].
    apply IH; [intros t' H'; apply Hin; now right|].
    apply (wallets_step_keys (from_trades all)) in E; [exact E | | exact Ha].
    intros k Hk Tk. split; [exact Tk|]. exists t, k.
    split; [apply Hin; now left | now split].
Qed.

(** X27. The wallets of [aggregate_wallets] are taken as the trades give
    them: every wallet it lists is the truthy value some trade holds under
    one of its keys, with no change of case or of type. *)
Theorem wallets_are_verbatim (trades : list pydict) (agg : wallet_agg) :
  aggregate_wallets trades = Ok agg ->
  Forall (from_trades trades) (map fst agg).
Proof.
  unfold aggregate_wallets. destruct (detect_first trades) as [single_key d].
  apply wallets_loop_keys; [auto | constructor].
Qed.

(** ** The pages of the trades *)

Section TradesFacts.

Variable get_trades : TradeParams -> World -> result pyval * World.

Lemma trades_loop_total (fuel : nat) (params_of : pyval -> Z -> TradeParams)
  (limit max_pages : Z) :
  forall rows cursor offset pages w calls,
    0 <= pages ->
    Z.max (max_pages - pages) 1 <= Z.of_nat fuel ->
    exists r w' more,
      trades_loop get_trades fuel params_of limit max_pages rows cursor offset
        pages w calls = Some (r, (w', calls ++ more)) /\
      Z.of_nat (List.length more) <= Z.max (max_pages - pages) 1.
Proof.
  induction fuel as [|fuel IH]; intros rows cursor offset pages w calls Hp Hf;
    [lia|].
  cbn [trades_loop].
  assert (Hone : forall (r : result (list pyval)) (w' : World),
            exists r0 w0 more,
              Some (r, (w', calls ++ [params_of cursor offset])) =
                Some (r0, (w0, calls ++ more)) /\
              Z.of_nat (List.length more) <= Z.max (max_pages - pages) 1).
  { intros r w'. exists r, w', [params_of cursor offset].
    split; [reflexivity | cbn [List.length]; lia]. }
  assert (Hrec : forall rows' cursor' offset' w',
            (max_pages <=? pages + 1) = false ->
            exists r0 w0 more,
              trades_loop get_trades fuel params_of limit max_pages rows'
                cursor' offset' (pages + 1) w'
                (calls ++ [params_of cursor offset]) =
                Some (r0, (w0, calls ++ more)) /\
              Z.of_nat (List.length more) <= Z.max (max_pages - pages) 1).
  { intros rows' cursor' offset' w' Hlt. apply Z.leb_gt in Hlt.
    destruct (IH rows' cursor' offset' (pages + 1) w'
                (calls ++ [params_of cursor offset]))
      as (r0 & w0 & more & E & Hm); [lia | lia |].
    exists r0, w0, (params_of cursor offset :: more).
    split; [rewrite E, <- app_assoc; reflexivity|].
    cbn [List.length]. lia. }
  destruct (get_trades (params_of cursor offset) w) as [[data|e] w1];
    [|apply Hone].
  destruct data as [| | | | |l|d]; try apply Hone.
  - destruct l as [|x l]; [apply Hone|].
    destruct (Z.of_nat (List.length (x :: l)) <? limit); [apply Hone|].
    destruct (max_pages <=? pages + 1) eqn:Hlt; [apply Hone|].
    now apply Hrec.
  - destruct (negb (truthy (get d "results" ||| get d "data" ||| PList [])));
      [apply Hone|].
    destruct (items _) as [l|e]; [|apply Hone].
    destruct (negb (truthy _)); [apply Hone|].
    destruct (max_pages <=? pages + 1) eqn:Hlt; [apply Hone|].
    now apply Hrec.
Qed.

(** X28. [get_trades_pages] ends, whatever the service answers: it returns
    or raises after [max(max_pages, 1)] requests at most; and when both a
    condition and an event are given it raises [ValueError] without a
    request. *)
Theorem trades_pages_terminate (cond_id event_id : option string)
  (limit : Z) (role : string) (max_pages : Z) (user_wallet : option string)
  (w : World) :
  exists r w' calls,
    get_trades_pages get_trades cond_id event_id limit role max_pages
      user_wallet w = Some (r, (w', calls)) /\
    (List.length calls <= Z.to_nat (Z.max max_pages 1))%nat /\
    (present cond_id && present event_id = true ->
     calls = [] /\ w' = w /\ exists msg, r = Raise (Exn ValueError msg)).
Proof.
  unfold get_trades_pages.
  destruct (present cond_id && present event_id).
  - eexists _, _, _. split; [reflexivity|]. split; [cbn; lia|].
    intros _. split; [reflexivity|]. split; [reflexivity|]. now eexists.
  - destruct (trades_loop_total (trades_fuel max_pages)
                (trade_params cond_id event_id limit role user_wallet)
                limit max_pages [] PNone 0 0 w [])
      as (r & w' & more & E & Hm); [lia | unfold trades_fuel; lia |].
    exists r, w', more. split; [exact E|]. split; [lia | discriminate].
Qed.

Lemma trades_loop_serves (all : list pyval) (cond_id event_id : option string)
  (limit : Z) (role : string) (user_wallet : option string) (max_pages : Z)
  (fuel : nat) :
  0 < limit -> serves_trades get_trades all ->
  forall k pages w calls,
    (k <= List.length all)%nat ->
    0 <= pages ->
    Z.max (max_pages - pages) 1 <= Z.of_nat fuel ->
    Z.of_nat (List.length all) - Z.of_nat k <
      limit * Z.max (max_pages - pages) 1 ->
    exists w' calls',
      trades_loop get_trades fuel
        (trade_params cond_id event_id limit role user_wallet)
        limit max_pages (firstn k all) PNone (Z.of_nat k) pages w calls =
        Some (Ok all, (w', calls')).
Proof.
  intros Hl Hs. induction fuel as [|fuel IH];
    intros k pages w calls Hk Hp Hf Hn; [lia|].
  cbn [trades_loop].
  rewrite (Hs _ (Z.of_nat k)) by reflexivity.
  cbn [trade_params q_limit]. rewrite Nat2Z.id.
  set (page := firstn (Z.to_nat limit) (skipn k all)).
  assert (Hlen : List.length page =
                 Nat.min (Z.to_nat limit) (List.length all - k)).
  { unfold page. now rewrite length_firstn, length_skipn. }
  assert (Hout : firstn k all ++ page = firstn (k + Z.to_nat limit) all)
    by apply firstn_add_skipn.
  clearbody page. destruct page as [|a page'].
  - eexists _, _. do 3 f_equal. apply firstn_all2.
    cbn [List.length] in Hlen. lia.
  - destruct (Z.ltb_spec (Z.of_nat (List.length (a :: page'))) limit)
      as [Hshort|Hfull].
    + eexists _, _. do 3 f_equal. rewrite Hout. apply firstn_all2. lia.
    + destruct (Z.leb_spec max_pages (pages + 1)) as [Hlast|Hmore]; [nia|].
      rewrite Hout.
      replace (Z.of_nat k + limit) with (Z.of_nat (k + Z.to_nat limit)) by lia.
      apply IH; lia.
Qed.

(** X29. Against a service that serves a fixed list of trades by offset,
    with [limit > 0] and pages enough to hold the list ([len(all) < limit *
    max(max_pages, 1)]), [get_trades_pages] returns the whole list, in order
    and without a repeat or a gap. *)
Theorem trades_pages_complete (all : list pyval)
  (cond_id event_id : option string) (limit : Z) (role : string)
  (max_pages : Z) (user_wallet : option string) (w : World) :
  present cond_id && present event_id = false ->
  0 < limit ->
  serves_trades get_trades all ->
  Z.of_nat (List.length all) < limit * Z.max max_pages 1 ->
  exists w' calls,
    get_trades_pages get_trades cond_id event_id limit role max_pages
      user_wallet w = Some (Ok all, (w', calls)).
Proof.
  intros Hids Hl Hs Hn. unfold get_trades_pages. rewrite Hids.
  apply (trades_loop_serves all cond_id event_id limit role user_wallet
           max_pages (trades_fuel max_pages) Hl Hs 0%nat 0 w []);
    [lia | lia | unfold trades_fuel; lia |].
  cbn [Z.of_nat]. replace (max_pages - 0) with max_pages by lia. lia.
Qed.

End TradesFacts.

(** ** The decoder of quantities *)

Lemma first_char_rev (s : string) :
  forall acc,
    first_char (rev_string s acc) =
      match last_char s with
      | Some c => Some c
      | None => first_char acc
      end.
Proof.
  induction s as [|c s IH]; intros acc; cbn [rev_string last_char];
    [reflexivity|].
  rewrite IH. now destruct (last_char s).
Qed.

Lemma last_char_rev (s : string) :
  forall acc,
    last_char (rev_string s acc) =
      match last_char acc with
      | Some c => Some c
      | None => first_char s
      end.
Proof.
  induction s as [|c s IH]; intros acc; cbn [rev_string first_char].
  - now destruct (last_char acc).
  - rewrite IH. cbn [last_char]. now destruct (last_char acc).
Qed.

Lemma last_char_lstrip (s : string) (c : ascii) :
  last_char s = Some c -> is_space c = false -> last_char (lstrip s) = Some c.
Proof.
  induction s as [|a s IH]; cbn [lstrip last_char]; [discriminate|].
  intros H Hc. destruct (is_space a) eqn:Ea; [|exact H].
  destruct (last_char s) as [c'|] eqn:El.
  - apply IH; assumption.
  - injection H as <-. congruence.
Qed.

(** Stripping a text that starts with a character that is no white space
    leaves that character first. *)
Lemma first_char_strip (s : string) (c : ascii) :
  first_char s = Some c -> is_space c = false -> first_char (strip s) = Some c.
Proof.
  intros Hf Hc. unfold strip.
  assert (Hl : lstrip s = s).
  { destruct s as [|a s]; [discriminate|]. injection Hf as ->.
    cbn [lstrip]. now rewrite Hc. }
  rewrite Hl, first_char_rev.
  rewrite (last_char_lstrip (rev_string s "") c); [reflexivity | | exact Hc].
  rewrite last_char_rev. exact Hf.
Qed.

Lemma digit_val_nonneg (base : Z) (c : ascii) (d : Z) :
  0 <= base -> digit_val base c = Some d -> 0 <= d.
Proof.
  unfold digit_val, in_range. intros Hb.
  destruct (N.leb_spec 48 (N_of_ascii c)); cbn [andb].
  - destruct (N.leb_spec (N_of_ascii c) 57); cbn [andb].
    + destruct (_ <? base); [|discriminate]. intros [= <-]. lia.
    + destruct (N.leb_spec 97 (N_of_ascii c)); cbn [andb].
      * destruct (N.leb_spec (N_of_ascii c) 122); cbn [andb].
        -- destruct (_ <? base); [|discriminate]. intros [= <-]. lia.
        -- destruct (N.leb_spec 65 (N_of_ascii c)); cbn [andb].
           ++ destruct (N.leb_spec (N_of_ascii c) 90); cbn [andb].
              ** destruct (_ <? base); [|discriminate]. intros [= <-]. lia.
              ** rewrite Z.ltb_irrefl. discriminate.
           ++ rewrite Z.ltb_irrefl. discriminate.
      * destruct (N.leb_spec 65 (N_of_ascii c)); cbn [andb].
        -- destruct (N.leb_spec (N_of_ascii c) 90); cbn [andb].
           ++ destruct (_ <? base); [|discriminate]. intros [= <-]. lia.
           ++ rewrite Z.ltb_irrefl. discriminate.
        -- rewrite Z.ltb_irrefl. discriminate.
  - destruct (N.leb_spec 97 (N_of_ascii c)); [lia|]. cbn [andb].
    destruct (N.leb_spec 65 (N_of_ascii c)); [lia|]. cbn [andb].
    rewrite Z.ltb_irrefl. discriminate.
Qed.

Lemma parse_digits_nonneg (base : Z) (s : string) :
  0 <= base ->
  forall st acc v,
    0 <= acc -> parse_digits base st acc s = Some v -> 0 <= v.
Proof.
  intros Hb. induction s as [|c s IH]; intros st acc v Ha; cbn [parse_digits].
  - destruct st; try discriminate. now intros [= <-].
  - destruct (c =? "_")%char.
    + destruct st as [[]| |]; try discriminate; now apply IH.
    + destruct (digit_val base c) as [d|] eqn:Ed; [|discriminate].
      apply digit_val_nonneg in Ed; [|exact Hb].
      apply IH. nia.
Qed.

(** X30. A text that starts with "0x" or "0X" never decodes to a negative
    number: [hex_to_int] gives a number that is zero or more, or [None]. *)
Theorem hex_text_is_not_negative (s : string) (z : Z) :
  startswith "0x" s || startswith "0X" s = true ->
  hex_to_int (PStr s) = Some z ->
  0 <= z.
Proof.
  intros Hp. unfold hex_to_int. cbn [is_none py_str]. rewrite Hp.
  assert (Hf : first_char s = Some "0"%char).
  { destruct s as [|a s]; [discriminate|].
    unfold startswith in Hp. cbn [String.prefix] in Hp.
    destruct (Ascii.ascii_dec "0" a) as [<-|]; [reflexivity|].
    discriminate. }
  apply first_char_strip in Hf; [|reflexivity].
  unfold int_of_string.
  destruct (strip s) as [|a r]; [discriminate|].
  injection Hf as ->. cbn [Z.eqb Pos.eqb].
  destruct (strip_prefix16 (String "0" r)) as [s2 pre].
  destruct (parse_digits 16 (DStart pre) 0 s2) as [v|] eqn:Ev; [|discriminate].
  intros [= <-].
  now apply (parse_digits_nonneg 16 s2 ltac:(lia) (DStart pre) 0 v).
Qed.

End Engine.

(** * The statements at concrete inputs *)

(** The scenario of C1 on two records that carry the market as [market] and
    the outcome as [outcomeId]. *)
Lemma end_to_end_scenario_witness :
  aggregate_delta_for_wallet repr_const container_const no_float_of_string
    [trade1; trade2] "0xW" =
    Ok [ {| p_market_id := "M1";
            p_market_title := PNone;
            p_outcome_id := "O1";
            p_outcome_label := PStr "buy";
            p_net_shares := f6;
            p_fills := 2;
            avg_fill_price := f0_45 |} ].
Proof.
  exact (end_to_end_scenario repr_const container_const no_float_of_string
           trade1 trade2 _ _ eq_refl eq_refl eq_refl eq_refl eq_refl eq_refl
           eq_refl eq_refl eq_refl eq_refl eq_refl eq_refl eq_refl eq_refl).
Defined.

(** The sale of C2: the account is the taker as well, and the proxy rule
    answers for it. *)
Lemma proxy_wallet_precedence_witness :
  exists n,
    normalize_trade_record repr_const container_const no_float_of_string
      trade_proxy = Ok n /\
    maker n = Some "0xb"%string /\ taker n = Some "0xa"%string /\
    signed_quantity_for_wallet n "0xA" = float_neg f3.
Proof.
  eexists. split; [reflexivity|]. split; [reflexivity|]. split; [reflexivity|].
  etransitivity;
    [apply (proxy_wallet_precedence _ "0xA" f3); reflexivity | reflexivity].
Defined.

(** A taker who is neither buyer nor seller is resolved by the maker/taker
    rule. *)
Lemma buyer_seller_then_maker_taker_witness :
  exists n,
    normalize_trade_record repr_const container_const no_float_of_string
      trade_taker = Ok n /\
    signed_quantity_for_wallet n "0xw" =
      signed_quantity_for_wallet (without_buyer_seller n) "0xw" /\
    signed_quantity_for_wallet n "0xb" = f3 /\
    signed_quantity_for_wallet n "0xc" = float_neg f3.
Proof.
  eexists. split; [reflexivity|].
  split; [|split];
    (etransitivity;
     [apply (buyer_seller_then_maker_taker _ _ f3); reflexivity | reflexivity]).
Defined.

(** C3 as it was stated does not hold: the same taker gets [+size] from the
    resolver and 0 from the closed buyer/seller rule. *)
Lemma buyer_seller_not_closed :
  exists n,
    normalize_trade_record repr_const container_const no_float_of_string
      trade_taker = Ok n /\
    user n = None /\
    buyer n = Some "0xb"%string /\ seller n = Some "0xc"%string /\
    size n = Some f3 /\
    signed_quantity_for_wallet n "0xw" = f3 /\
    buyer_seller_closed n "0xw" = fzero /\
    signed_quantity_for_wallet n "0xw" <> buyer_seller_closed n "0xw".
Proof.
  eexists. repeat (split; [reflexivity|]). vm_compute. discriminate.
Qed.

(** The first trade of the scenario leaves the buckets of another wallet
    alone. *)
Lemma zero_delta_exclusion_witness :
  aggregate_step repr_const container_const no_float_of_string "0xother" []
    trade1 = Ok [].
Proof.
  eapply (zero_delta_exclusion repr_const container_const no_float_of_string
            "0xother" [] trade1); reflexivity.
Defined.

(** One day of October 2025, in winter time. *)
Lemma window_coverage_witness :
  day_windows_local_to_utc cet "2025-10-15" "2025-10-15" =
    Some (Ok [(1760482800, 1760569200)]).
Proof.
  apply (window_coverage cet "2025-10-15" "2025-10-15" 739539 739539);
    [reflexivity | reflexivity | unfold MAXORD; lia
    | intros c Hc; unfold in_utc_range, cet, MAXORD; lia | reflexivity].
Defined.

(** C5 as it was stated does not hold: 9999-12-31 is a date [strptime]
    accepts, and the windower raises on it. *)
Lemma window_last_day_raises :
  strptime_ymd "9999-12-31" = Some MAXORD /\
  day_windows_local_to_utc cet "9999-12-31" "9999-12-31" =
    Some (Raise date_out_of_range).
Proof. split; vm_compute; reflexivity. Qed.

(** The input C6 fails on: a legacy gas price of zero is used, and the fee
    computed, under the note "no_price_found". *)
Lemma fee_fallback_note_witness :
  compute_fee repr_const container_const (option string) receipt_always
    tx_from_world (PStr "0xabc") (Some "0x0"%string, []) =
    (Ok {| gasUsed := Some 21000; effectiveGasPrice := None;
           gasPrice := Some 0; feeWei := Some 0; feeMATIC := Some fzero;
           note := "no_price_found" |},
     (Some "0x0"%string, [FetchReceipt (PStr "0xabc"); FetchTx (PStr "0xabc")])).
Proof.
  etransitivity;
    [apply (fee_fallback_note repr_const container_const (option string)
              receipt_always tx_from_world (PStr "0xabc")
              (Some "0x0"%string) (Some "0x0"%string) (Some "0x0"%string) []
              [("gasUsed", PStr "0x5208"); ("effectiveGasPrice", PNone)]%string
              [("gasPrice", PStr "0x0")]%string);
     [reflexivity | discriminate | reflexivity | reflexivity]
    | vm_compute; reflexivity].
Defined.

(** The scenario of C6: a legacy gas price of 5. *)
Lemma fee_fallback_five :
  exists fee,
    compute_fee repr_const container_const (option string) receipt_always
      tx_from_world (PStr "0xabc") (Some "0x5"%string, []) =
      (Ok fee,
       (Some "0x5"%string,
        [FetchReceipt (PStr "0xabc"); FetchTx (PStr "0xabc")])) /\
    note fee = "fallback_gasPrice"%string /\
    gasPrice fee = Some 5 /\
    feeWei fee = Some (21000 * 5).
Proof.
  eexists. split; [vm_compute; reflexivity|]. repeat split.
Qed.

(** Three merges, two of them of one transaction: two receipts and two
    transactions are fetched, and the first and the last row agree. *)
Lemma fee_memoization_witness :
  exists st log,
    main_loop repr_const container_const no_float_of_string (option string)
      receipt_always tx_from_world f0_5 three_merges init_state
      (Some "0x5"%string, []) = (Ok st, (Some "0x5"%string, log)) /\
    receipts log = [PStr "0xabc"; PStr "0xdef"] /\
    tx_fetches log = [PStr "0xabc"; PStr "0xdef"] /\
    fetched_once (receipts log) /\
    fetched_once (tx_fetches log) /\
    map fee_columns (enriched st) =
      map fee_columns
        (match enriched st with
         | [r1; r2; r3] => [r3; r2; r1]
         | l => l
         end).
Proof.
  eexists. eexists.
  split; [vm_compute; reflexivity|].
  split; [reflexivity|]. split; [reflexivity|].
  pose proof (fee_memoization repr_const container_const no_float_of_string
                (option string) receipt_always tx_from_world f0_5
                three_merges (Some "0x5"%string) _ _ _ eq_refl) as [Hr [Ht _]].
  split; [exact Hr|]. split; [exact Ht|].
  vm_compute. reflexivity.
Defined.

(** The example of C8: with both [market] and [marketId], [market] wins. *)
Lemma market_id_first_truthy_witness :
  exists n,
    normalize_trade_record repr_const container_const no_float_of_string
      trade_two_markets = Ok n /\
    market_id n = PStr "M1".
Proof.
  eexists. split; [reflexivity|].
  etransitivity;
    [apply (market_id_first_truthy repr_const container_const
              no_float_of_string trade_two_markets); reflexivity
    | reflexivity].
Defined.

(** C8 as it was stated does not hold: an empty [conditionId] is not null,
    and it is passed over. *)
Lemma market_id_not_first_non_null :
  exists n,
    normalize_trade_record repr_const container_const no_float_of_string
      trade_empty_condition = Ok n /\
    market_id n = PStr "M1" /\
    first_non_null (map (get trade_empty_condition) market_keys) = PStr "" /\
    market_id n <> first_non_null (map (get trade_empty_condition) market_keys).
Proof.
  eexists. repeat (split; [reflexivity|]). vm_compute. discriminate.
Qed.

(** A receipt call that times out. *)
Lemma fee_error_absorption_witness :
  exists log',
    main_step repr_const container_const no_float_of_string (option string)
      receipt_down tx_from_world f0_5 init_state (merge_of "0xabc")
      (None, []) =
      (Ok {| enriched :=
               [{| row_base := merge_of "0xabc"; row_feeMATIC := None;
                   row_feeUSDC := None; row_netUSDC_after_fee := None;
                   row_maticPriceUSDC := Some f0_5;
                   row_fee_note := "error:timed out" |}];
             tx_cache :=
               [(PStr "0xabc",
                 {| gasUsed := None; effectiveGasPrice := None;
                    gasPrice := None; feeWei := None; feeMATIC := None;
                    note := "error:timed out" |})];
             total_matic := fzero;
             total_usdc := fzero;
             tx_count := 0 |},
       (None, log')).
Proof.
  apply (fee_error_absorption repr_const container_const no_float_of_string
           (option string) receipt_down tx_from_world f0_5 init_state
           (merge_of "0xabc") None None [] timed_out);
    [reflexivity | reflexivity | reflexivity | left; reflexivity].
Defined.

(** The bucket of the scenario has two fills. *)
Lemma fills_at_least_one_witness :
  exists out,
    aggregate_delta_for_wallet repr_const container_const no_float_of_string
      [trade1; trade2] "0xW" = Ok out /\
    Forall (fun p => 1 <= p_fills p /\ Z.max (p_fills p) 1 = p_fills p) out.
Proof.
  eexists. split; [vm_compute; reflexivity|].
  apply (fills_at_least_one repr_const container_const no_float_of_string
           [trade1; trade2] "0xW").
  vm_compute. reflexivity.
Defined.


(** * The rest of the code at concrete inputs *)

(** Two days of October 2025, in winter time. *)
Lemma day_windows_result_witness :
  exists a b,
    strptime_ymd "2025-10-15" = Some a /\
    strptime_ymd "2025-10-16" = Some b /\
    [(1760482800, 1760569200); (1760569200, 1760655600)] =
      map (day_interval cet) (days_from a (Z.to_nat (b + 1 - a))) /\
    List.length [(1760482800, 1760569200); (1760569200, 1760655600)] =
      Z.to_nat (b + 1 - a) /\
    contiguous [(1760482800, 1760569200); (1760569200, 1760655600)].
Proof.
  apply (day_windows_result cet "2025-10-15" "2025-10-16").
  vm_compute. reflexivity.
Defined.

(** The same two days, the wrong way round. *)
Lemma reversed_range_is_empty_witness :
  day_windows_local_to_utc cet "2025-10-16" "2025-10-15" = Some (Ok []).
Proof.
  apply (reversed_range_is_empty cet "2025-10-16" "2025-10-15" 739540 739539);
    [reflexivity | reflexivity | lia].
Defined.

(** One instant of 15 October 2025, in seconds and in milliseconds. *)
Lemma milliseconds_as_seconds_witness :
  extract_ts_seconds [("timestamp", PInt 1760482800)]%string =
    Some 1760482800 /\
  extract_ts_seconds [("timestamp", PInt (1000 * 1760482800 + 123))]%string =
    Some 1760482800.
Proof.
  apply (milliseconds_as_seconds _ _ 1760482800 123);
    [change (2 * 10 ^ 7) with 20000000;
     change (2 * 10 ^ 10) with 20000000000; lia
    | lia | reflexivity | reflexivity].
Defined.

(** The trade at the first midnight and the trade inside the second day are
    kept; the trade at the last midnight is not. *)
Lemma filter_by_day_windows_witness :
  filter_trades_by_windows dated_trades
    [(1760482800, 1760569200); (1760569200, 1760655600)] =
    filter (between (stamp cet 739539) (stamp cet (739540 + 1))) dated_trades.
Proof.
  apply (filter_by_day_windows cet "2025-10-15" "2025-10-16" 739539 739540);
    [reflexivity | reflexivity | lia
    | intros c _; unfold stamp, cet; lia
    | vm_compute; reflexivity].
Defined.

(** The taker of a purchase of 3 gets 3, its maker -3. *)
Lemma maker_taker_rule_witness :
  exists n,
    normalize_trade_record repr_const container_const no_float_of_string
      trade_maker_taker = Ok n /\
    signed_quantity_for_wallet n "0xT" = f3 /\
    signed_quantity_for_wallet n "0xM" = float_neg f3.
Proof.
  eexists. split; [reflexivity|].
  match goal with
  | |- signed_quantity_for_wallet ?n _ = _ /\ _ =>
      pose proof (maker_taker_rule n "0xM" "0xT" f3 eq_refl eq_refl eq_refl
                    eq_refl eq_refl eq_refl eq_refl
                    ltac:(vm_compute; discriminate)) as [Ht Hm]
  end.
  split; [exact Ht | exact Hm].
Defined.

(** The addresses of the same purchase, written with capitals. *)
Lemma normalized_in_lower_case_witness :
  exists n,
    normalize_trade_record repr_const container_const no_float_of_string
      trade_maker_taker = Ok n /\
    maker n = Some "0xm"%string /\ taker n = Some "0xt"%string /\
    side n = PStr "buy" /\
    lowercase (maker n) /\ lowercase (taker n).
Proof.
  eexists. split; [reflexivity|].
  split; [reflexivity|]. split; [reflexivity|]. split; [reflexivity|].
  pose proof (normalized_in_lower_case repr_const container_const
                no_float_of_string trade_maker_taker _ eq_refl)
    as (_ & Hm & Ht & _).
  split; [exact Hm | exact Ht].
Defined.

(** The two trades of the scenario make one position. *)
Lemma one_position_per_outcome_witness :
  exists out,
    aggregate_delta_for_wallet repr_const container_const no_float_of_string
      [trade1; trade2] "0xW" = Ok out /\
    NoDup (map position_key out).
Proof.
  eexists. split; [vm_compute; reflexivity|].
  apply (one_position_per_outcome repr_const container_const
           no_float_of_string [trade1; trade2] "0xW").
  vm_compute. reflexivity.
Defined.

(** Both trades of the scenario are counted. *)
Lemma fills_count_trades_witness :
  exists out,
    aggregate_delta_for_wallet repr_const container_const no_float_of_string
      [trade1; trade2] "0xW" = Ok out /\
    sum_Z (map p_fills out) =
      Z.of_nat
        (List.length
           (filter (counted repr_const container_const no_float_of_string
                      "0xW") [trade1; trade2])).
Proof.
  eexists. split; [vm_compute; reflexivity|].
  apply (fills_count_trades repr_const container_const no_float_of_string
           [trade1; trade2] "0xW").
  vm_compute. reflexivity.
Defined.

(** A price that is an array, between the two trades of the scenario. *)
Lemma bad_record_aborts_witness :
  aggregate_delta_for_wallet repr_const container_const no_float_of_string
    ([trade1] ++ trade_bad_price :: [trade2]) "0xW" =
    Raise (Exn TypeError
             "float() argument must be a string or a real number, not 'list'").
Proof.
  apply (bad_record_aborts repr_const container_const no_float_of_string
           [trade1] [trade2] trade_bad_price);
    [constructor; [eexists; reflexivity | constructor] | reflexivity].
Defined.

(** The fee of a transaction with a legacy gas price of 5. *)
Lemma compute_fee_record_witness :
  exists fee s',
    compute_fee repr_const container_const (option string) receipt_always
      tx_from_world (PStr "0xabc") (Some "0x5"%string, []) = (Ok fee, s') /\
    note fee = "fallback_gasPrice"%string /\
    feeWei fee = Some (21000 * 5) /\
    feeWei fee =
      match gasUsed fee, gasPrice fee with
      | Some g, Some p => Some (g * p)
      | _, _ => None
      end.
Proof.
  eexists. eexists. split; [vm_compute; reflexivity|].
  split; [reflexivity|]. split; [reflexivity|].
  refine (proj1 (proj2 (compute_fee_record repr_const container_const
                          (option string) receipt_always tx_from_world
                          (PStr "0xabc") (Some "0x5"%string, [])
                          (Some "0x5"%string,
                           [FetchReceipt (PStr "0xabc");
                            FetchTx (PStr "0xabc")]) _ _))).
  vm_compute. reflexivity.
Defined.

(** The two calls behind that fee. *)
Lemma compute_fee_calls_witness :
  exists r w' log',
    compute_fee repr_const container_const (option string) receipt_always
      tx_from_world (PStr "0xabc") (Some "0x5"%string, []) = (r, (w', log')) /\
    log' = [FetchReceipt (PStr "0xabc"); FetchTx (PStr "0xabc")] /\
    (log' = [] ++ [FetchReceipt (PStr "0xabc")] \/
     log' = [] ++ [FetchReceipt (PStr "0xabc"); FetchTx (PStr "0xabc")]).
Proof.
  eexists. eexists. eexists. split; [vm_compute; reflexivity|].
  split; [reflexivity|].
  refine (proj1 (compute_fee_calls repr_const container_const (option string)
                   receipt_always tx_from_world (PStr "0xabc")
                   (Some "0x5"%string) (Some "0x5"%string) [] _ _ _)).
  vm_compute. reflexivity.
Defined.

(** A refusal in text where the receipt should be. *)
Lemma text_receipt_is_an_error_witness :
  fee_for repr_const container_const (option string) receipt_refused
    tx_from_world [] (PStr "0xabc") (None, []) =
    (Ok (error_record
           (Exn AttributeError "'str' object has no attribute 'get'"),
         [(PStr "0xabc",
           error_record
             (Exn AttributeError "'str' object has no attribute 'get'"))]),
     (None, [FetchReceipt (PStr "0xabc")])).
Proof.
  apply (text_receipt_is_an_error repr_const container_const (option string)
           receipt_refused tx_from_world [] (PStr "0xabc") None None []
           "Max rate limit reached");
    [reflexivity | reflexivity | discriminate | reflexivity].
Defined.

(** The three merges give three rows. *)
Lemma one_row_per_merge_witness :
  exists st s',
    main_loop repr_const container_const no_float_of_string (option string)
      receipt_always tx_from_world f0_5 three_merges init_state
      (Some "0x5"%string, []) = (Ok st, s') /\
    map row_base (enriched st) = three_merges.
Proof.
  eexists. eexists. split; [vm_compute; reflexivity|].
  eapply (one_row_per_merge repr_const container_const no_float_of_string
           (option string) receipt_always tx_from_world f0_5 three_merges
           _ (Some "0x5"%string, []) _).
  vm_compute. reflexivity.
Defined.

(** Two transactions behind three merges: three rows with a fee. *)
Lemma totals_are_column_sums_witness :
  exists st s',
    main_loop repr_const container_const no_float_of_string (option string)
      receipt_always tx_from_world f0_5 three_merges init_state
      (Some "0x5"%string, []) = (Ok st, s') /\
    tx_count st = 3 /\
    tx_count st = Z.of_nat (List.length (filter has_fee (enriched st))) /\
    total_matic st = fold_left add_fee (enriched st) fzero /\
    total_usdc st = fold_left add_fee_usdc (enriched st) fzero.
Proof.
  eexists. eexists. split; [vm_compute; reflexivity|].
  split; [reflexivity|].
  eapply (totals_are_column_sums repr_const container_const no_float_of_string
           (option string) receipt_always tx_from_world f0_5 three_merges
           _ (Some "0x5"%string, []) _).
  vm_compute. reflexivity.
Defined.

(** Three merges in pages of two. *)
Lemma activity_pages_complete_witness :
  fst (fetch_merged_activity unit (paged_feed three_activities) "0xw" 2 3 tt) =
    Ok three_activities.
Proof.
  apply (activity_pages_complete unit (paged_feed three_activities)
           three_activities "0xw" 2 3 tt);
    [lia | intros offset w; reflexivity | vm_compute; reflexivity].
Defined.

(** The report of the two days: two of the three dated trades are inside
    and counted. *)
Lemma dated_fills_count_witness :
  exists out,
    aggregate_delta_for_wallet repr_const container_const no_float_of_string
      (filter_trades_by_windows dated_trades
         [(1760482800, 1760569200); (1760569200, 1760655600)]) "0xW" =
      Ok out /\
    sum_Z (map p_fills out) =
      Z.of_nat
        (List.length
           (filter
              (fun t =>
                 between (stamp cet 739539) (stamp cet (739540 + 1)) t &&
                 counted repr_const container_const no_float_of_string
                   "0xW" t) dated_trades)).
Proof.
  eexists. split; [vm_compute; reflexivity|].
  apply (dated_fills_count repr_const container_const no_float_of_string cet
           "2025-10-15" "2025-10-16" 739539 739540
           [(1760482800, 1760569200); (1760569200, 1760655600)]);
    [reflexivity | reflexivity | lia
    | intros c _; unfold stamp, cet; lia
    | vm_compute; reflexivity
    | vm_compute; reflexivity].
Defined.

(** Two wallets, each once the maker and once the taker. *)
Lemma wallet_stats_consistent_witness :
  exists agg,
    aggregate_wallets repr_const container_const no_float_of_string
      two_sided_trades = Ok agg /\
    map fst agg = [PStr "0xM"; PStr "0xT"] /\
    Forall (fun kv => consistent (snd kv)) agg.
Proof.
  eexists. split; [vm_compute; reflexivity|]. split; [reflexivity|].
  apply (wallet_stats_consistent repr_const container_const
           no_float_of_string two_sided_trades).
  vm_compute. reflexivity.
Defined.

Lemma wallet_trades_bounded_witness :
  exists agg,
    aggregate_wallets repr_const container_const no_float_of_string
      two_sided_trades = Ok agg /\
    total_of a_trades agg <= 2 * Z.of_nat (List.length two_sided_trades) /\
    total_of a_trades_maker agg <= Z.of_nat (List.length two_sided_trades) /\
    total_of a_trades_taker agg <= Z.of_nat (List.length two_sided_trades).
Proof.
  eexists. split; [vm_compute; reflexivity|].
  apply (wallet_trades_bounded repr_const container_const no_float_of_string
           two_sided_trades).
  vm_compute. reflexivity.
Defined.

Lemma two_sided_trades_count_twice_witness :
  exists agg,
    aggregate_wallets repr_const container_const no_float_of_string
      two_sided_trades = Ok agg /\
    total_of a_trades agg = 2 * Z.of_nat (List.length two_sided_trades) /\
    total_of a_trades_maker agg = Z.of_nat (List.length two_sided_trades) /\
    total_of a_trades_taker agg = Z.of_nat (List.length two_sided_trades).
Proof.
  eexists. split; [vm_compute; reflexivity|].
  apply (two_sided_trades_count_twice repr_const container_const
           no_float_of_string two_sided_trades);
    [reflexivity | vm_compute; reflexivity].
Defined.

Lemma wallets_are_verbatim_witness :
  exists agg,
    aggregate_wallets repr_const container_const no_float_of_string
      two_sided_trades = Ok agg /\
    Forall (from_trades two_sided_trades) (map fst agg).
Proof.
  eexists. split; [vm_compute; reflexivity|].
  apply (wallets_are_verbatim repr_const container_const no_float_of_string
           two_sided_trades).
  vm_compute. reflexivity.
Defined.

(** Three trades in pages of two. *)
Lemma trades_pages_complete_witness :
  exists w' calls,
    get_trades_pages unit (paged_trades three_activities) (Some "0xcond"%string)
      None 2 "all" 3 (Some "0xW"%string) tt =
      Some (Ok three_activities, (w', calls)).
Proof.
  apply (trades_pages_complete unit (paged_trades three_activities)
           three_activities (Some "0xcond"%string) None 2 "all" 3
           (Some "0xW"%string) tt);
    [reflexivity | lia
    | intros q offset w Hq; unfold paged_trades; rewrite Hq; reflexivity
    | vm_compute; reflexivity].
Defined.

(** The gas of a plain transfer. *)
Lemma hex_text_is_not_negative_witness :
  hex_to_int repr_const container_const (PStr "0x5208") = Some 21000 /\
  0 <= 21000.
Proof.
  split; [reflexivity|].
  apply (hex_text_is_not_negative repr_const container_const "0x5208" 21000);
    reflexivity.
Defined.
